(** * The API-client / page data-flow layer of the RAG playground frontend

    A shallow embedding of [frontend/src/services/api.js] and of the event
    handlers of the page components, with the properties of the layer
    stated and proved over it.

    - [JS]: the JavaScript values the layer manipulates (strings as UTF-16
      code units, JSON-like values, truthiness, property access, [trim]).
    - [Axios]: the configured client instance of api.js.
    - [API]: the domain modules of api.js, one function per exported
      JavaScript function, called with a JavaScript argument list.
    - [Async]: event handlers as small interaction programs, and the
      single-threaded event loop that runs them.
    - [ReactQuery]: the two library behaviours the pages rely on
      ([mutate] and the retry loop of a query).
    - one module per page component, with its state, its callbacks and
      handlers, and its events; [Pages] puts them together.
    - [Discipline], [Panels], [Spec]: the predicates, the result panels and
      forms, and the endpoint table the properties are stated with.

    Rendering (markup, [disabled] attributes, icons) is not modelled. *)

From Stdlib Require Import List String Ascii ZArith NArith Bool Lia Permutation Sorted.
From Stdlib Require Import DecimalString.
Import ListNotations.
Local Open Scope string_scope.
Local Open Scope list_scope.
Local Set Warnings "-register-all".

(* ===================================================================== *)
(** * JavaScript values *)
(* ===================================================================== *)

Module JS.

(** A JavaScript string is a sequence of UTF-16 code units. *)
Definition jsstring := list N.

(** A source literal (all literals of the layer are ASCII). *)
Definition lit (s : string) : jsstring :=
  map N_of_ascii (list_ascii_of_string s).

Definition str_eqb (a b : jsstring) : bool :=
  if list_eq_dec N.eq_dec a b then true else false.

(** ECMAScript WhiteSpace and LineTerminator code points: what
    [String.prototype.trim] strips.  All of them are single code units. *)
Definition is_white_space (c : N) : bool :=
  (   (c =? 9) || (c =? 10) || (c =? 11) || (c =? 12) || (c =? 13)
   || (c =? 32) || (c =? 160) || (c =? 5760)
   || ((8192 <=? c) && (c <=? 8202))
   || (c =? 8232) || (c =? 8233) || (c =? 8239) || (c =? 8287)
   || (c =? 12288) || (c =? 65279))%N.

Fixpoint trim_start (s : jsstring) : jsstring :=
  match s with
  | [] => []
  | c :: s' => if is_white_space c then trim_start s' else s
  end.

Definition trim_end (s : jsstring) : jsstring := rev (trim_start (rev s)).

(** [s.trim()] *)
Definition trim (s : jsstring) : jsstring := trim_end (trim_start s).

(** The string is empty or made of white space only. *)
Definition blank (s : jsstring) : bool := forallb is_white_space s.

(** The values the layer passes around: request bodies, decoded response
    bodies, error objects.  An object lists its fields in the order they
    were created (source order for a literal, text order for a parsed body).
    Numbers occur only inside payloads that are passed through; the
    integer ones are representable. *)
Inductive jsval : Type :=
| JUndefined
| JNull
| JBool (b : bool)
| JNum (n : Z)
| JStr (s : jsstring)
| JArr (xs : list jsval)
| JObj (fields : list (string * jsval))
| JFormData (entries : list (string * jsval)).

(** ToBoolean *)
Definition truthy (v : jsval) : bool :=
  match v with
  | JUndefined | JNull => false
  | JBool b => b
  | JNum n => negb (n =? 0)%Z
  | JStr s => match s with [] => false | _ => true end
  | JArr _ | JObj _ | JFormData _ => true
  end.

(** [a || b] *)
Definition js_or (a b : jsval) : jsval := if truthy a then a else b.

Fixpoint lookup (k : string) (fs : list (string * jsval)) : jsval :=
  match fs with
  | [] => JUndefined
  | (k', v) :: fs' => if String.eqb k k' then v else lookup k fs'
  end.

(** [v.k] for a property name [k] that is not a builtin of strings, arrays
    or numbers (every name the layer reads is such a name): [None] is the
    TypeError raised on [undefined] and [null]. *)
Definition get (k : string) (v : jsval) : option jsval :=
  match v with
  | JUndefined | JNull => None
  | JObj fs => Some (lookup k fs)
  | _ => Some JUndefined
  end.

(** [v?.k] *)
Definition get_opt (k : string) (v : jsval) : jsval :=
  match get k v with
  | Some x => x
  | None => JUndefined
  end.

(** The [i]-th actual argument of a call: missing ones are [undefined]. *)
Definition arg (i : nat) (args : list jsval) : jsval := nth i args JUndefined.

(** A parameter with a default value, [(p = d) => ...]: the default is
    taken when the argument is [undefined]. *)
Definition param_default (d v : jsval) : jsval :=
  match v with
  | JUndefined => d
  | _ => v
  end.

(** An array of strings as a value. *)
Definition str_array (l : list jsstring) : jsval := JArr (map JStr l).

(** [!s] for a string [s] *)
Definition is_empty (s : jsstring) : bool :=
  match s with
  | [] => true
  | _ :: _ => false
  end.

(** [v === 'literal'] *)
Definition is_str (v : jsval) (s : jsstring) : bool :=
  match v with
  | JStr x => str_eqb x s
  | _ => false
  end.

(** [v.trim()]: [None] is the TypeError of calling [trim] on a value that
    is not a string. *)
Definition trim_of (v : jsval) : option jsstring :=
  match v with
  | JStr t => Some (trim t)
  | _ => None
  end.

(** [s.toLowerCase().endsWith('.pdf')].  Lower-casing maps no code unit
    other than the ASCII capitals to one of the four of the suffix, so the
    test reads the last four code units. *)
Definition ends_with_pdf (s : jsstring) : bool :=
  match rev s with
  | f :: d :: p :: dot :: _ =>
      ((dot =? 46) && ((p =? 112) || (p =? 80))
       && ((d =? 100) || (d =? 68)) && ((f =? 102) || (f =? 70)))%N
  | _ => false
  end.

(** [arr.includes(x)] on an array of strings *)
Definition includes (x : jsstring) (arr : list jsstring) : bool :=
  existsb (fun t => str_eqb t x) arr.

(** [s] starts with [pat]: what follows it. *)
Fixpoint strip_prefix (pat s : jsstring) : option jsstring :=
  match pat, s with
  | [], _ => Some s
  | _ :: _, [] => None
  | p :: pat', c :: s' =>
      if N.eqb p c then strip_prefix pat' s' else None
  end.

(** [s.replace(pat, rep)] for a string pattern and a replacement without
    [$]: the first occurrence of [pat] is replaced, the rest is left. *)
Fixpoint replace_first (pat rep s : jsstring) : jsstring :=
  match strip_prefix pat s with
  | Some rest => rep ++ rest
  | None =>
      match s with
      | [] => []
      | c :: s' => c :: replace_first pat rep s'
      end
  end.

(** [Array.isArray(v)] *)
Definition is_array (v : jsval) : bool :=
  match v with
  | JArr _ => true
  | _ => false
  end.

(** The key of the [i]-th element of an array or string. *)
Definition index_key (i : nat) : string :=
  NilEmpty.string_of_uint (Nat.to_uint i).

Definition indexed (xs : list jsval) : list (string * jsval) :=
  combine (map index_key (List.seq 0 (List.length xs))) xs.

(** An array index: the canonical decimal form of an integer below
    [2^32 - 1]. *)
Definition array_index (k : string) : option N :=
  match NilEmpty.uint_of_string k with
  | Some u =>
      let n := N.of_uint u in
      if String.eqb (NilEmpty.string_of_uint (N.to_uint n)) k
         && (n <? 4294967295)%N
      then Some n
      else None
  | None => None
  end.

(** The fields whose key is an array index, each with its index. *)
Fixpoint index_keyed (fs : list (string * jsval)) : list (N * (string * jsval)) :=
  match fs with
  | [] => []
  | kv :: fs' =>
      match array_index (fst kv) with
      | Some n => (n, kv) :: index_keyed fs'
      | None => index_keyed fs'
      end
  end.

Fixpoint insert_index (x : N * (string * jsval))
    (l : list (N * (string * jsval))) : list (N * (string * jsval)) :=
  match l with
  | [] => [x]
  | y :: l' => if (fst x <=? fst y)%N then x :: l else y :: insert_index x l'
  end.

Definition sort_index (l : list (N * (string * jsval)))
    : list (N * (string * jsval)) :=
  fold_right insert_index [] l.

Definition named (kv : string * jsval) : bool :=
  match array_index (fst kv) with
  | Some _ => false
  | None => true
  end.

(** The own properties of an object in the order the engine enumerates
    them: the keys that are array indices first, in ascending order, then
    the other keys in the order they were created. *)
Definition own_properties (fs : list (string * jsval)) : list (string * jsval) :=
  map snd (sort_index (index_keyed fs)) ++ filter named fs.

(** What that order says of two fields, the first enumerated before the
    second: an array index comes before a larger one and before every
    other key. *)
Definition enumerated_before (a b : string * jsval) : Prop :=
  match array_index (fst a), array_index (fst b) with
  | Some i, Some j => (i <= j)%N
  | Some _, None => True
  | None, Some _ => False
  | None, None => True
  end.

(** [Object.entries(v)].  An array or a string has its elements under
    their indices, a number or a boolean has none. *)
Definition entries (v : jsval) : option (list (string * jsval)) :=
  match v with
  | JUndefined | JNull => None
  | JObj fs => Some (own_properties fs)
  | JFormData _ => Some []
  | JArr xs => Some (indexed xs)
  | JStr s => Some (indexed (map (fun c => JStr [c]) s))
  | JNum _ | JBool _ => Some []
  end.

End JS.
Import JS.

(* ===================================================================== *)
(** * The HTTP client wrapper (api.js, lines 1-33) *)
(* ===================================================================== *)

Module Axios.

Inductive http_method := GET | POST.

Definition headers := list (string * string).

(** The per-request configuration a caller may pass. *)
Record config := {
  cfg_headers : headers;
  cfg_timeout : option Z;
}.

Definition no_config : config := {| cfg_headers := []; cfg_timeout := None |}.

(** What [axios.create] was given. *)
Record instance := {
  baseURL : jsval;
  default_timeout : Z;
  default_headers : headers;
}.

(** A request as api.js configures it: the method, path and body of the
    call, and the headers and timeout that the configuration of the
    instance and of the call give.  What axios adds or adjusts of its own
    on the way to the transport (its default [Accept] header, the headers
    of a request without a body) is the library's and is not listed. *)
Record request := {
  method : http_method;
  url : string;
  data : jsval;
  req_headers : headers;
  timeout : Z;
}.

Fixpoint has_header (k : string) (h : headers) : bool :=
  match h with
  | [] => false
  | (k', _) :: h' => String.eqb k k' || has_header k h'
  end.

(** Per-request headers win over the headers the instance was created
    with. *)
Definition merge_headers (defaults req : headers) : headers :=
  filter (fun kv => negb (has_header (fst kv) req)) defaults ++ req.

Definition merge_timeout (default : Z) (req : option Z) : Z :=
  match req with
  | Some t => t
  | None => default
  end.

(** The request interceptor returns the configuration untouched. *)
Definition request_interceptor (r : request) : request := r.

Definition send (i : instance) (m : http_method) (path : string)
    (body : jsval) (c : config) : request :=
  request_interceptor
    {| method := m;
       url := path;
       data := body;
       req_headers := merge_headers (default_headers i) (cfg_headers c);
       timeout := merge_timeout (default_timeout i) (cfg_timeout c) |}.

(** [const API_BASE_URL = process.env.REACT_APP_API_URL || 'http://localhost:8000'] *)
Definition API_BASE_URL (env_REACT_APP_API_URL : jsval) : jsval :=
  js_or env_REACT_APP_API_URL (JStr (lit "http://localhost:8000")).

(** [const api = axios.create({ baseURL, timeout: 30000, headers })] *)
Definition create (env_REACT_APP_API_URL : jsval) : instance :=
  {| baseURL := API_BASE_URL env_REACT_APP_API_URL;
     default_timeout := 30000;
     default_headers := [("Content-Type", "application/json")] |}.

(** The timeout and headers of [api] do not depend on the environment;
    requests carry the path, the base URL stays in the instance. *)
Definition api : instance := create JUndefined.

(** [api.post(path, body, config)]; a call without a body sends [undefined]. *)
Definition api_post (path : string) (body : jsval) (c : config) : request :=
  send api POST path body c.

(** [api.get(path)] *)
Definition api_get (path : string) : request :=
  send api GET path JUndefined no_config.

(** The response interceptor: a response passes through; an error is logged
    once and rejected again, unchanged. *)
Definition response_interceptor_fulfilled (response : jsval) : jsval := response.
Definition response_interceptor_rejected (error : jsval) : string * jsval :=
  ("API Error:", error).

End Axios.
Import Axios.

(* ===================================================================== *)
(** * The domain API modules (api.js, lines 35-176) *)
(* ===================================================================== *)

Module API.

(** Every function takes the JavaScript argument list of the call. *)

Definition pdfAPI_uploadPDF (args : list jsval) : request :=
  let file := arg 0 args in
  let formData := JFormData [("file", file)] in
  api_post "/api/pdf/upload" formData
    {| cfg_headers := [("Content-Type", "multipart/form-data")];
       cfg_timeout := None |}.

Definition pdfAPI_downloadPDF (args : list jsval) : request :=
  let url := arg 0 args in
  api_post "/api/pdf/download" (JObj [("url", url)]) no_config.

Definition ragAPI_query (args : list jsval) : request :=
  let question := arg 0 args in
  let searchType := param_default (JStr (lit "hybrid")) (arg 1 args) in
  api_post "/api/rag/query"
    (JObj [("question", question); ("search_type", searchType)]) no_config.

Definition ragAPI_stepbackQuery (args : list jsval) : request :=
  let question := arg 0 args in
  api_post "/api/rag/stepback" (JObj [("question", question)]) no_config.

Definition text2cypherAPI_query (args : list jsval) : request :=
  let question := arg 0 args in
  let terminology := param_default (JStr []) (arg 1 args) in
  let examples := param_default (JStr []) (arg 2 args) in
  api_post "/api/text2cypher/query"
    (JObj [("question", question); ("terminology", terminology);
           ("examples", examples)]) no_config.

Definition text2cypherAPI_getSchema (args : list jsval) : request :=
  api_get "/api/text2cypher/schema".

Definition text2cypherAPI_loadMoviesDataset (args : list jsval) : request :=
  api_post "/api/text2cypher/load-movies" JUndefined no_config.

Definition agenticRAGAPI_query (args : list jsval) : request :=
  let question := arg 0 args in
  api_post "/api/agentic-rag/query" (JObj [("question", question)]) no_config.

Definition agenticRAGAPI_getTools (args : list jsval) : request :=
  api_get "/api/agentic-rag/tools".

Definition default_entity_types : list jsstring :=
  [lit "PERSON"; lit "ORGANIZATION"; lit "LOCATION"; lit "EVENT"].

Definition entityAPI_extract (args : list jsval) : request :=
  let text := arg 0 args in
  let entityTypes := param_default (str_array default_entity_types) (arg 1 args) in
  api_post "/api/entities/extract"
    (JObj [("text", text); ("entity_types", entityTypes)]) no_config.

Definition entityAPI_getGraph (args : list jsval) : request :=
  api_get "/api/entities/graph".

Definition contractAPI_extract (args : list jsval) : request :=
  let contractText := arg 0 args in
  api_post "/api/contracts/extract" (JObj [("contract_text", contractText)]) no_config.

Definition contractAPI_list (args : list jsval) : request :=
  api_get "/api/contracts/list".

Definition graphRAGAPI_globalQuery (args : list jsval) : request :=
  let question := arg 0 args in
  api_post "/api/graph-rag/global" (JObj [("question", question)]) no_config.

Definition graphRAGAPI_localQuery (args : list jsval) : request :=
  let question := arg 0 args in
  api_post "/api/graph-rag/local" (JObj [("question", question)]) no_config.

Definition graphRAGAPI_calculateCommunities (args : list jsval) : request :=
  api_post "/api/graph-rag/communities" JUndefined no_config.

Definition statsAPI_getStats (args : list jsval) : request :=
  api_get "/api/stats".

Definition statsAPI_getHealth (args : list jsval) : request :=
  api_get "/health".

Definition knowledgeGraphAPI_extract (args : list jsval) : request :=
  let document := arg 0 args in
  api_post "/api/knowledge-graph/extract" (JObj [("document", document)]) no_config.

Definition knowledgeGraphAPI_import (args : list jsval) : request :=
  let document := arg 0 args in
  api_post "/api/knowledge-graph/import" (JObj [("document", document)]) no_config.

Definition knowledgeGraphAPI_getSampleContract (args : list jsval) : request :=
  api_get "/api/knowledge-graph/sample-contract".

Definition knowledgeGraphAPI_getGraphData (args : list jsval) : request :=
  api_get "/api/knowledge-graph/data".

Definition knowledgeGraphAPI_query (args : list jsval) : request :=
  let question := arg 0 args in
  api_post "/api/knowledge-graph/query" (JObj [("question", question)]) no_config.

Definition knowledgeGraphAPI_createConstraints (args : list jsval) : request :=
  api_post "/api/knowledge-graph/constraints" JUndefined no_config.

Definition knowledgeGraphAPI_getStatistics (args : list jsval) : request :=
  api_get "/api/knowledge-graph/statistics".

Definition knowledgeGraphAPI_clear (args : list jsval) : request :=
  api_post "/api/knowledge-graph/clear" JUndefined no_config.

Definition databaseAPI_reset (args : list jsval) : request :=
  api_post "/api/database/reset" JUndefined no_config.

(** The exported functions, by name. *)
Inductive operation :=
| PdfUploadPDF | PdfDownloadPDF
| RagQuery | RagStepbackQuery
| T2cQuery | T2cGetSchema | T2cLoadMoviesDataset
| AgenticQuery | AgenticGetTools
| EntityExtract | EntityGetGraph
| ContractExtract | ContractList
| GraphGlobalQuery | GraphLocalQuery | GraphCalculateCommunities
| StatsGetStats | StatsGetHealth
| KgExtract | KgImport | KgGetSampleContract | KgGetGraphData | KgQuery
| KgCreateConstraints | KgGetStatistics | KgClear
| DbReset.

Definition all_operations : list operation :=
  [PdfUploadPDF; PdfDownloadPDF; RagQuery; RagStepbackQuery;
   T2cQuery; T2cGetSchema; T2cLoadMoviesDataset;
   AgenticQuery; AgenticGetTools; EntityExtract; EntityGetGraph;
   ContractExtract; ContractList;
   GraphGlobalQuery; GraphLocalQuery; GraphCalculateCommunities;
   StatsGetStats; StatsGetHealth;
   KgExtract; KgImport; KgGetSampleContract; KgGetGraphData; KgQuery;
   KgCreateConstraints; KgGetStatistics; KgClear; DbReset].

Definition call (o : operation) : list jsval -> request :=
  match o with
  | PdfUploadPDF => pdfAPI_uploadPDF
  | PdfDownloadPDF => pdfAPI_downloadPDF
  | RagQuery => ragAPI_query
  | RagStepbackQuery => ragAPI_stepbackQuery
  | T2cQuery => text2cypherAPI_query
  | T2cGetSchema => text2cypherAPI_getSchema
  | T2cLoadMoviesDataset => text2cypherAPI_loadMoviesDataset
  | AgenticQuery => agenticRAGAPI_query
  | AgenticGetTools => agenticRAGAPI_getTools
  | EntityExtract => entityAPI_extract
  | EntityGetGraph => entityAPI_getGraph
  | ContractExtract => contractAPI_extract
  | ContractList => contractAPI_list
  | GraphGlobalQuery => graphRAGAPI_globalQuery
  | GraphLocalQuery => graphRAGAPI_localQuery
  | GraphCalculateCommunities => graphRAGAPI_calculateCommunities
  | StatsGetStats => statsAPI_getStats
  | StatsGetHealth => statsAPI_getHealth
  | KgExtract => knowledgeGraphAPI_extract
  | KgImport => knowledgeGraphAPI_import
  | KgGetSampleContract => knowledgeGraphAPI_getSampleContract
  | KgGetGraphData => knowledgeGraphAPI_getGraphData
  | KgQuery => knowledgeGraphAPI_query
  | KgCreateConstraints => knowledgeGraphAPI_createConstraints
  | KgGetStatistics => knowledgeGraphAPI_getStatistics
  | KgClear => knowledgeGraphAPI_clear
  | DbReset => databaseAPI_reset
  end.

End API.
Import API.

(* ===================================================================== *)
(** * Event handlers and the event loop *)
(* ===================================================================== *)

Module Async.

(** How a request settles.  A fulfilled promise carries the fields of the
    axios response object ([response.data] is field [data]); a rejected one
    carries the error object. *)
Definition response := list (string * jsval).

Inductive outcome :=
| Resolved (r : response)
| Rejected (error : jsval).

Definition response_data (r : response) : jsval := lookup "data" r.

(** What a handler does besides updating the component's state and
    sending requests. *)
Inductive effect :=
| ToastSuccess (msg : string)
| ToastError (msg : string) (appended : option jsval)
| ConsoleLog (label : string) (v : jsval)
| ConsoleError (label : string) (v : jsval)
| Refetch (queryKey : string)
| InvalidateQueries (queryKey : string).

(** A handler over component state [S].  [SetState] is a state setter
    (it acts on the state current when it runs), [GetState] reads state
    kept outside the render closure, [Now] is [Date.now()], [Spawn] starts
    a task that is not awaited, [Await] issues a request and suspends the
    task until the request settles. *)
Inductive proc (S : Type) : Type :=
| Done
| SetState (f : S -> S) (k : proc S)
| GetState (k : S -> proc S)
| Emit (e : effect) (k : proc S)
| Now (k : Z -> proc S)
| Spawn (task : proc S) (k : proc S)
| Await (r : request) (k : outcome -> proc S).

Arguments Done {S}.
Arguments SetState {S} f k.
Arguments GetState {S} k.
Arguments Emit {S} e k.
Arguments Now {S} k.
Arguments Spawn {S} task k.
Arguments Await {S} r k.

(** [p; q] *)
Fixpoint seq {S} (p q : proc S) : proc S :=
  match p with
  | Done => q
  | SetState f k => SetState f (seq k q)
  | GetState k => GetState (fun s => seq (k s) q)
  | Emit e k => Emit e (seq k q)
  | Now k => Now (fun t => seq (k t) q)
  | Spawn a k => Spawn a (seq k q)
  | Await r k => Await r (fun o => seq (k o) q)
  end.

(** What the page has done so far, in call order. *)
Inductive entry :=
| Sent (r : request)
| Did (e : effect).

(** The page while the event loop runs: the component state, the requests
    in flight with the continuation each will resume, and the log. *)
Record world (S : Type) := {
  state : S;
  pending : list (request * (outcome -> proc S));
  log : list entry;
}.

Arguments state {S} w.
Arguments pending {S} w.
Arguments log {S} w.

Definition init {S} (s : S) : world S :=
  {| state := s; pending := []; log := [] |}.

(** Run a task until it ends or suspends on a request. *)
Fixpoint run_sync {S} (now : Z) (p : proc S) (w : world S) : world S :=
  match p with
  | Done => w
  | SetState f k =>
      run_sync now k
        {| state := f (state w); pending := pending w; log := log w |}
  | GetState k => run_sync now (k (state w)) w
  | Emit e k =>
      run_sync now k
        {| state := state w; pending := pending w; log := log w ++ [Did e] |}
  | Now k => run_sync now (k now) w
  | Spawn a k => run_sync now k (run_sync now a w)
  | Await r k =>
      {| state := state w;
         pending := pending w ++ [(r, k)];
         log := log w ++ [Sent r] |}
  end.

Fixpoint remove_nth {A} (i : nat) (l : list A) : list A :=
  match i, l with
  | _, [] => []
  | O, _ :: l' => l'
  | S i', x :: l' => x :: remove_nth i' l'
  end.

(** What the event loop delivers: a user action runs a handler built from
    the state as last rendered; a request in flight settles. *)
Inductive event (S : Type) :=
| Invoke (now : Z) (handler : S -> proc S)
| Settle (now : Z) (i : nat) (o : outcome).

Arguments Invoke {S} now handler.
Arguments Settle {S} now i o.

Definition step {S} (e : event S) (w : world S) : world S :=
  match e with
  | Invoke now h => run_sync now (h (state w)) w
  | Settle now i o =>
      match nth_error (pending w) i with
      | Some (_, k) =>
          run_sync now (k o)
            {| state := state w;
               pending := remove_nth i (pending w);
               log := log w |}
      | None => w
      end
  end.

Fixpoint run {S} (es : list (event S)) (w : world S) : world S :=
  match es with
  | [] => w
  | e :: es' => run es' (step e w)
  end.

(** The HTTP requests of a log, in order. *)
Fixpoint requests (l : list entry) : list request :=
  match l with
  | [] => []
  | Sent r :: l' => r :: requests l'
  | Did _ :: l' => requests l'
  end.

(** [error.response?.data?.detail]; a rejection value is an Error object. *)
Definition error_detail (error : jsval) : jsval :=
  get_opt "detail" (get_opt "data" (get_opt "response" error)).

(** [error.response?.data?.detail || error.message] *)
Definition detail_or_message (error : jsval) : jsval :=
  js_or (error_detail error) (get_opt "message" error).

(** The TypeError of a property read on [undefined] or [null]; the text
    of its message is the engine's, some non-empty string. *)
Definition TypeError : jsval :=
  JObj [("name", JStr (lit "TypeError"));
        ("message", JStr (lit "Cannot read properties of undefined"))].

End Async.
Import Async.

(* ===================================================================== *)
(** * react-query: what the pages rely on *)
(* ===================================================================== *)

Module ReactQuery.

(** The result of [useMutation] as a component sees it: the observer
    follows the mutation started last. *)
Record observer := {
  current : nat;
  isLoading : bool;
}.

Definition idle : observer := {| current := 0; isLoading := false |}.

Section Mutation.
Context {S : Type}.
Variable obs : S -> observer.
Variable set_obs : observer -> S -> S.
(** [useMutation(mutationFn, { onSuccess, onError, onSettled })].  A
    callback that throws before its first effect is [None]. *)
Variable mutationFn : list jsval -> request.
Variable onSuccess : response -> jsval -> option (proc S).
Variable onError : jsval -> jsval -> proc S.
Variable onSettled : proc S.

(** The observer leaves the loading state when the mutation it follows
    settles. *)
Definition finish (id : nat) : proc S :=
  GetState (fun s =>
    if Nat.eqb (current (obs s)) id
    then SetState (set_obs {| current := id; isLoading := false |}) Done
    else Done).

(** [mutation.mutate(variables)]: the mutation function is called with
    the variables as its only argument; the callbacks of the options run
    for every mutation, and an [onSuccess] that throws is handled as a
    failure of the mutation.  Mutations are not retried. *)
Definition mutate (variables : jsval) : proc S :=
  GetState (fun s =>
    let id := Datatypes.S (current (obs s)) in
    SetState (set_obs {| current := id; isLoading := true |})
      (Await (mutationFn [variables]) (fun o =>
         match o with
         | Resolved r =>
             match onSuccess r variables with
             | Some p => seq p (seq onSettled (finish id))
             | None =>
                 seq (onError TypeError variables) (seq onSettled (finish id))
             end
         | Rejected error =>
             seq (onError error variables) (seq onSettled (finish id))
         end))).
End Mutation.

(** The [retry] option of a query. *)
Inductive retry_option :=
| RetryUnset
| RetryFalse
| RetryCount (n : nat).

(** [useQuery(key, queryFn, options)] *)
Record query := {
  queryKey : string;
  queryFn : list jsval -> request;
  retry : retry_option;
  refetchInterval : option Z;
  enabled : bool;
}.

(** How many times a failed fetch is run again; [default] is the query
    client's default, used when the query sets no [retry]. *)
Definition retries (default : nat) (q : query) : nat :=
  match retry q with
  | RetryUnset => default
  | RetryFalse => 0
  | RetryCount n => n
  end.

(** One fetch of a query: the query function runs, and runs again after a
    failure while the failure count is below the retry count.  [outs] is
    how the successive attempts settle ([true]: fulfilled); the result is
    the requests made and whether the fetch ended fulfilled, rejected, or
    is still waiting for an attempt to settle ([None]). *)
Fixpoint attempt (fn : list jsval -> request) (ctx : jsval)
    (retry failureCount : nat) (outs : list bool) : list request * option bool :=
  match outs with
  | [] => ([fn [ctx]], None)
  | true :: _ => ([fn [ctx]], Some true)
  | false :: outs' =>
      if Nat.ltb failureCount retry
      then let (rs, res) := attempt fn ctx retry (Datatypes.S failureCount) outs' in
           (fn [ctx] :: rs, res)
      else ([fn [ctx]], Some false)
  end.

Definition fetch (default : nat) (q : query) (ctx : jsval) (outs : list bool)
    : list request * option bool :=
  attempt (queryFn q) ctx (retries default q) 0 outs.

End ReactQuery.
Import ReactQuery.

(* ===================================================================== *)
(** * RAG chat page (pages/RAGChat.js) *)
(* ===================================================================== *)

Module RAGChat.

Record state := {
  messages : list jsval;
  input : jsstring;
  searchType : jsstring;
  queryMutation : observer;
}.

Definition set_messages (f : list jsval -> list jsval) (s : state) : state :=
  {| messages := f (messages s); input := input s;
     searchType := searchType s; queryMutation := queryMutation s |}.

Definition setInput (v : jsstring) (s : state) : state :=
  {| messages := messages s; input := v;
     searchType := searchType s; queryMutation := queryMutation s |}.

Definition setSearchType (v : jsstring) (s : state) : state :=
  {| messages := messages s; input := input s;
     searchType := v; queryMutation := queryMutation s |}.

Definition set_queryMutation (o : observer) (s : state) : state :=
  {| messages := messages s; input := input s;
     searchType := searchType s; queryMutation := o |}.

Definition greeting (mounted : Z) : jsval :=
  JObj [("id", JNum 1);
        ("type", JStr (lit "bot"));
        ("content", JStr (lit "Hello! I'm your RAG assistant. Ask me questions about your uploaded documents and I'll help you find answers using advanced retrieval techniques."));
        ("timestamp", JNum mounted)].

Definition initial (mounted : Z) : state :=
  {| messages := [greeting mounted]; input := [];
     searchType := lit "hybrid"; queryMutation := idle |}.

(** [setMessages(prev => [...prev, m])] *)
Definition push (m : jsval) : state -> state :=
  set_messages (fun prev => prev ++ [m]).

(** The mutation function; [handleSubmit] always passes an object. *)
Definition mutationFn (args : list jsval) : request :=
  let question := get_opt "question" (arg 0 args) in
  let type := get_opt "type" (arg 0 args) in
  if is_str type (lit "stepback")
  then ragAPI_stepbackQuery [question]
  else ragAPI_query [question; type].

(** The bot message of [onSuccess]; [None] when reading a field of
    [response.data] throws. *)
Definition botMessage (now : Z) (r : response) (variables : jsval) : option jsval :=
  let data := response_data r in
  match get "answer" data, get "retrieved_documents" data,
        get "retrievedDocuments" data, get "search_type" data,
        get "stepback_question" data with
  | Some answer, Some retrieved_documents, Some retrievedDocuments,
    Some search_type, Some stepback_question =>
      Some (JObj [("id", JNum now);
                  ("type", JStr (lit "bot"));
                  ("content", answer);
                  ("searchType", get_opt "type" variables);
                  ("retrievedDocs", js_or retrieved_documents retrievedDocuments);
                  ("metadata", JObj [("searchType", search_type);
                                     ("stepbackQuestion", stepback_question)]);
                  ("timestamp", JNum now)])
  | _, _, _, _, _ => None
  end.

(** Whether the callback throws does not depend on the clock. *)
Definition onSuccess (r : response) (variables : jsval) : option (proc state) :=
  match botMessage 0 r variables with
  | Some _ =>
      Some (Now (fun now =>
        match botMessage now r variables with
        | Some m => SetState (push m) Done
        | None => Done
        end))
  | None => None
  end.

Definition errorMessage (now : Z) : jsval :=
  JObj [("id", JNum now);
        ("type", JStr (lit "bot"));
        ("content", JStr (lit "Sorry, I encountered an error while processing your question. Please try again."));
        ("timestamp", JNum now)].

Definition onError (error variables : jsval) : proc state :=
  Emit (ToastError "Failed to get response" None)
    (Now (fun now => SetState (push (errorMessage now)) Done)).

Definition userMessage (now : Z) (input : jsstring) : jsval :=
  JObj [("id", JNum now);
        ("type", JStr (lit "user"));
        ("content", JStr input);
        ("timestamp", JNum now)].

Definition mutate : jsval -> proc state :=
  ReactQuery.mutate queryMutation set_queryMutation
    mutationFn onSuccess onError Done.

Definition handleSubmit (s : state) : proc state :=
  if is_empty (trim (input s)) || isLoading (queryMutation s) then Done
  else
    Now (fun now =>
      SetState (push (userMessage now (input s)))
        (Spawn (mutate (JObj [("question", JStr (input s));
                              ("type", JStr (searchType s))]))
           (SetState (setInput []) Done))).

(** What the result panel shows last. *)
Definition last_message (s : state) : option jsval := last (map Some (messages s)) None.

(** The events of the page. *)
Inductive action :=
| ChangeInput (v : jsstring)
| ChangeSearchType (v : jsstring)
| Submit.

Definition handle (a : action) (s : state) : proc state :=
  match a with
  | ChangeInput v => SetState (setInput v) Done
  | ChangeSearchType v => SetState (setSearchType v) Done
  | Submit => handleSubmit s
  end.

End RAGChat.

(* ===================================================================== *)
(** * Entity extraction page (src/unnamed/part_001) *)
(* ===================================================================== *)

Module EntityExtraction.

Record state := {
  text : jsstring;
  entityTypes : list jsstring;
  result : jsval;
  extractMutation : observer;
}.

Definition setText (v : jsstring) (s : state) : state :=
  {| text := v; entityTypes := entityTypes s;
     result := result s; extractMutation := extractMutation s |}.

Definition set_entityTypes (f : list jsstring -> list jsstring) (s : state) : state :=
  {| text := text s; entityTypes := f (entityTypes s);
     result := result s; extractMutation := extractMutation s |}.

Definition setResult (v : jsval) (s : state) : state :=
  {| text := text s; entityTypes := entityTypes s;
     result := v; extractMutation := extractMutation s |}.

Definition set_extractMutation (o : observer) (s : state) : state :=
  {| text := text s; entityTypes := entityTypes s;
     result := result s; extractMutation := o |}.

Definition initial : state :=
  {| text := [];
     entityTypes := [lit "PERSON"; lit "ORGANIZATION"; lit "LOCATION"; lit "EVENT"];
     result := JNull;
     extractMutation := idle |}.

Definition availableEntityTypes : list jsstring :=
  [lit "PERSON"; lit "ORGANIZATION"; lit "LOCATION"; lit "EVENT";
   lit "PRODUCT"; lit "CONCEPT"].

(** [useQuery('entity-graph', entityAPI.getGraph, { enabled: false })] *)
Definition graphQuery : query :=
  {| queryKey := "entity-graph"; queryFn := entityAPI_getGraph;
     retry := RetryUnset; refetchInterval := None; enabled := false |}.

Definition onSuccess (r : response) (variables : jsval) : option (proc state) :=
  Some (SetState (setResult (response_data r))
         (Emit (ToastSuccess "Entities extracted successfully!")
           (Emit (Refetch "entity-graph") Done))).

Definition onError (error variables : jsval) : proc state :=
  Emit (ToastError "Failed to extract entities" None)
    (Emit (ConsoleError "Extraction error:" error) Done).

(** [useMutation(entityAPI.extract, ...)]: the domain function itself is
    the mutation function. *)
Definition mutate : jsval -> proc state :=
  ReactQuery.mutate extractMutation set_extractMutation
    entityAPI_extract onSuccess onError Done.

Definition handleSubmit (s : state) : proc state :=
  if is_empty (trim (text s)) then Done
  else Spawn (mutate (JObj [("text", JStr (text s));
                            ("entityTypes", str_array (entityTypes s))])) Done.

(** [prev.includes(type) ? prev.filter(t => t !== type) : [...prev, type]] *)
Definition toggle (type : jsstring) (prev : list jsstring) : list jsstring :=
  if includes type prev
  then filter (fun t => negb (str_eqb t type)) prev
  else prev ++ [type].

Definition handleEntityTypeChange (type : jsstring) (s : state) : proc state :=
  SetState (set_entityTypes (toggle type)) Done.

(** The events of the page. *)
Inductive action :=
| ChangeText (v : jsstring)
| ToggleEntityType (type : jsstring)
| Submit
| ViewGraph.

Definition handle (a : action) (s : state) : proc state :=
  match a with
  | ChangeText v => SetState (setText v) Done
  | ToggleEntityType type => handleEntityTypeChange type s
  | Submit => handleSubmit s
  | ViewGraph => Emit (Refetch "entity-graph") Done
  end.

End EntityExtraction.

(* ===================================================================== *)
(** * Graph RAG page (pages/GraphRAG.js) *)
(* ===================================================================== *)

Module GraphRAG.

Record state := {
  question : jsstring;
  searchType : jsstring;
  result : jsval;
  globalMutation : observer;
  localMutation : observer;
  communitiesMutation : observer;
}.

Definition setQuestion (v : jsstring) (s : state) : state :=
  {| question := v; searchType := searchType s; result := result s;
     globalMutation := globalMutation s; localMutation := localMutation s;
     communitiesMutation := communitiesMutation s |}.

Definition setSearchType (v : jsstring) (s : state) : state :=
  {| question := question s; searchType := v; result := result s;
     globalMutation := globalMutation s; localMutation := localMutation s;
     communitiesMutation := communitiesMutation s |}.

Definition setResult (v : jsval) (s : state) : state :=
  {| question := question s; searchType := searchType s; result := v;
     globalMutation := globalMutation s; localMutation := localMutation s;
     communitiesMutation := communitiesMutation s |}.

Definition set_globalMutation (o : observer) (s : state) : state :=
  {| question := question s; searchType := searchType s; result := result s;
     globalMutation := o; localMutation := localMutation s;
     communitiesMutation := communitiesMutation s |}.

Definition set_localMutation (o : observer) (s : state) : state :=
  {| question := question s; searchType := searchType s; result := result s;
     globalMutation := globalMutation s; localMutation := o;
     communitiesMutation := communitiesMutation s |}.

Definition set_communitiesMutation (o : observer) (s : state) : state :=
  {| question := question s; searchType := searchType s; result := result s;
     globalMutation := globalMutation s; localMutation := localMutation s;
     communitiesMutation := o |}.

Definition initial : state :=
  {| question := []; searchType := lit "global"; result := JNull;
     globalMutation := idle; localMutation := idle;
     communitiesMutation := idle |}.

Definition global_onSuccess (r : response) (variables : jsval) : option (proc state) :=
  Some (SetState (setResult (response_data r))
         (Emit (ToastSuccess "Global graph RAG completed!") Done)).

Definition global_onError (error variables : jsval) : proc state :=
  Emit (ToastError "Failed to perform global graph RAG" None)
    (Emit (ConsoleError "Global RAG error:" error) Done).

Definition local_onSuccess (r : response) (variables : jsval) : option (proc state) :=
  Some (SetState (setResult (response_data r))
         (Emit (ToastSuccess "Local graph RAG completed!") Done)).

Definition local_onError (error variables : jsval) : proc state :=
  Emit (ToastError "Failed to perform local graph RAG" None)
    (Emit (ConsoleError "Local RAG error:" error) Done).

Definition communities_onSuccess (r : response) (variables : jsval) : option (proc state) :=
  Some (Emit (ToastSuccess "Communities calculated successfully!")
         (Emit (ConsoleLog "Communities result:" (response_data r)) Done)).

Definition communities_onError (error variables : jsval) : proc state :=
  Emit (ToastError "Failed to calculate communities" None)
    (Emit (ConsoleError "Communities error:" error) Done).

Definition global_mutate : jsval -> proc state :=
  ReactQuery.mutate globalMutation set_globalMutation
    graphRAGAPI_globalQuery global_onSuccess global_onError Done.

Definition local_mutate : jsval -> proc state :=
  ReactQuery.mutate localMutation set_localMutation
    graphRAGAPI_localQuery local_onSuccess local_onError Done.

Definition communities_mutate : jsval -> proc state :=
  ReactQuery.mutate communitiesMutation set_communitiesMutation
    graphRAGAPI_calculateCommunities communities_onSuccess communities_onError Done.

Definition handleSubmit (s : state) : proc state :=
  if is_empty (trim (question s)) then Done
  else if str_eqb (searchType s) (lit "global")
  then Spawn (global_mutate (JObj [("question", JStr (question s))])) Done
  else Spawn (local_mutate (JObj [("question", JStr (question s))])) Done.

(** The "Calculate Communities" button: [communitiesMutation.mutate()] *)
Definition handleCalculateCommunities (s : state) : proc state :=
  Spawn (communities_mutate JUndefined) Done.

(** The events of the page. *)
Inductive action :=
| ChangeQuestion (v : jsstring)
| SelectSearchType (v : jsstring)
| Submit
| CalculateCommunities.

Definition handle (a : action) (s : state) : proc state :=
  match a with
  | ChangeQuestion v => SetState (setQuestion v) Done
  | SelectSearchType v => SetState (setSearchType v) Done
  | Submit => handleSubmit s
  | CalculateCommunities => handleCalculateCommunities s
  end.

End GraphRAG.

(* ===================================================================== *)
(** * PDF processor page (pages/PDFProcessor.js) *)
(* ===================================================================== *)

Module PDFProcessor.

Record state := {
  dragActive : bool;
  url : jsstring;
  processingResults : jsval;
  uploadMutation : observer;
  downloadMutation : observer;
}.

Definition setDragActive (v : bool) (s : state) : state :=
  {| dragActive := v; url := url s; processingResults := processingResults s;
     uploadMutation := uploadMutation s; downloadMutation := downloadMutation s |}.

Definition setUrl (v : jsstring) (s : state) : state :=
  {| dragActive := dragActive s; url := v; processingResults := processingResults s;
     uploadMutation := uploadMutation s; downloadMutation := downloadMutation s |}.

Definition setProcessingResults (v : jsval) (s : state) : state :=
  {| dragActive := dragActive s; url := url s; processingResults := v;
     uploadMutation := uploadMutation s; downloadMutation := downloadMutation s |}.

Definition set_uploadMutation (o : observer) (s : state) : state :=
  {| dragActive := dragActive s; url := url s; processingResults := processingResults s;
     uploadMutation := o; downloadMutation := downloadMutation s |}.

Definition set_downloadMutation (o : observer) (s : state) : state :=
  {| dragActive := dragActive s; url := url s; processingResults := processingResults s;
     uploadMutation := uploadMutation s; downloadMutation := o |}.

Definition initial : state :=
  {| dragActive := false; url := []; processingResults := JNull;
     uploadMutation := idle; downloadMutation := idle |}.

Definition upload_onSuccess (r : response) (variables : jsval) : option (proc state) :=
  Some (Emit (ToastSuccess "PDF uploaded and processed successfully!")
         (SetState (setProcessingResults (response_data r)) Done)).

Definition upload_onError (error variables : jsval) : proc state :=
  Emit (ToastError "Failed to upload PDF" None)
    (Emit (ConsoleError "Upload error:" error) Done).

Definition download_onSuccess (r : response) (variables : jsval) : option (proc state) :=
  Some (Emit (ToastSuccess "PDF downloaded and processed successfully!")
         (SetState (setProcessingResults (response_data r))
           (SetState (setUrl []) Done))).

Definition download_onError (error variables : jsval) : proc state :=
  Emit (ToastError "Failed to download PDF" None)
    (Emit (ConsoleError "Download error:" error) Done).

Definition upload_mutate : jsval -> proc state :=
  ReactQuery.mutate uploadMutation set_uploadMutation
    pdfAPI_uploadPDF upload_onSuccess upload_onError Done.

Definition download_mutate : jsval -> proc state :=
  ReactQuery.mutate downloadMutation set_downloadMutation
    pdfAPI_downloadPDF download_onSuccess download_onError Done.

(** [e.type] of a drag event *)
Definition handleDrag (e_type : jsstring) (s : state) : proc state :=
  if str_eqb e_type (lit "dragenter") || str_eqb e_type (lit "dragover")
  then SetState (setDragActive true) Done
  else if str_eqb e_type (lit "dragleave")
  then SetState (setDragActive false) Done
  else Done.

(** The body shared by [handleDrop] and [handleFileSelect]; [files] is the
    event's file list, [None] when the event has none. *)
Definition upload_first (files : option (list jsval)) : proc state :=
  match files with
  | Some (file :: _) =>
      if is_str (get_opt "type" file) (lit "application/pdf")
      then Spawn (upload_mutate file) Done
      else Emit (ToastError "Please upload a PDF file" None) Done
  | _ => Done
  end.

Definition handleDrop (files : option (list jsval)) (s : state) : proc state :=
  SetState (setDragActive false) (upload_first files).

Definition handleFileSelect (files : option (list jsval)) (s : state) : proc state :=
  upload_first files.

Definition handleUrlSubmit (s : state) : proc state :=
  if is_empty (trim (url s)) then Done
  else if negb (ends_with_pdf (url s))
  then Emit (ToastError "Please provide a valid PDF URL" None) Done
  else Spawn (download_mutate (JStr (url s))) Done.

(** The events of the page. *)
Inductive action :=
| Drag (e_type : jsstring)
| Drop (files : option (list jsval))
| FileSelect (files : option (list jsval))
| ChangeUrl (v : jsstring)
| UrlSubmit
| ProcessAnother.

Definition handle (a : action) (s : state) : proc state :=
  match a with
  | Drag e_type => handleDrag e_type s
  | Drop files => handleDrop files s
  | FileSelect files => handleFileSelect files s
  | ChangeUrl v => SetState (setUrl v) Done
  | UrlSubmit => handleUrlSubmit s
  | ProcessAnother => SetState (setProcessingResults JNull) Done
  end.

End PDFProcessor.

(* ===================================================================== *)
(** * Agentic RAG page (second component of src/frontend/src/pages/PDFProcessor.js) *)
(* ===================================================================== *)

Module AgenticRAG.

Record state := {
  question : jsstring;
  isLoading : bool;
  result : jsval;
  availableTools : jsval;
  agenticRAGMutation : observer;
}.

Definition setQuestion (v : jsstring) (s : state) : state :=
  {| question := v; isLoading := isLoading s; result := result s;
     availableTools := availableTools s;
     agenticRAGMutation := agenticRAGMutation s |}.

Definition setIsLoading (v : bool) (s : state) : state :=
  {| question := question s; isLoading := v; result := result s;
     availableTools := availableTools s;
     agenticRAGMutation := agenticRAGMutation s |}.

Definition setResult (v : jsval) (s : state) : state :=
  {| question := question s; isLoading := isLoading s; result := v;
     availableTools := availableTools s;
     agenticRAGMutation := agenticRAGMutation s |}.

Definition set_agenticRAGMutation (o : observer) (s : state) : state :=
  {| question := question s; isLoading := isLoading s; result := result s;
     availableTools := availableTools s;
     agenticRAGMutation := o |}.

Definition initial : state :=
  {| question := []; isLoading := false; result := JNull;
     availableTools := JArr []; agenticRAGMutation := idle |}.

(** [useQuery('agentic-rag-tools', () => agenticRAGAPI.getTools(),
              { refetchOnWindowFocus: false, retry: 3 })] *)
Definition toolsQuery : query :=
  {| queryKey := "agentic-rag-tools";
     queryFn := fun _ => agenticRAGAPI_getTools [];
     retry := RetryCount 3; refetchInterval := None; enabled := true |}.

(** [(question) => agenticRAGAPI.query(question)] *)
Definition mutationFn (args : list jsval) : request :=
  agenticRAGAPI_query [arg 0 args].

(** [onSuccess: (data) => ...]: [data] is the response object. *)
Definition onSuccess (r : response) (variables : jsval) : option (proc state) :=
  Some (Emit (ConsoleLog "Agentic RAG Success:" (JObj r))
         (SetState (setResult (js_or (response_data r) (JObj r)))
           (Emit (ToastSuccess "Query processed successfully!") Done))).

Definition onError (error variables : jsval) : proc state :=
  Emit (ConsoleError "Agentic RAG Error:" error)
    (Emit (ToastError "Failed to process query: " (Some (detail_or_message error)))
      (SetState (setResult JNull) Done)).

Definition onSettled : proc state := SetState (setIsLoading false) Done.

Definition mutate : jsval -> proc state :=
  ReactQuery.mutate agenticRAGMutation set_agenticRAGMutation
    mutationFn onSuccess onError onSettled.

Definition handleSubmit (s : state) : proc state :=
  if is_empty (trim (question s))
  then Emit (ToastError "Please enter a question" None) Done
  else
    Emit (ConsoleLog "Submitting question:" (JStr (question s)))
      (SetState (setIsLoading true)
        (SetState (setResult JNull)
          (Spawn (mutate (JStr (question s))) Done))).

Definition handleExampleQuestion (exampleQuestion : jsstring) (s : state) : proc state :=
  SetState (setQuestion exampleQuestion) Done.

(** The events of the page. *)
Inductive action :=
| ChangeQuestion (v : jsstring)
| ExampleQuestion (v : jsstring)
| Submit
| RefreshTools.

Definition handle (a : action) (s : state) : proc state :=
  match a with
  | ChangeQuestion v => SetState (setQuestion v) Done
  | ExampleQuestion v => handleExampleQuestion v s
  | Submit => handleSubmit s
  | RefreshTools => Emit (Refetch "agentic-rag-tools") Done
  end.

(** The effect that follows the tools query: what it passes to
    [setAvailableTools], [None] when it sets nothing.  [toolsData] is the
    data of the query, [undefined] until a fetch has succeeded. *)
Definition toolsEffect (toolsData : jsval) : option jsval :=
  if truthy (get_opt "tools" toolsData) && is_array (get_opt "tools" toolsData)
  then Some (get_opt "tools" toolsData)
  else if truthy toolsData
  then
    if truthy (get_opt "tools" (get_opt "data" toolsData))
    then Some (get_opt "tools" (get_opt "data" toolsData))
    else if is_array toolsData then Some toolsData
    else None
  else None.

Definition setAvailableTools (v : jsval) (s : state) : state :=
  {| question := question s; isLoading := isLoading s; result := result s;
     availableTools := v;
     agenticRAGMutation := agenticRAGMutation s |}.

Definition onToolsData (toolsData : jsval) (s : state) : proc state :=
  match toolsEffect toolsData with
  | Some v => SetState (setAvailableTools v) Done
  | None => Done
  end.

End AgenticRAG.

(* ===================================================================== *)
(** * Contract extraction page (third component of src/frontend/src/pages/PDFProcessor.js) *)
(* ===================================================================== *)

Module ContractExtraction.

Record state := {
  contractText : jsstring;
  result : jsval;
  extractMutation : observer;
}.

Definition setContractText (v : jsstring) (s : state) : state :=
  {| contractText := v; result := result s;
     extractMutation := extractMutation s |}.

Definition setResult (v : jsval) (s : state) : state :=
  {| contractText := contractText s; result := v;
     extractMutation := extractMutation s |}.

Definition set_extractMutation (o : observer) (s : state) : state :=
  {| contractText := contractText s; result := result s;
     extractMutation := o |}.

Definition initial : state :=
  {| contractText := []; result := JNull; extractMutation := idle |}.

(** [useQuery('contracts', contractAPI.list)] *)
Definition contractsQuery : query :=
  {| queryKey := "contracts"; queryFn := contractAPI_list;
     retry := RetryUnset; refetchInterval := None; enabled := true |}.

Definition onSuccess (r : response) (variables : jsval) : option (proc state) :=
  Some (SetState (setResult (response_data r))
         (Emit (ToastSuccess "Contract information extracted successfully!")
           (Emit (Refetch "contracts") Done))).

Definition onError (error variables : jsval) : proc state :=
  Emit (ToastError "Failed to extract contract information" None)
    (Emit (ConsoleError "Extraction error:" error) Done).

Definition mutate : jsval -> proc state :=
  ReactQuery.mutate extractMutation set_extractMutation
    contractAPI_extract onSuccess onError Done.

Definition handleSubmit (s : state) : proc state :=
  if is_empty (trim (contractText s)) then Done
  else Spawn (mutate (JObj [("contractText", JStr (contractText s))])) Done.

(** The events of the page. *)
Inductive action :=
| ChangeContractText (v : jsstring)
| Submit
| ViewContracts.

Definition handle (a : action) (s : state) : proc state :=
  match a with
  | ChangeContractText v => SetState (setContractText v) Done
  | Submit => handleSubmit s
  | ViewContracts => Emit (Refetch "contracts") Done
  end.

End ContractExtraction.

(* ===================================================================== *)
(** * Statistics page (pages/Statistics.js) and dashboard (src/unnamed/part_002) *)
(* ===================================================================== *)

Module Statistics.

(** The component has no [useState]: what it displays is the data the
    statistics query delivered last.  react-query owns that data; the
    component has no setter for it. *)
Record state := {
  stats : jsval;
}.

Definition initial : state := {| stats := JUndefined |}.

Definition set_stats (v : jsval) (s : state) : state := {| stats := v |}.

(** [useQuery('detailed-stats', () => statsAPI.getStats(), { refetchInterval: 30000 })] *)
Definition statsQuery : query :=
  {| queryKey := "detailed-stats"; queryFn := fun _ => statsAPI_getStats [];
     retry := RetryUnset; refetchInterval := Some 30000%Z; enabled := true |}.

(** [confirmed] is what [window.confirm] returned. *)
Definition handleResetDatabase (confirmed : bool) (s : state) : proc state :=
  if confirmed then
    Await (databaseAPI_reset []) (fun o =>
      match o with
      | Resolved _ =>
          Emit (ToastSuccess "Database reset successfully!")
            (Emit (Refetch "detailed-stats") Done)
      | Rejected error =>
          Emit (ToastError "Failed to reset database: "
                  (Some (detail_or_message error))) Done
      end)
  else Done.

(** The events of the page; [StatsFetched] is the query delivering the
    result of a fetch: the component renders again with it as [stats]. *)
Inductive action :=
| Refresh
| ResetDatabase (confirmed : bool)
| StatsFetched (data : jsval).

Definition handle (a : action) (s : state) : proc state :=
  match a with
  | Refresh => Emit (Refetch "detailed-stats") Done
  | ResetDatabase confirmed => handleResetDatabase confirmed s
  | StatsFetched data => SetState (set_stats data) Done
  end.

End Statistics.

Module Dashboard.

(** As on the statistics page, the component has no [useState]: it
    displays the data its two queries delivered last. *)
Record state := {
  stats : jsval;
  health : jsval;
}.

Definition initial : state := {| stats := JUndefined; health := JUndefined |}.

Definition set_stats (v : jsval) (s : state) : state :=
  {| stats := v; health := health s |}.

Definition set_health (v : jsval) (s : state) : state :=
  {| stats := stats s; health := v |}.

(** [useQuery('stats', () => statsAPI.getStats(), { refetchInterval: 30000 })] *)
Definition statsQuery : query :=
  {| queryKey := "stats"; queryFn := fun _ => statsAPI_getStats [];
     retry := RetryUnset; refetchInterval := Some 30000%Z; enabled := true |}.

(** [useQuery('health', () => statsAPI.getHealth(), { refetchInterval: 10000 })] *)
Definition healthQuery : query :=
  {| queryKey := "health"; queryFn := fun _ => statsAPI_getHealth [];
     retry := RetryUnset; refetchInterval := Some 10000%Z; enabled := true |}.

Definition handleResetDatabase (confirmed : bool) (s : state) : proc state :=
  if confirmed then
    Await (databaseAPI_reset []) (fun o =>
      match o with
      | Resolved _ =>
          Emit (ToastSuccess "Database reset successfully!")
            (Emit (Refetch "stats") Done)
      | Rejected error =>
          Emit (ToastError "Failed to reset database: "
                  (Some (detail_or_message error))) Done
      end)
  else Done.

(** The events of the page; [StatsFetched] and [HealthFetched] are the
    queries delivering the result of a fetch. *)
Inductive action :=
| ResetDatabase (confirmed : bool)
| StatsFetched (data : jsval)
| HealthFetched (data : jsval).

Definition handle (a : action) (s : state) : proc state :=
  match a with
  | ResetDatabase confirmed => handleResetDatabase confirmed s
  | StatsFetched data => SetState (set_stats data) Done
  | HealthFetched data => SetState (set_health data) Done
  end.

End Dashboard.

(* ===================================================================== *)
(** * Knowledge graph construction page (src/unnamed/part_000) *)
(* ===================================================================== *)

Module KnowledgeGraphConstruction.

(** [contractText] is a string typed by the user or whatever the
    sample-contract response carried. *)
Record state := {
  contractText : jsval;
  extractedData : jsval;
  graphData : jsval;
  statistics : jsval;
  query : jsstring;
  queryResult : jsval;
  loading : bool;
  error : jsval;
  activeTab : jsstring;
}.

Definition setContractText (v : jsval) (s : state) : state :=
  {| contractText := v; extractedData := extractedData s;
     graphData := graphData s; statistics := statistics s; query := query s;
     queryResult := queryResult s; loading := loading s; error := error s;
     activeTab := activeTab s |}.

Definition setExtractedData (v : jsval) (s : state) : state :=
  {| contractText := contractText s; extractedData := v;
     graphData := graphData s; statistics := statistics s; query := query s;
     queryResult := queryResult s; loading := loading s; error := error s;
     activeTab := activeTab s |}.

Definition setGraphData (v : jsval) (s : state) : state :=
  {| contractText := contractText s; extractedData := extractedData s;
     graphData := v; statistics := statistics s; query := query s;
     queryResult := queryResult s; loading := loading s; error := error s;
     activeTab := activeTab s |}.

Definition setStatistics (v : jsval) (s : state) : state :=
  {| contractText := contractText s; extractedData := extractedData s;
     graphData := graphData s; statistics := v; query := query s;
     queryResult := queryResult s; loading := loading s; error := error s;
     activeTab := activeTab s |}.

Definition setQuery (v : jsstring) (s : state) : state :=
  {| contractText := contractText s; extractedData := extractedData s;
     graphData := graphData s; statistics := statistics s; query := v;
     queryResult := queryResult s; loading := loading s; error := error s;
     activeTab := activeTab s |}.

Definition setQueryResult (v : jsval) (s : state) : state :=
  {| contractText := contractText s; extractedData := extractedData s;
     graphData := graphData s; statistics := statistics s; query := query s;
     queryResult := v; loading := loading s; error := error s;
     activeTab := activeTab s |}.

Definition setLoading (v : bool) (s : state) : state :=
  {| contractText := contractText s; extractedData := extractedData s;
     graphData := graphData s; statistics := statistics s; query := query s;
     queryResult := queryResult s; loading := v; error := error s;
     activeTab := activeTab s |}.

Definition setError (v : jsval) (s : state) : state :=
  {| contractText := contractText s; extractedData := extractedData s;
     graphData := graphData s; statistics := statistics s; query := query s;
     queryResult := queryResult s; loading := loading s; error := v;
     activeTab := activeTab s |}.

Definition setActiveTab (v : jsstring) (s : state) : state :=
  {| contractText := contractText s; extractedData := extractedData s;
     graphData := graphData s; statistics := statistics s; query := query s;
     queryResult := queryResult s; loading := loading s; error := error s;
     activeTab := v |}.

Definition initial : state :=
  {| contractText := JStr []; extractedData := JNull; graphData := JNull;
     statistics := JNull; query := []; queryResult := JNull;
     loading := false; error := JNull; activeTab := lit "extract" |}.

(** [setError(err.response?.data?.detail || fallback)] *)
Definition fail_with (fallback : string) (err : jsval) : state -> state :=
  setError (js_or (error_detail err) (JStr (lit fallback))).

(** [finally { setLoading(false) }] *)
Definition finally_ : proc state := SetState (setLoading false) Done.

Definition loadSampleContract : proc state :=
  Await (knowledgeGraphAPI_getSampleContract []) (fun o =>
    match o with
    | Resolved r =>
        match get "sample_contract" (response_data r) with
        | Some v => SetState (setContractText v) Done
        | None => Emit (ConsoleError "Error loading sample contract:" TypeError) Done
        end
    | Rejected err => Emit (ConsoleError "Error loading sample contract:" err) Done
    end).

Definition loadStatistics : proc state :=
  Await (knowledgeGraphAPI_getStatistics []) (fun o =>
    match o with
    | Resolved r => SetState (setStatistics (response_data r)) Done
    | Rejected err => Emit (ConsoleError "Error loading statistics:" err) Done
    end).

Definition loadGraphData : proc state :=
  Await (knowledgeGraphAPI_getGraphData []) (fun o =>
    match o with
    | Resolved r => SetState (setGraphData (response_data r)) Done
    | Rejected err => Emit (ConsoleError "Error loading graph data:" err) Done
    end).

(** [useEffect(() => { loadSampleContract(); loadStatistics(); }, [])] *)
Definition onMount (s : state) : proc state :=
  Spawn loadSampleContract (Spawn loadStatistics Done).

(** A [contractText] that is not a string makes [contractText.trim()]
    throw: the handler stops there. *)
Definition extractContractInfo (s : state) : proc state :=
  match trim_of (contractText s) with
  | None => Done
  | Some t =>
      if is_empty t
      then SetState (setError (JStr (lit "Please enter contract text"))) Done
      else
        SetState (setLoading true)
          (SetState (setError JNull)
            (Await (knowledgeGraphAPI_extract [contractText s]) (fun o =>
               match o with
               | Resolved r =>
                   SetState (setExtractedData (response_data r)) finally_
               | Rejected err =>
                   SetState (fail_with "Error extracting contract information" err)
                     finally_
               end)))
  end.

Definition importToGraph (s : state) : proc state :=
  match trim_of (contractText s) with
  | None => Done
  | Some t =>
      if is_empty t
      then SetState (setError (JStr (lit "Please enter contract text"))) Done
      else
        SetState (setLoading true)
          (SetState (setError JNull)
            (Await (knowledgeGraphAPI_import [contractText s]) (fun o =>
               match o with
               | Resolved r =>
                   match get "extraction_result" (response_data r) with
                   | Some v =>
                       SetState (setExtractedData v)
                         (SetState (setError JNull)
                           (seq loadStatistics (seq loadGraphData finally_)))
                   | None =>
                       SetState (fail_with "Error importing contract to graph" TypeError)
                         finally_
                   end
               | Rejected err =>
                   SetState (fail_with "Error importing contract to graph" err)
                     finally_
               end)))
  end.

Definition createConstraints (s : state) : proc state :=
  SetState (setLoading true)
    (Await (knowledgeGraphAPI_createConstraints []) (fun o =>
       match o with
       | Resolved _ => SetState (setError JNull) finally_
       | Rejected err =>
           SetState (fail_with "Error creating constraints" err) finally_
       end)).

(** [confirmed] is what [window.confirm] returned. *)
Definition clearData (confirmed : bool) (s : state) : proc state :=
  if negb confirmed then Done
  else
    SetState (setLoading true)
      (Await (knowledgeGraphAPI_clear []) (fun o =>
         match o with
         | Resolved _ =>
             SetState (setExtractedData JNull)
               (SetState (setGraphData JNull)
                 (seq loadStatistics (SetState (setError JNull) finally_)))
         | Rejected err =>
             SetState (fail_with "Error clearing data" err) finally_
         end)).

Definition queryContracts (s : state) : proc state :=
  if is_empty (trim (query s))
  then SetState (setError (JStr (lit "Please enter a question"))) Done
  else
    SetState (setLoading true)
      (SetState (setError JNull)
        (Await (knowledgeGraphAPI_query [JStr (query s)]) (fun o =>
           match o with
           | Resolved r =>
               SetState (setQueryResult (response_data r)) finally_
           | Rejected err =>
               SetState (fail_with "Error querying contracts" err) finally_
           end))).

(** The events of the page. *)
Inductive action :=
| Mount
| SelectTab (v : jsstring)
| ChangeContractText (v : jsstring)
| LoadSample
| Extract
| Import
| CreateConstraints
| ViewGraphData
| ClearAllData (confirmed : bool)
| ChangeQuery (v : jsstring)
| Query.

Definition handle (a : action) (s : state) : proc state :=
  match a with
  | Mount => onMount s
  | SelectTab v => SetState (setActiveTab v) Done
  | ChangeContractText v => SetState (setContractText (JStr v)) Done
  | LoadSample => loadSampleContract
  | Extract => extractContractInfo s
  | Import => importToGraph s
  | CreateConstraints => createConstraints s
  | ViewGraphData => loadGraphData
  | ClearAllData confirmed => clearData confirmed s
  | ChangeQuery v => SetState (setQuery v) Done
  | Query => queryContracts s
  end.

End KnowledgeGraphConstruction.

(* ===================================================================== *)
(** * Text2Cypher page (src/unnamed/part_003) *)
(* ===================================================================== *)

Module Text2Cypher.

(** [cypherQuery] and [queryResults] hold what the last response carried. *)
Record state := {
  question : jsstring;
  terminology : jsstring;
  examples : jsstring;
  cypherQuery : jsval;
  queryResults : jsval;
  isGenerating : bool;
  isExecuting : bool;
  loadMoviesMutation : observer;
  resetDatabaseMutation : observer;
}.

Definition setQuestion (v : jsstring) (s : state) : state :=
  {| question := v; terminology := terminology s; examples := examples s;
     cypherQuery := cypherQuery s; queryResults := queryResults s;
     isGenerating := isGenerating s; isExecuting := isExecuting s;
     loadMoviesMutation := loadMoviesMutation s;
     resetDatabaseMutation := resetDatabaseMutation s |}.

Definition setTerminology (v : jsstring) (s : state) : state :=
  {| question := question s; terminology := v; examples := examples s;
     cypherQuery := cypherQuery s; queryResults := queryResults s;
     isGenerating := isGenerating s; isExecuting := isExecuting s;
     loadMoviesMutation := loadMoviesMutation s;
     resetDatabaseMutation := resetDatabaseMutation s |}.

Definition setExamples (v : jsstring) (s : state) : state :=
  {| question := question s; terminology := terminology s; examples := v;
     cypherQuery := cypherQuery s; queryResults := queryResults s;
     isGenerating := isGenerating s; isExecuting := isExecuting s;
     loadMoviesMutation := loadMoviesMutation s;
     resetDatabaseMutation := resetDatabaseMutation s |}.

Definition setCypherQuery (v : jsval) (s : state) : state :=
  {| question := question s; terminology := terminology s; examples := examples s;
     cypherQuery := v; queryResults := queryResults s;
     isGenerating := isGenerating s; isExecuting := isExecuting s;
     loadMoviesMutation := loadMoviesMutation s;
     resetDatabaseMutation := resetDatabaseMutation s |}.

Definition setQueryResults (v : jsval) (s : state) : state :=
  {| question := question s; terminology := terminology s; examples := examples s;
     cypherQuery := cypherQuery s; queryResults := v;
     isGenerating := isGenerating s; isExecuting := isExecuting s;
     loadMoviesMutation := loadMoviesMutation s;
     resetDatabaseMutation := resetDatabaseMutation s |}.

Definition setIsGenerating (v : bool) (s : state) : state :=
  {| question := question s; terminology := terminology s; examples := examples s;
     cypherQuery := cypherQuery s; queryResults := queryResults s;
     isGenerating := v; isExecuting := isExecuting s;
     loadMoviesMutation := loadMoviesMutation s;
     resetDatabaseMutation := resetDatabaseMutation s |}.

Definition setIsExecuting (v : bool) (s : state) : state :=
  {| question := question s; terminology := terminology s; examples := examples s;
     cypherQuery := cypherQuery s; queryResults := queryResults s;
     isGenerating := isGenerating s; isExecuting := v;
     loadMoviesMutation := loadMoviesMutation s;
     resetDatabaseMutation := resetDatabaseMutation s |}.

Definition set_loadMoviesMutation (o : observer) (s : state) : state :=
  {| question := question s; terminology := terminology s; examples := examples s;
     cypherQuery := cypherQuery s; queryResults := queryResults s;
     isGenerating := isGenerating s; isExecuting := isExecuting s;
     loadMoviesMutation := o;
     resetDatabaseMutation := resetDatabaseMutation s |}.

Definition set_resetDatabaseMutation (o : observer) (s : state) : state :=
  {| question := question s; terminology := terminology s; examples := examples s;
     cypherQuery := cypherQuery s; queryResults := queryResults s;
     isGenerating := isGenerating s; isExecuting := isExecuting s;
     loadMoviesMutation := loadMoviesMutation s;
     resetDatabaseMutation := o |}.

Definition initial : state :=
  {| question := []; terminology := []; examples := [];
     cypherQuery := JStr []; queryResults := JNull;
     isGenerating := false; isExecuting := false;
     loadMoviesMutation := idle; resetDatabaseMutation := idle |}.

(** [useQuery('text2cypher-schema', () => text2cypherAPI.getSchema(), { retry: false, onError })] *)
Definition schemaQuery : ReactQuery.query :=
  {| queryKey := "text2cypher-schema";
     queryFn := fun _ => text2cypherAPI_getSchema [];
     retry := RetryFalse; refetchInterval := None; enabled := true |}.

Definition loadMovies_onSuccess (r : response) (variables : jsval) : option (proc state) :=
  Some (Emit (ToastSuccess "Movies dataset loaded successfully!")
         (Emit (Refetch "text2cypher-schema")
           (Emit (InvalidateQueries "stats") Done))).

Definition loadMovies_onError (error variables : jsval) : proc state :=
  Emit (ToastError "Failed to load movies dataset: "
          (Some (detail_or_message error))) Done.

Definition reset_onSuccess (r : response) (variables : jsval) : option (proc state) :=
  Some (Emit (ToastSuccess "Database reset successfully!")
         (Emit (Refetch "text2cypher-schema")
           (Emit (InvalidateQueries "stats")
             (SetState (setCypherQuery (JStr []))
               (SetState (setQueryResults JNull) Done))))).

Definition reset_onError (error variables : jsval) : proc state :=
  Emit (ToastError "Failed to reset database: "
          (Some (detail_or_message error))) Done.

Definition loadMovies_mutate : jsval -> proc state :=
  ReactQuery.mutate loadMoviesMutation set_loadMoviesMutation
    (fun _ => text2cypherAPI_loadMoviesDataset [])
    loadMovies_onSuccess loadMovies_onError Done.

Definition reset_mutate : jsval -> proc state :=
  ReactQuery.mutate resetDatabaseMutation set_resetDatabaseMutation
    (fun _ => databaseAPI_reset [])
    reset_onSuccess reset_onError Done.

(** The call both handlers make:
    [text2cypherAPI.query(question, terminology, examples)] *)
Definition query_request (s : state) : request :=
  text2cypherAPI_query
    [JStr (question s); JStr (terminology s); JStr (examples s)].

Definition handleGenerateCypher (s : state) : proc state :=
  if is_empty (trim (question s))
  then Emit (ToastError "Please enter a question" None) Done
  else
    SetState (setIsGenerating true)
      (Await (query_request s) (fun o =>
         match o with
         | Resolved r =>
             match get "cypher_query" (response_data r),
                   get "results" (response_data r) with
             | Some cypher_query, Some results =>
                 SetState (setCypherQuery cypher_query)
                   (SetState (setQueryResults results)
                     (Emit (ToastSuccess "Cypher query generated successfully!")
                       (SetState (setIsGenerating false) Done)))
             | _, _ =>
                 Emit (ToastError "Failed to generate Cypher query: "
                         (Some (detail_or_message TypeError)))
                   (SetState (setIsGenerating false) Done)
             end
         | Rejected error =>
             Emit (ToastError "Failed to generate Cypher query: "
                     (Some (detail_or_message error)))
               (SetState (setIsGenerating false) Done)
         end)).

(** A [cypherQuery] that is not a string makes [cypherQuery.trim()] throw:
    the handler stops there. *)
Definition handleExecuteQuery (s : state) : proc state :=
  match trim_of (cypherQuery s) with
  | None => Done
  | Some t =>
      if is_empty t
      then Emit (ToastError "Please generate a Cypher query first" None) Done
      else
        SetState (setIsExecuting true)
          (Await (query_request s) (fun o =>
             match o with
             | Resolved r =>
                 match get "results" (response_data r) with
                 | Some results =>
                     SetState (setQueryResults results)
                       (Emit (ToastSuccess "Query executed successfully!")
                         (SetState (setIsExecuting false) Done))
                 | None =>
                     Emit (ToastError "Failed to execute query: "
                             (Some (detail_or_message TypeError)))
                       (SetState (setIsExecuting false) Done)
                 end
             | Rejected error =>
                 Emit (ToastError "Failed to execute query: "
                         (Some (detail_or_message error)))
                   (SetState (setIsExecuting false) Done)
             end))
  end.

(** [confirmed] is what [window.confirm] returned. *)
Definition handleLoadMoviesDataset (confirmed : bool) (s : state) : proc state :=
  if confirmed then Spawn (loadMovies_mutate JUndefined) Done else Done.

Definition handleResetDatabase (confirmed : bool) (s : state) : proc state :=
  if confirmed then Spawn (reset_mutate JUndefined) Done else Done.

(** The events of the page. *)
Inductive action :=
| ChangeQuestion (v : jsstring)
| ChangeTerminology (v : jsstring)
| ChangeExamples (v : jsstring)
| Generate
| Execute
| RefreshSchema
| LoadMoviesDataset (confirmed : bool)
| ResetDatabase (confirmed : bool).

Definition handle (a : action) (s : state) : proc state :=
  match a with
  | ChangeQuestion v => SetState (setQuestion v) Done
  | ChangeTerminology v => SetState (setTerminology v) Done
  | ChangeExamples v => SetState (setExamples v) Done
  | Generate => handleGenerateCypher s
  | Execute => handleExecuteQuery s
  | RefreshSchema => Emit (Refetch "text2cypher-schema") Done
  | LoadMoviesDataset confirmed => handleLoadMoviesDataset confirmed s
  | ResetDatabase confirmed => handleResetDatabase confirmed s
  end.

End Text2Cypher.

(* ===================================================================== *)
(** * The pages together *)
(* ===================================================================== *)

Module Pages.

Inductive page :=
| Dashboard
| Statistics
| PDFProcessor
| RAGChat
| Text2Cypher
| AgenticRAG
| EntityExtraction
| ContractExtraction
| GraphRAG
| KnowledgeGraphConstruction.

Definition page_eq_dec (p q : page) : {p = q} + {p <> q}.
Proof. decide equality. Defined.

Definition state (p : page) : Type :=
  match p with
  | Dashboard => Dashboard.state
  | Statistics => Statistics.state
  | PDFProcessor => PDFProcessor.state
  | RAGChat => RAGChat.state
  | Text2Cypher => Text2Cypher.state
  | AgenticRAG => AgenticRAG.state
  | EntityExtraction => EntityExtraction.state
  | ContractExtraction => ContractExtraction.state
  | GraphRAG => GraphRAG.state
  | KnowledgeGraphConstruction => KnowledgeGraphConstruction.state
  end.

Definition action (p : page) : Type :=
  match p with
  | Dashboard => Dashboard.action
  | Statistics => Statistics.action
  | PDFProcessor => PDFProcessor.action
  | RAGChat => RAGChat.action
  | Text2Cypher => Text2Cypher.action
  | AgenticRAG => AgenticRAG.action
  | EntityExtraction => EntityExtraction.action
  | ContractExtraction => ContractExtraction.action
  | GraphRAG => GraphRAG.action
  | KnowledgeGraphConstruction => KnowledgeGraphConstruction.action
  end.

Definition handle (p : page) : action p -> state p -> proc (state p) :=
  match p with
  | Dashboard => Dashboard.handle
  | Statistics => Statistics.handle
  | PDFProcessor => PDFProcessor.handle
  | RAGChat => RAGChat.handle
  | Text2Cypher => Text2Cypher.handle
  | AgenticRAG => AgenticRAG.handle
  | EntityExtraction => EntityExtraction.handle
  | ContractExtraction => ContractExtraction.handle
  | GraphRAG => GraphRAG.handle
  | KnowledgeGraphConstruction => KnowledgeGraphConstruction.handle
  end.

(** What happens on a page: one of its events (the user acts, a query
    delivers), or a request settles. *)
Inductive happening (p : page) :=
| Act (now : Z) (a : action p)
| Settled (now : Z) (i : nat) (o : outcome).

Arguments Act {p} now a.
Arguments Settled {p} now i o.

Definition event_of {p} (h : happening p) : event (state p) :=
  match h with
  | Act now a => Invoke now (handle p a)
  | Settled now i o => Settle now i o
  end.

Definition play {p} (hs : list (happening p)) (w : world (state p)) : world (state p) :=
  run (map event_of hs) w.

End Pages.

(* ===================================================================== *)
(** * Navigation shell (components/Layout.js) *)
(* ===================================================================== *)

Module Layout.

(** An entry of the sidebar (its icon is rendering). *)
Record item := {
  name : jsstring;
  href : jsstring;
}.

Definition navigation : list item :=
  [ {| name := lit "Dashboard"; href := lit "/" |};
    {| name := lit "PDF Processor"; href := lit "/pdf-processor" |};
    {| name := lit "RAG Chat"; href := lit "/rag-chat" |};
    {| name := lit "Text2Cypher"; href := lit "/text2cypher" |};
    {| name := lit "Agentic RAG"; href := lit "/agentic-rag" |};
    {| name := lit "Entity Extraction"; href := lit "/entity-extraction" |};
    {| name := lit "Contract Extraction"; href := lit "/contract-extraction" |};
    {| name := lit "Graph RAG"; href := lit "/graph-rag" |};
    {| name := lit "Knowledge Graph Construction";
       href := lit "/knowledge-graph-construction" |};
    {| name := lit "Statistics"; href := lit "/statistics" |} ].

(** [const isActive = location.pathname === item.href] *)
Definition isActive (pathname : jsstring) (i : item) : bool :=
  str_eqb pathname (href i).

(** The entries the sidebar highlights. *)
Definition highlighted (pathname : jsstring) : list item :=
  filter (isActive pathname) navigation.

(** [navigation.find(item => item.href === location.pathname)?.name
     || 'Advanced RAG System'] *)
Definition title (pathname : jsstring) : jsval :=
  js_or
    match find (fun i => str_eqb (href i) pathname) navigation with
    | Some i => JStr (name i)
    | None => JUndefined
    end
    (JStr (lit "Advanced RAG System")).

End Layout.

(* ===================================================================== *)
(** * Chart data of the statistics page (pages/Statistics.js, lines 29-42) *)
(* ===================================================================== *)

Module Charts.

Definition COLORS : list jsstring :=
  [lit "#3B82F6"; lit "#10B981"; lit "#F59E0B"; lit "#EF4444";
   lit "#8B5CF6"; lit "#06B6D4"].

(** A point of a chart: [{ name, value }]. *)
Record point := {
  name : jsstring;
  value : jsval;
}.

(** [stats?.data?.node_counts] *)
Definition node_counts (stats : jsval) : jsval :=
  get_opt "node_counts" (get_opt "data" stats).

(** [stats?.data?.relationship_counts] *)
Definition relationship_counts (stats : jsval) : jsval :=
  get_opt "relationship_counts" (get_opt "data" stats).

(** [Object.entries(counts).map(([key, value]) => ({ name: f(key), value }))]
    under the guard [counts ? ... : []]. *)
Definition points (f : jsstring -> jsstring) (counts : jsval) : list point :=
  if truthy counts
  then match entries counts with
       | Some es => map (fun kv => {| name := f (lit (fst kv)); value := snd kv |}) es
       | None => []
       end
  else [].

(** [name: key.replace('__', '')] *)
Definition nodeData (stats : jsval) : list point :=
  points (replace_first (lit "__") []) (node_counts stats).

(** [name: key] *)
Definition relationshipData (stats : jsval) : list point :=
  points (fun key => key) (relationship_counts stats).

(** [COLORS[index % COLORS.length]] *)
Definition fill (index : nat) : option jsstring :=
  nth_error COLORS (index mod List.length COLORS).

End Charts.

(* ===================================================================== *)
(** * Quick statistics of the dashboard (src/unnamed/part_002, lines 96-122) *)
(* ===================================================================== *)

Module QuickStats.

(** A card: [{ name, value, color }] (its icon is rendering). *)
Record card := {
  name : jsstring;
  value : jsval;
  color : jsstring;
}.

(** [health?.data?.status === 'healthy'] *)
Definition healthy (health : jsval) : bool :=
  is_str (get_opt "status" (get_opt "data" health)) (lit "healthy").

Definition quickStats (stats health : jsval) : list card :=
  [ {| name := lit "Total Documents";
       value := js_or (get_opt "Document"
                         (get_opt "node_counts" (get_opt "data" stats)))
                      (JNum 0);
       color := lit "text-blue-600" |};
    {| name := lit "Entities";
       value := js_or (get_opt "__Entity__"
                         (get_opt "node_counts" (get_opt "data" stats)))
                      (JNum 0);
       color := lit "text-green-600" |};
    {| name := lit "Relationships";
       value := js_or (get_opt "total_relationships" (get_opt "data" stats))
                      (JNum 0);
       color := lit "text-purple-600" |};
    {| name := lit "System Status";
       value := if healthy health then JStr (lit "Online") else JStr (lit "Offline");
       color := if healthy health then lit "text-green-600" else lit "text-red-600" |} ].

(** The badge of the health card: its class and its text,
    [health?.data?.status || 'Unknown']. *)
Definition badge (health : jsval) : jsstring * jsval :=
  (if healthy health then lit "badge-success" else lit "badge-error",
   js_or (get_opt "status" (get_opt "data" health)) (JStr (lit "Unknown"))).

End QuickStats.

(* ===================================================================== *)
(** * Disciplines of handlers *)
(* ===================================================================== *)

Module Discipline.

(** [Q] holds of every request a task can come to await, together with the
    continuation that resumes it. *)
Fixpoint all_awaits {S} (Q : request -> (outcome -> proc S) -> Prop)
    (p : proc S) : Prop :=
  match p with
  | Done => True
  | SetState _ k => all_awaits Q k
  | GetState k => forall s, all_awaits Q (k s)
  | Emit _ k => all_awaits Q k
  | Now k => forall t, all_awaits Q (k t)
  | Spawn a k => all_awaits Q a /\ all_awaits Q k
  | Await r k => Q r k /\ forall o, all_awaits Q (k o)
  end.

(** Every state update a task makes before it next suspends relates the
    state before to the state after by [R]. *)
Fixpoint sync_keeps {S} (R : S -> S -> Prop) (p : proc S) : Prop :=
  match p with
  | Done => True
  | SetState f k => (forall s, R s (f s)) /\ sync_keeps R k
  | GetState k => forall s, sync_keeps R (k s)
  | Emit _ k => sync_keeps R k
  | Now k => forall t, sync_keeps R (k t)
  | Spawn a k => sync_keeps R a /\ sync_keeps R k
  | Await _ _ => True
  end.

(** The task ends, or spawns tasks that end, without sending a request. *)
Fixpoint sync_quiet {S} (p : proc S) : Prop :=
  match p with
  | Done => True
  | SetState _ k => sync_quiet k
  | GetState k => forall s, sync_quiet (k s)
  | Emit _ k => sync_quiet k
  | Now k => forall t, sync_quiet (k t)
  | Spawn a k => sync_quiet a /\ sync_quiet k
  | Await _ _ => False
  end.

(** Every entry the task adds to the log before it next suspends
    satisfies [P]. *)
Fixpoint sync_logs {S} (P : entry -> Prop) (p : proc S) : Prop :=
  match p with
  | Done => True
  | SetState _ k => sync_logs P k
  | GetState k => forall s, sync_logs P (k s)
  | Emit e k => P (Did e) /\ sync_logs P k
  | Now k => forall t, sync_logs P (k t)
  | Spawn a k => sync_logs P a /\ sync_logs P k
  | Await r _ => P (Sent r)
  end.

(** Every request the task awaits satisfies [P]. *)
Definition sends_only {S} (P : request -> Prop) : proc S -> Prop :=
  all_awaits (fun r _ => P r).

(** Once a request has been rejected, the task that awaited it never
    sends a request to the same path again. *)
Definition no_reissue {S} : proc S -> Prop :=
  all_awaits (fun r k =>
    forall error, sends_only (fun r' => url r' <> url r) (k (Rejected error))).

(** A rejected request resumes its task with updates that all respect [R]. *)
Definition rejection_keeps {S} (R : S -> S -> Prop) : proc S -> Prop :=
  all_awaits (fun _ k => forall error, sync_keeps R (k (Rejected error))).

(** A rejected request resumes its task with log entries that all
    satisfy [P]. *)
Definition rejection_logs {S} (P : entry -> Prop) : proc S -> Prop :=
  all_awaits (fun _ k => forall error, sync_logs P (k (Rejected error))).

(** The invariant of the requests in flight. *)
Definition in_flight {S} (Q : request -> (outcome -> proc S) -> Prop)
    (w : world S) : Prop :=
  Forall (fun rk => Q (fst rk) (snd rk) /\ forall o, all_awaits Q (snd rk o))
    (pending w).

(** [P] holds of every state update a task can come to make, before and
    after it suspends. *)
Fixpoint every_update {S} (P : (S -> S) -> Prop) (p : proc S) : Prop :=
  match p with
  | Done => True
  | SetState f k => P f /\ every_update P k
  | GetState k => forall s, every_update P (k s)
  | Emit _ k => every_update P k
  | Now k => forall t, every_update P (k t)
  | Spawn a k => every_update P a /\ every_update P k
  | Await _ k => forall o, every_update P (k o)
  end.

(** Every update keeps the invariant [I]. *)
Definition maintains {S} (I : S -> Prop) : proc S -> Prop :=
  every_update (fun f => forall s, I s -> I (f s)).

(** The requests in flight will resume with updates that satisfy [P]. *)
Definition resumes_with {S} (P : (S -> S) -> Prop) (w : world S) : Prop :=
  Forall (fun rk => forall o, every_update P (snd rk o)) (pending w).

(** Whatever the requests in flight resume with sends only requests that
    satisfy [P]. *)
Definition resumes_sending {S} (P : request -> Prop) (w : world S) : Prop :=
  Forall (fun rk => forall o, sends_only P (snd rk o)) (pending w).

(** After its first requests, the task sends only requests that satisfy [P]. *)
Definition then_sends_only {S} (P : request -> Prop) : proc S -> Prop :=
  all_awaits (fun _ k => forall o, sends_only P (k o)).

End Discipline.
Import Discipline.

(* ===================================================================== *)
(** * Result panels, forms and destructive actions *)
(* ===================================================================== *)

Module Panels.
Import Pages.

(** The result payload a page displays. *)
Definition result (p : page) : state p -> list jsval :=
  match p with
  | Dashboard => fun s => [Dashboard.stats s; Dashboard.health s]
  | Statistics => fun s => [Statistics.stats s]
  | PDFProcessor => fun s => [PDFProcessor.processingResults s]
  | RAGChat => fun s => RAGChat.messages s
  | Text2Cypher => fun s =>
      [Text2Cypher.cypherQuery s; Text2Cypher.queryResults s]
  | AgenticRAG => fun s => [AgenticRAG.result s]
  | EntityExtraction => fun s => [EntityExtraction.result s]
  | ContractExtraction => fun s => [ContractExtraction.result s]
  | GraphRAG => fun s => [GraphRAG.result s]
  | KnowledgeGraphConstruction => fun s =>
      [KnowledgeGraphConstruction.extractedData s;
       KnowledgeGraphConstruction.graphData s;
       KnowledgeGraphConstruction.statistics s;
       KnowledgeGraphConstruction.queryResult s]
  end.

(** The payload is the same. *)
Definition unchanged (p : page) (s s' : state p) : Prop :=
  result p s' = result p s.

(** Nothing displayed before is removed or replaced. *)
Definition extended (p : page) (s s' : state p) : Prop :=
  exists more, result p s' = result p s ++ more.

(** The payload is kept: the chat may append to its messages, every other
    page keeps the payload as it is. *)
Definition kept (p : page) : state p -> state p -> Prop :=
  match p with
  | RAGChat => extended RAGChat
  | p' => unchanged p'
  end.

(** The log entries that make a query fetch again: a payload held by a
    query changes through them. *)
Definition refreshes (e : entry) : bool :=
  match e with
  | Did (Refetch _) | Did (InvalidateQueries _) => true
  | _ => false
  end.

(** What a rejected request leaves of the payload, page by page: the
    Agentic RAG page clears its result, every other page keeps its
    payload. *)
Definition on_failure (p : page) : state p -> state p -> Prop :=
  match p with
  | AgenticRAG => fun s s' => AgenticRAG.result s' = JNull
  | p' => kept p'
  end.

(** The forms whose request carries a text the user typed: every handler
    of the pages that sends such a text. *)
Inductive form :=
| RAGChatForm
| GraphRAGForm
| EntityExtractionForm
| AgenticRAGForm
| ContractExtractionForm
| PdfUrlForm
| Text2CypherGenerate
| Text2CypherExecute
| KnowledgeGraphExtract
| KnowledgeGraphImport
| KnowledgeGraphQuery.

Definition page_of (f : form) : page :=
  match f with
  | RAGChatForm => RAGChat
  | GraphRAGForm => GraphRAG
  | EntityExtractionForm => EntityExtraction
  | AgenticRAGForm => AgenticRAG
  | ContractExtractionForm => ContractExtraction
  | PdfUrlForm => PDFProcessor
  | Text2CypherGenerate | Text2CypherExecute => Text2Cypher
  | KnowledgeGraphExtract | KnowledgeGraphImport | KnowledgeGraphQuery =>
      KnowledgeGraphConstruction
  end.

Definition form_eq_dec (f g : form) : {f = g} + {f <> g}.
Proof. decide equality. Defined.

(** The submit handler of the form. *)
Definition submit (f : form) : action (page_of f) :=
  match f with
  | RAGChatForm => RAGChat.Submit
  | GraphRAGForm => GraphRAG.Submit
  | EntityExtractionForm => EntityExtraction.Submit
  | AgenticRAGForm => AgenticRAG.Submit
  | ContractExtractionForm => ContractExtraction.Submit
  | PdfUrlForm => PDFProcessor.UrlSubmit
  | Text2CypherGenerate => Text2Cypher.Generate
  | Text2CypherExecute => Text2Cypher.Execute
  | KnowledgeGraphExtract => KnowledgeGraphConstruction.Extract
  | KnowledgeGraphImport => KnowledgeGraphConstruction.Import
  | KnowledgeGraphQuery => KnowledgeGraphConstruction.Query
  end.

(** The text the request of the form carries. *)
Definition input (f : form) : state (page_of f) -> jsval :=
  match f with
  | RAGChatForm => fun s => JStr (RAGChat.input s)
  | GraphRAGForm => fun s => JStr (GraphRAG.question s)
  | EntityExtractionForm => fun s => JStr (EntityExtraction.text s)
  | AgenticRAGForm => fun s => JStr (AgenticRAG.question s)
  | ContractExtractionForm => fun s => JStr (ContractExtraction.contractText s)
  | PdfUrlForm => fun s => JStr (PDFProcessor.url s)
  | Text2CypherGenerate | Text2CypherExecute => fun s =>
      JStr (Text2Cypher.question s)
  | KnowledgeGraphExtract | KnowledgeGraphImport => fun s =>
      KnowledgeGraphConstruction.contractText s
  | KnowledgeGraphQuery => fun s => JStr (KnowledgeGraphConstruction.query s)
  end.

(** Typing into the form's text field. *)
Definition type_in (f : form) (v : jsstring) : action (page_of f) :=
  match f with
  | RAGChatForm => RAGChat.ChangeInput v
  | GraphRAGForm => GraphRAG.ChangeQuestion v
  | EntityExtractionForm => EntityExtraction.ChangeText v
  | AgenticRAGForm => AgenticRAG.ChangeQuestion v
  | ContractExtractionForm => ContractExtraction.ChangeContractText v
  | PdfUrlForm => PDFProcessor.ChangeUrl v
  | Text2CypherGenerate | Text2CypherExecute => Text2Cypher.ChangeQuestion v
  | KnowledgeGraphExtract | KnowledgeGraphImport =>
      KnowledgeGraphConstruction.ChangeContractText v
  | KnowledgeGraphQuery => KnowledgeGraphConstruction.ChangeQuery v
  end.

(** What the form's result panel displays. *)
Definition display (f : form) : state (page_of f) -> jsval :=
  match f with
  | RAGChatForm => fun s =>
      match RAGChat.last_message s with
      | Some m => get_opt "content" m
      | None => JUndefined
      end
  | GraphRAGForm => GraphRAG.result
  | EntityExtractionForm => EntityExtraction.result
  | AgenticRAGForm => AgenticRAG.result
  | ContractExtractionForm => ContractExtraction.result
  | PdfUrlForm => PDFProcessor.processingResults
  | Text2CypherGenerate => fun s =>
      JArr [Text2Cypher.cypherQuery s; Text2Cypher.queryResults s]
  | Text2CypherExecute => Text2Cypher.queryResults
  | KnowledgeGraphExtract | KnowledgeGraphImport =>
      KnowledgeGraphConstruction.extractedData
  | KnowledgeGraphQuery => KnowledgeGraphConstruction.queryResult
  end.

(** What the form displays of a response. *)
Definition shown (f : form) (r : response) : jsval :=
  match f with
  | RAGChatForm => get_opt "answer" (response_data r)
  | AgenticRAGForm => js_or (response_data r) (JObj r)
  | Text2CypherGenerate =>
      JArr [get_opt "cypher_query" (response_data r);
            get_opt "results" (response_data r)]
  | Text2CypherExecute => get_opt "results" (response_data r)
  | KnowledgeGraphImport => get_opt "extraction_result" (response_data r)
  | _ => response_data r
  end.

(** The response has a body whose fields can be read. *)
Definition has_body (r : response) : bool :=
  match response_data r with
  | JUndefined | JNull => false
  | _ => true
  end.

(** The responses the form can display: the forms that read a field of
    the body need one. *)
Definition displayable (f : form) (r : response) : bool :=
  match f with
  | RAGChatForm | Text2CypherGenerate | Text2CypherExecute
  | KnowledgeGraphImport => has_body r
  | _ => true
  end.

(** A text a handler takes: a string that is not blank. *)
Definition filled (v : jsval) : bool :=
  match v with
  | JStr t => negb (blank t)
  | _ => false
  end.

(** When the form is ready to be submitted: its text is not blank; the
    URL form also wants a text that ends in ".pdf", the chat no query in
    flight; "Execute Query" wants a generated query and does not look at
    the text. *)
Definition ready (f : form) : state (page_of f) -> bool :=
  match f with
  | RAGChatForm => fun s =>
      negb (blank (RAGChat.input s))
      && negb (isLoading (RAGChat.queryMutation s))
  | PdfUrlForm => fun s =>
      negb (blank (PDFProcessor.url s)) && ends_with_pdf (PDFProcessor.url s)
  | Text2CypherExecute => fun s => filled (Text2Cypher.cypherQuery s)
  | f' => fun s => filled (input f' s)
  end.

(** A continuation that, resumed with a response the form can display,
    leaves that response in the result panel. *)
Definition shows (f : form) (k : outcome -> proc (state (page_of f))) : Prop :=
  forall r now w, displayable f r = true ->
    display f (Async.state (run_sync now (k (Resolved r)) w)) = shown f r.

(** The destructive actions. *)
Inductive destructive :=
| DashboardReset
| StatisticsReset
| Text2CypherReset
| KnowledgeGraphClear.

Definition page_of_destructive (d : destructive) : page :=
  match d with
  | DashboardReset => Dashboard
  | StatisticsReset => Statistics
  | Text2CypherReset => Text2Cypher
  | KnowledgeGraphClear => KnowledgeGraphConstruction
  end.

(** The action, given what the confirmation dialog returned. *)
Definition destroy (d : destructive) (confirmed : bool)
    : action (page_of_destructive d) :=
  match d with
  | DashboardReset => Dashboard.ResetDatabase confirmed
  | StatisticsReset => Statistics.ResetDatabase confirmed
  | Text2CypherReset => Text2Cypher.ResetDatabase confirmed
  | KnowledgeGraphClear => KnowledgeGraphConstruction.ClearAllData confirmed
  end.

(** The request that destroys the data. *)
Definition underlying (d : destructive) : request :=
  match d with
  | KnowledgeGraphClear => knowledgeGraphAPI_clear []
  | _ => databaseAPI_reset []
  end.

(** The queries of the pages. *)
Definition queries : list query :=
  [ Dashboard.statsQuery; Dashboard.healthQuery; Statistics.statsQuery;
    Text2Cypher.schemaQuery; AgenticRAG.toolsQuery;
    EntityExtraction.graphQuery; ContractExtraction.contractsQuery ].

End Panels.

(* ===================================================================== *)
(** * Letting requests settle *)
(* ===================================================================== *)

Module Drive.

(** The requests in flight settle one after the other, oldest first, the
    way the list says. *)
Fixpoint drain {S} (now : Z) (outs : list outcome) (w : world S) : world S :=
  match outs with
  | [] => w
  | o :: outs' => drain now outs' (step (Settle now 0 o) w)
  end.

(** The requests to the two destructive endpoints. *)
Definition is_destructive (r : request) : bool :=
  String.eqb (url r) "/api/database/reset"
  || String.eqb (url r) "/api/knowledge-graph/clear".

Definition destructive_sent (l : list entry) : nat :=
  List.length (filter is_destructive (requests l)).

(** The happenings that are a destructive action the user confirmed. *)
Definition is_confirmed_destruction {p} (h : Pages.happening p) : bool :=
  match h with
  | Pages.Act _ a =>
      match p return Pages.action p -> bool with
      | Pages.Dashboard => fun a =>
          match a with Dashboard.ResetDatabase c => c | _ => false end
      | Pages.Statistics => fun a =>
          match a with Statistics.ResetDatabase c => c | _ => false end
      | Pages.Text2Cypher => fun a =>
          match a with Text2Cypher.ResetDatabase c => c | _ => false end
      | Pages.KnowledgeGraphConstruction => fun a =>
          match a with
          | KnowledgeGraphConstruction.ClearAllData c => c
          | _ => false
          end
      | _ => fun _ => false
      end a
  | Pages.Settled _ _ _ => false
  end.

End Drive.

(* ===================================================================== *)
(** * The endpoint table of the specification *)
(* ===================================================================== *)

Module Spec.

(** The table of section 6, row by row: the methods a row lists and the
    path.  A row that lists two paths is one row per path here; the
    knowledge-graph row lists both methods for each of its eight paths. *)
Definition endpoint_table : list (list http_method * string) :=
  [ ([POST], "/api/pdf/upload");
    ([POST], "/api/pdf/download");
    ([POST], "/api/rag/query");
    ([POST], "/api/rag/stepback");
    ([POST], "/api/text2cypher/query");
    ([GET], "/api/text2cypher/schema");
    ([POST], "/api/text2cypher/load-movies");
    ([POST], "/api/agentic-rag/query");
    ([GET], "/api/agentic-rag/tools");
    ([POST], "/api/entities/extract");
    ([GET], "/api/entities/graph");
    ([POST], "/api/contracts/extract");
    ([GET], "/api/contracts/list");
    ([POST], "/api/graph-rag/global");
    ([POST], "/api/graph-rag/local");
    ([POST], "/api/graph-rag/communities");
    ([GET], "/api/stats");
    ([GET], "/health");
    ([POST; GET], "/api/knowledge-graph/extract");
    ([POST; GET], "/api/knowledge-graph/import");
    ([POST; GET], "/api/knowledge-graph/data");
    ([POST; GET], "/api/knowledge-graph/query");
    ([POST; GET], "/api/knowledge-graph/constraints");
    ([POST; GET], "/api/knowledge-graph/statistics");
    ([POST; GET], "/api/knowledge-graph/clear");
    ([POST; GET], "/api/knowledge-graph/sample-contract");
    ([POST], "/api/database/reset") ].

(** The row that describes each exported function. *)
Definition row (o : operation) : nat :=
  match o with
  | PdfUploadPDF => 0 | PdfDownloadPDF => 1
  | RagQuery => 2 | RagStepbackQuery => 3
  | T2cQuery => 4 | T2cGetSchema => 5 | T2cLoadMoviesDataset => 6
  | AgenticQuery => 7 | AgenticGetTools => 8
  | EntityExtract => 9 | EntityGetGraph => 10
  | ContractExtract => 11 | ContractList => 12
  | GraphGlobalQuery => 13 | GraphLocalQuery => 14
  | GraphCalculateCommunities => 15
  | StatsGetStats => 16 | StatsGetHealth => 17
  | KgExtract => 18 | KgImport => 19 | KgGetGraphData => 20 | KgQuery => 21
  | KgCreateConstraints => 22 | KgGetStatistics => 23 | KgClear => 24
  | KgGetSampleContract => 25
  | DbReset => 26
  end.

Definition listed (o : operation) : list http_method * string :=
  nth (row o) endpoint_table ([], "").

End Spec.

(* ===================================================================== *)
(** * Properties *)
(* ===================================================================== *)

(** ** Strings *)
(* ===================================================================== *)

Section StringFacts.

Lemma str_eqb_eq a b : str_eqb a b = true <-> a = b.
Proof.
  unfold str_eqb. destruct (list_eq_dec N.eq_dec a b); split; congruence.
Qed.

Lemma str_eqb_refl a : str_eqb a a = true.
Proof. now apply str_eqb_eq. Qed.

Lemma str_eqb_neq a b : str_eqb a b = false <-> a <> b.
Proof.
  unfold str_eqb. destruct (list_eq_dec N.eq_dec a b); split; congruence.
Qed.

Lemma trim_start_blank s : blank s = true -> trim_start s = [].
Proof.
  induction s as [|c s IH]; simpl; [reflexivity|].
  intros H. apply andb_true_iff in H as [Hc Hs]. rewrite Hc. auto.
Qed.

Lemma trim_start_not_blank s : blank s = false -> trim_start s <> [].
Proof.
  induction s as [|c s IH]; simpl; [discriminate|].
  destruct (is_white_space c); simpl; [assumption | discriminate].
Qed.

Lemma blank_app a b : blank (a ++ b) = blank a && blank b.
Proof. unfold blank. apply forallb_app. Qed.

Lemma blank_rev s : blank (rev s) = blank s.
Proof.
  induction s as [|c s IH]; simpl; [reflexivity|].
  rewrite blank_app, IH. simpl. rewrite andb_true_r. apply andb_comm.
Qed.

(** What [trim_start] leaves is blank only if nothing is left. *)
Lemma blank_trim_start s : blank (trim_start s) = blank s.
Proof.
  induction s as [|c s IH]; simpl; [reflexivity|].
  destruct (is_white_space c) eqn:E; simpl; [assumption | now rewrite E].
Qed.

(** [!s.trim()] holds exactly for the blank strings. *)
Lemma is_empty_trim s : is_empty (trim s) = blank s.
Proof.
  unfold trim, trim_end.
  destruct (blank s) eqn:B.
  - rewrite (trim_start_blank s B). reflexivity.
  - assert (H : trim_start (rev (trim_start s)) <> []).
    { apply trim_start_not_blank. now rewrite blank_rev, blank_trim_start. }
    destruct (trim_start (rev (trim_start s))) as [|x l] eqn:E; [congruence|].
    simpl. destruct (rev l ++ [x]) eqn:E'; [|reflexivity].
    now apply app_eq_nil in E' as [_ E'].
Qed.

End StringFacts.

(** ** The domain modules *)

Section ApiFacts.

Lemma call_timeout o args : timeout (call o args) = 30000%Z.
Proof. destruct o; reflexivity. Qed.

Lemma call_method_url o args :
  method (call o args) = method (call o []) /\ url (call o args) = url (call o []).
Proof. destruct o; split; reflexivity. Qed.

(** Every function has a row of its own. *)
Lemma rows_cover_table :
  NoDup (map Spec.row all_operations)
  /\ List.length all_operations = List.length Spec.endpoint_table.
Proof.
  split; [|reflexivity].
  cbn. repeat (constructor; [cbn; intuition discriminate|]). constructor.
Qed.

Lemma all_operations_complete o : In o all_operations.
Proof. destruct o; cbn; tauto. Qed.

End ApiFacts.

(** C4. Whatever arguments a function of a domain module is called with,
    the request it emits goes to the path of its row of the endpoint table
    and uses a method that row lists: the method of the row, for the rows
    that list one (all but the knowledge-graph row, which lists POST/GET). *)
Theorem endpoints_match_table (o : operation) (args : list jsval) :
  url (call o args) = snd (Spec.listed o)
  /\ In (method (call o args)) (fst (Spec.listed o))
  /\ (List.length (fst (Spec.listed o)) = 1 ->
      fst (Spec.listed o) = [method (call o args)]).
Proof.
  destruct o; repeat split; try reflexivity; cbn; auto; discriminate.
Qed.

(** ** The event loop *)

Section EventLoop.
Context {S : Type}.
Implicit Types (p : proc S) (w : world S).

Lemma requests_app l1 l2 : requests (l1 ++ l2) = requests l1 ++ requests l2.
Proof.
  induction l1 as [|e l1 IH]; simpl; [reflexivity|].
  destruct e; simpl; now rewrite ?IH.
Qed.

Lemma remove_nth_Forall {A} (P : A -> Prop) i (l : list A) :
  Forall P l -> Forall P (remove_nth i l).
Proof.
  intros H. revert i. induction H as [|x l Hx Hl IH]; intros [|i]; simpl; auto.
Qed.

Lemma run_sync_in_flight Q now p w :
  all_awaits Q p -> in_flight Q w -> in_flight Q (run_sync now p w).
Proof.
  revert w. induction p as [|f k IH|k IH|e k IH|k IH|a IHa k IHk|r k IH];
    intros w Hp Hw; simpl in *.
  - assumption.
  - now apply IH.
  - now apply IH.
  - now apply IH.
  - now apply IH.
  - destruct Hp as [Ha Hk]. auto.
  - unfold in_flight in *. simpl. apply Forall_app. split; [assumption|].
    constructor; [|constructor]. simpl. assumption.
Qed.

Lemma run_sync_requests Q (P : request -> Prop) now p w :
  (forall r k, Q r k -> P r) ->
  all_awaits Q p ->
  Forall P (requests (log w)) ->
  Forall P (requests (log (run_sync now p w))).
Proof.
  intros HQ. revert w.
  induction p as [|f k IH|k IH|e k IH|k IH|a IHa k IHk|r k IH];
    intros w Hp Hw; simpl in *.
  - assumption.
  - now apply IH.
  - now apply IH.
  - apply IH; [assumption|]. simpl. rewrite requests_app. simpl.
    now rewrite app_nil_r.
  - now apply IH.
  - destruct Hp as [Ha Hk]. auto.
  - rewrite requests_app. apply Forall_app. split; [assumption|].
    simpl. constructor; [|constructor]. destruct Hp as [Hr _]. eauto.
Qed.

(** The updates of the synchronous part of a task compose. *)
Lemma run_sync_keeps (R : S -> S -> Prop) now p w :
  (forall s, R s s) ->
  (forall s1 s2 s3, R s1 s2 -> R s2 s3 -> R s1 s3) ->
  sync_keeps R p ->
  R (state w) (state (run_sync now p w)).
Proof.
  intros Hrefl Htrans. revert w.
  induction p as [|f k IH|k IH|e k IH|k IH|a IHa k IHk|r k IH];
    intros w Hp; simpl in *.
  - apply Hrefl.
  - destruct Hp as [Hf Hk].
    eapply Htrans; [apply Hf|].
    exact (IH {| state := f (state w); pending := pending w; log := log w |} Hk).
  - now apply IH.
  - exact (IH {| state := state w; pending := pending w; log := log w ++ [Did e] |} Hp).
  - now apply IH.
  - destruct Hp as [Ha Hk].
    eapply Htrans; [exact (IHa _ Ha) | exact (IHk _ Hk)].
  - apply Hrefl.
Qed.

(** A step keeps the invariant of the requests in flight when the handler
    it may invoke respects it. *)
Lemma step_in_flight Q (e : event S) w :
  (forall now h, e = Invoke now h -> forall s, all_awaits Q (h s)) ->
  in_flight Q w -> in_flight Q (step e w).
Proof.
  intros He Hw. destruct e as [now h | now i o]; simpl.
  - apply run_sync_in_flight; [|assumption]. now apply (He now h).
  - destruct (nth_error (pending w) i) as [[r k]|] eqn:E; [|assumption].
    apply run_sync_in_flight.
    + apply nth_error_In in E.
      unfold in_flight in Hw. rewrite Forall_forall in Hw.
      now destruct (Hw _ E) as [_ Hk].
    + unfold in_flight in *. simpl. now apply remove_nth_Forall.
Qed.

Lemma step_requests Q (P : request -> Prop) (e : event S) w :
  (forall r k, Q r k -> P r) ->
  (forall now h, e = Invoke now h -> forall s, all_awaits Q (h s)) ->
  in_flight Q w ->
  Forall P (requests (log w)) ->
  Forall P (requests (log (step e w))).
Proof.
  intros HQ He Hw Hl. destruct e as [now h | now i o]; simpl.
  - apply (run_sync_requests Q P); [assumption| |assumption].
    now apply (He now h).
  - destruct (nth_error (pending w) i) as [[r k]|] eqn:E; [|assumption].
    apply (run_sync_requests Q P); [assumption| |assumption].
    apply nth_error_In in E.
    unfold in_flight in Hw. rewrite Forall_forall in Hw.
    now destruct (Hw _ E) as [_ Hk].
Qed.

End EventLoop.

(** ** Plays of a page *)

Section Plays.
Import Pages.
Variable p : page.
Variable Q : request -> (outcome -> proc (state p)) -> Prop.
Hypothesis handlers : forall a s, all_awaits Q (handle p a s).

Lemma play_in_flight hs (w : world (state p)) :
  in_flight Q w -> in_flight Q (play hs w).
Proof.
  revert w. induction hs as [|h hs IH]; intros w Hw; [assumption|].
  unfold play. simpl. apply IH. apply step_in_flight; [|assumption].
  intros now f E s. destruct h; simpl in E; [|discriminate].
  injection E as _ <-. apply handlers.
Qed.

Lemma play_requests (P : request -> Prop) hs (w : world (state p)) :
  (forall r k, Q r k -> P r) ->
  in_flight Q w ->
  Forall P (requests (log w)) ->
  Forall P (requests (log (play hs w))).
Proof.
  intros HQ. revert w. induction hs as [|h hs IH]; intros w Hw Hl; [assumption|].
  unfold play. simpl.
  assert (Hh : forall now f, event_of h = Invoke now f ->
                 forall s, all_awaits Q (f s)).
  { intros now f E s. destruct h; simpl in E; [|discriminate].
    injection E as _ <-. apply handlers. }
  apply IH.
  - now apply step_in_flight.
  - now apply (step_requests Q).
Qed.

Lemma init_in_flight (s : state p) : in_flight Q (init s).
Proof. constructor. Qed.

End Plays.

(** ** The handlers *)

Create HintDb handlers.

#[local] Hint Unfold
  Pages.handle
  Dashboard.handle Dashboard.handleResetDatabase
  Statistics.handle Statistics.handleResetDatabase
  PDFProcessor.handle PDFProcessor.handleDrag PDFProcessor.handleDrop
  PDFProcessor.handleFileSelect PDFProcessor.handleUrlSubmit
  PDFProcessor.upload_first PDFProcessor.upload_mutate
  PDFProcessor.download_mutate
  PDFProcessor.upload_onSuccess PDFProcessor.upload_onError
  PDFProcessor.download_onSuccess PDFProcessor.download_onError
  RAGChat.handle RAGChat.handleSubmit RAGChat.mutate RAGChat.mutationFn
  RAGChat.onSuccess RAGChat.onError
  Text2Cypher.handle Text2Cypher.handleGenerateCypher
  Text2Cypher.handleExecuteQuery Text2Cypher.handleLoadMoviesDataset
  Text2Cypher.handleResetDatabase Text2Cypher.loadMovies_mutate
  Text2Cypher.reset_mutate Text2Cypher.loadMovies_onSuccess
  Text2Cypher.loadMovies_onError Text2Cypher.reset_onSuccess
  Text2Cypher.reset_onError
  AgenticRAG.handle AgenticRAG.handleSubmit AgenticRAG.handleExampleQuestion
  AgenticRAG.mutate AgenticRAG.mutationFn AgenticRAG.onSuccess AgenticRAG.onError
  AgenticRAG.onSettled
  EntityExtraction.handle EntityExtraction.handleSubmit
  EntityExtraction.handleEntityTypeChange EntityExtraction.mutate
  EntityExtraction.onSuccess EntityExtraction.onError
  ContractExtraction.handle ContractExtraction.handleSubmit
  ContractExtraction.mutate ContractExtraction.onSuccess
  ContractExtraction.onError
  GraphRAG.handle GraphRAG.handleSubmit GraphRAG.handleCalculateCommunities
  GraphRAG.global_mutate GraphRAG.local_mutate GraphRAG.communities_mutate
  GraphRAG.global_onSuccess GraphRAG.global_onError
  GraphRAG.local_onSuccess GraphRAG.local_onError
  GraphRAG.communities_onSuccess GraphRAG.communities_onError
  KnowledgeGraphConstruction.handle KnowledgeGraphConstruction.onMount
  KnowledgeGraphConstruction.loadSampleContract
  KnowledgeGraphConstruction.loadStatistics
  KnowledgeGraphConstruction.loadGraphData
  KnowledgeGraphConstruction.extractContractInfo
  KnowledgeGraphConstruction.importToGraph
  KnowledgeGraphConstruction.createConstraints
  KnowledgeGraphConstruction.clearData
  KnowledgeGraphConstruction.queryContracts
  KnowledgeGraphConstruction.finally_
  ReactQuery.mutate ReactQuery.finish
  : handlers.

(** Case analysis over what a handler branches on. *)
Ltac handler_cases :=
  repeat (autounfold with handlers in *; cbn in *;
    match goal with
    | |- True => exact I
    | |- _ /\ _ => split
    | |- forall _, _ => intro
    | |- context [if ?b then _ else _] => destruct b eqn:?
    | |- context [match ?x with _ => _ end] => destruct x eqn:?
    end).

Section Handlers.
Import Pages.

Lemma handlers_use_client_timeout p a s :
  sends_only (fun r => timeout r = 30000%Z) (handle p a s).
Proof.
  unfold sends_only.
  destruct p; destruct a; handler_cases; try reflexivity.
Qed.

End Handlers.

(** C8. Every request a domain function emits carries the 30000 ms timeout
    of the shared client, whatever the arguments; and every request any
    page sends, in any sequence of user actions and settlements, carries
    it too. *)
Theorem timeout_is_uniform :
  (forall o args, timeout (call o args) = 30000%Z)
  /\ (forall p (hs : list (Pages.happening p)) (s : Pages.state p),
        Forall (fun r => timeout r = 30000%Z)
               (requests (log (Pages.play hs (init s))))).
Proof.
  split.
  - apply call_timeout.
  - intros p hs s.
    apply (play_requests p (fun r _ => timeout r = 30000%Z)).
    + intros a s'. apply handlers_use_client_timeout.
    + auto.
    + apply init_in_flight.
    + constructor.
Qed.

(** ** Entity extraction *)

Section EntityTypes.
Import EntityExtraction.

Lemma includes_In t (l : list jsstring) : includes t l = true <-> In t l.
Proof.
  unfold includes. rewrite existsb_exists. split.
  - intros [x [Hx E]]. apply str_eqb_eq in E. now subst.
  - intros H. exists t. split; [assumption | apply str_eqb_refl].
Qed.

Lemma includes_false t (l : list jsstring) : includes t l = false <-> ~ In t l.
Proof.
  rewrite <- includes_In. destruct (includes t l); split; congruence.
Qed.

Lemma In_others t x (l : list jsstring) :
  In x (filter (fun y => negb (str_eqb y t)) l) <-> In x l /\ x <> t.
Proof.
  rewrite filter_In, negb_true_iff, str_eqb_neq. tauto.
Qed.

(** Removing a type that is not there changes nothing. *)
Lemma others_absent t (l : list jsstring) :
  ~ In t l -> filter (fun y => negb (str_eqb y t)) l = l.
Proof.
  induction l as [|x l IH]; simpl; [reflexivity|].
  intros H. destruct (str_eqb x t) eqn:E; simpl.
  - apply str_eqb_eq in E. tauto.
  - rewrite IH; tauto.
Qed.

Lemma others_app t (a b : list jsstring) :
  filter (fun y => negb (str_eqb y t)) (a ++ b)
  = filter (fun y => negb (str_eqb y t)) a
    ++ filter (fun y => negb (str_eqb y t)) b.
Proof. apply filter_app. Qed.

Lemma others_self t : filter (fun y => negb (str_eqb y t)) [t] = [].
Proof. simpl. now rewrite str_eqb_refl. Qed.

Lemma others_idem t (l : list jsstring) :
  filter (fun y => negb (str_eqb y t)) (filter (fun y => negb (str_eqb y t)) l)
  = filter (fun y => negb (str_eqb y t)) l.
Proof.
  apply others_absent. rewrite In_others. tauto.
Qed.

Lemma toggle_member t l :
  includes t l = true -> toggle t l = filter (fun y => negb (str_eqb y t)) l.
Proof. unfold toggle. now intros ->. Qed.

Lemma toggle_absent t l : includes t l = false -> toggle t l = l ++ [t].
Proof. unfold toggle. now intros ->. Qed.

End EntityTypes.

(** C10, as the code has it. Toggling a type removes it when it is
    selected and appends it otherwise, and leaves the other types and
    their order alone; toggling twice gives a selection with exactly the
    members of the original, which is the original itself when the type
    was not selected, and the original with the type moved to the end
    when it was. *)
Theorem toggle_twice_same_members (S : list jsstring) (t : jsstring) :
  let others := filter (fun y => negb (str_eqb y t)) in
  (includes t S = true -> EntityExtraction.toggle t S = others S)
  /\ (includes t S = false -> EntityExtraction.toggle t S = S ++ [t])
  /\ others (EntityExtraction.toggle t S) = others S
  /\ (forall x, In x (EntityExtraction.toggle t (EntityExtraction.toggle t S))
                <-> In x S)
  /\ (includes t S = false ->
      EntityExtraction.toggle t (EntityExtraction.toggle t S) = S)
  /\ (includes t S = true ->
      EntityExtraction.toggle t (EntityExtraction.toggle t S) = others S ++ [t]).
Proof.
  cbv zeta.
  assert (Hin : includes t (filter (fun y => negb (str_eqb y t)) S) = false).
  { apply includes_false. rewrite In_others. tauto. }
  assert (Hout : includes t (S ++ [t]) = true).
  { apply includes_In, in_or_app. right. now left. }
  repeat split.
  - apply toggle_member.
  - apply toggle_absent.
  - destruct (includes t S) eqn:E.
    + rewrite (toggle_member _ _ E). apply others_idem.
    + rewrite (toggle_absent _ _ E), others_app, others_self. apply app_nil_r.
  - destruct (includes t S) eqn:E.
    + rewrite (toggle_member _ _ E), (toggle_absent _ _ Hin).
      rewrite in_app_iff, In_others. simpl. intros [[H _]|[<-|[]]]; auto.
      now apply includes_In.
    + rewrite (toggle_absent _ _ E), (toggle_member _ _ Hout).
      rewrite others_app, others_self, app_nil_r, In_others. tauto.
  - destruct (includes t S) eqn:E.
    + rewrite (toggle_member _ _ E), (toggle_absent _ _ Hin).
      rewrite in_app_iff, In_others. simpl. intros H.
      destruct (list_eq_dec N.eq_dec x t) as [->|Hne]; auto.
    + rewrite (toggle_absent _ _ E), (toggle_member _ _ Hout).
      rewrite others_app, others_self, app_nil_r, In_others.
      intros H. split; [assumption|]. intros ->.
      now apply includes_false in E.
  - intros E.
    rewrite (toggle_absent _ _ E), (toggle_member _ _ Hout).
    rewrite others_app, others_self, app_nil_r.
    apply others_absent. now apply includes_false.
  - intros E.
    now rewrite (toggle_member _ _ E), (toggle_absent _ _ Hin).
Qed.

(** C10 fails as stated: on the page's initial selection, unchecking
    PERSON and checking it again moves it to the end of the array. *)
Lemma toggle_twice_reorders :
  EntityExtraction.toggle (lit "PERSON")
    (EntityExtraction.toggle (lit "PERSON")
       (EntityExtraction.entityTypes EntityExtraction.initial))
  = [lit "ORGANIZATION"; lit "LOCATION"; lit "EVENT"; lit "PERSON"]
  /\ EntityExtraction.toggle (lit "PERSON")
       (EntityExtraction.toggle (lit "PERSON")
          (EntityExtraction.entityTypes EntityExtraction.initial))
     <> EntityExtraction.entityTypes EntityExtraction.initial.
Proof. split; [reflexivity | vm_compute; discriminate]. Qed.

Section EntitySubmit.
Import EntityExtraction.

(** What the submit handler sends, for any text that is not blank and any
    selection: the mutation passes the object [{ text, entityTypes }] as
    the single argument of [entityAPI.extract], so the object lands in
    [text] and [entity_types] takes the default of the second parameter. *)
Lemma entity_submit_request (s : state) (now : Z) :
  blank (text s) = false ->
  requests (log (step (Invoke now handleSubmit) (init s)))
  = [ {| method := POST;
         url := "/api/entities/extract";
         data := JObj [("text", JObj [("text", JStr (text s));
                                      ("entityTypes", str_array (entityTypes s))]);
                       ("entity_types", str_array default_entity_types)];
         req_headers := [("Content-Type", "application/json")];
         timeout := 30000 |} ].
Proof.
  intros H. cbn. unfold handleSubmit. rewrite is_empty_trim, H. reflexivity.
Qed.

End EntitySubmit.

(** C1, at a failing input. With the text "Tim Cook is the CEO of Apple."
    and only PERSON checked, the body sent to /api/entities/extract has the
    variables object as its [text] and the four default types as its
    [entity_types]: it is not [{text, entity_types: ["PERSON"]}]. *)
Theorem entity_submit_ignores_selection :
  let t := lit "Tim Cook is the CEO of Apple." in
  let s := {| EntityExtraction.text := t;
              EntityExtraction.entityTypes := [lit "PERSON"];
              EntityExtraction.result := JNull;
              EntityExtraction.extractMutation := idle |} in
  map (fun r => (method r, url r, data r))
      (requests (log (@Pages.play Pages.EntityExtraction
                        [@Pages.Act Pages.EntityExtraction 0 EntityExtraction.Submit]
                        (init s))))
  = [ (POST, "/api/entities/extract",
       JObj [("text", JObj [("text", JStr t);
                            ("entityTypes", JArr [JStr (lit "PERSON")])]);
             ("entity_types",
              JArr [JStr (lit "PERSON"); JStr (lit "ORGANIZATION");
                    JStr (lit "LOCATION"); JStr (lit "EVENT")])]) ]
  /\ map data
       (requests (log (@Pages.play Pages.EntityExtraction
                         [@Pages.Act Pages.EntityExtraction 0 EntityExtraction.Submit]
                         (init s))))
     <> [ JObj [("text", JStr t);
                ("entity_types", JArr [JStr (lit "PERSON")])] ].
Proof.
  cbv zeta. split; [reflexivity | vm_compute; discriminate].
Qed.

(** ** RAG chat *)

(** C6. With the question "Who directed The Matrix?" typed, the search
    type "hybrid" selected and no query in flight, submitting sends exactly
    one request, POST /api/rag/query, with exactly the body
    [{question, search_type}]; when it is fulfilled with a body that has an
    [answer], no further request is sent and the bot message appended after
    the user's message has that answer, as it came, for its content. *)
Theorem rag_chat_round_trip (ms : list jsval) (cur : nat) (t0 t1 : Z)
    (body rest : list (string * jsval)) :
  let q := lit "Who directed The Matrix?" in
  let s := {| RAGChat.messages := ms;
              RAGChat.input := q;
              RAGChat.searchType := lit "hybrid";
              RAGChat.queryMutation := {| current := cur; isLoading := false |} |} in
  let w1 := @Pages.play Pages.RAGChat
              [@Pages.Act Pages.RAGChat t0 RAGChat.Submit] (init s) in
  let w2 := @Pages.play Pages.RAGChat
              [Pages.Settled t1 0 (Resolved (("data", JObj body) :: rest))] w1 in
  requests (log w1)
  = [ {| method := POST;
         url := "/api/rag/query";
         data := JObj [("question", JStr q); ("search_type", JStr (lit "hybrid"))];
         req_headers := [("Content-Type", "application/json")];
         timeout := 30000 |} ]
  /\ requests (log w2) = requests (log w1)
  /\ exists bot,
       RAGChat.messages (state w2) = ms ++ [RAGChat.userMessage t0 q; bot]
       /\ get "type" bot = Some (JStr (lit "bot"))
       /\ get "content" bot = Some (lookup "answer" body).
Proof.
  cbv zeta. split; [reflexivity|]. split.
  - cbn. rewrite Nat.eqb_refl. reflexivity.
  - eexists. split.
    + cbn. rewrite Nat.eqb_refl. cbn. rewrite <- app_assoc. reflexivity.
    + split; reflexivity.
Qed.

(** ** Destructive actions *)

(** C5. A destructive action sends its request exactly when the
    confirmation dialog returned true: the step then adds that one request
    to the log and nothing else; when the dialog returned false the page is
    left as it was, with nothing sent. *)
Theorem destructive_needs_confirmation (d : Panels.destructive)
    (confirmed : bool) (now : Z) :
  let act := @Pages.Act (Panels.page_of_destructive d) now
               (Panels.destroy d confirmed) in
  (forall w, log (Pages.play [act] w)
             = log w ++ (if confirmed then [Sent (Panels.underlying d)] else []))
  /\ (forall w, confirmed = false -> Pages.play [act] w = w)
  /\ (forall s, In (Panels.underlying d)
                   (requests (log (Pages.play [act] (init s))))
                <-> confirmed = true).
Proof.
  cbv zeta. repeat split.
  - intros w. destruct d, confirmed; cbn; now rewrite ?app_nil_r.
  - intros w ->. destruct d; reflexivity.
  - destruct d, confirmed; cbn; intros H; try reflexivity; contradiction.
  - intros ->. destruct d; cbn; auto.
Qed.

(** ** Submissions *)

Section Submissions.

Lemma last_message_push (l : list jsval) (m : jsval) :
  last (map Some (l ++ [m])) None = Some m.
Proof.
  rewrite map_app. simpl. apply last_last.
Qed.

Lemma filled_string v :
  Panels.filled v = true -> exists t, v = JStr t /\ blank t = false.
Proof.
  destruct v; try discriminate. simpl. intros H.
  apply negb_true_iff in H. eauto.
Qed.

(** What [ready] says, guard by guard. *)
Ltac use_ready H :=
  cbn in H; unfold Panels.filled in H;
  repeat match type of H with
  | (_ && _)%bool = true =>
      let H1 := fresh "Hr" in
      apply andb_prop in H; destruct H as [H1 H]; try apply negb_true_iff in H1
  | negb _ = true => apply negb_true_iff in H
  | match ?v with _ => _ end = _ => destruct v eqn:?; try discriminate H
  end.

(** A form that is ready sends: its submit handler puts one request in
    flight, whose continuation shows the response it is resumed with. *)
Lemma ready_submission_sends (f : Panels.form) now
    (w : world (Pages.state (Panels.page_of f))) :
  Panels.ready f (state w) = true ->
  exists req k,
    pending (step (Invoke now (Pages.handle (Panels.page_of f) (Panels.submit f))) w)
    = pending w ++ [(req, k)]
    /\ requests (log (step (Invoke now (Pages.handle (Panels.page_of f)
                                          (Panels.submit f))) w))
       = requests (log w) ++ [req]
    /\ Panels.shows f k.
Proof.
  intros H.
  destruct f; use_ready H;
    cbn [Panels.page_of Panels.submit step] in *;
    autounfold with handlers; cbn;
    rewrite ?is_empty_trim;
    repeat match goal with
    | E : _ = _ |- _ => rewrite E; cbn
    end.
  all: rewrite ?is_empty_trim;
       repeat match goal with
       | E : blank _ = false |- _ => rewrite E; cbn
       end.
  all: repeat match goal with
       | |- context [if ?b then _ else _] => destruct b eqn:?; cbn
       end.
  all: eexists; eexists; (split; [reflexivity|]).
  all: split; [rewrite ?requests_app; cbn; rewrite ?app_nil_r; reflexivity|].
  all: intros r t0 w0 Hd;
       unfold Panels.displayable, Panels.shown, Panels.display, Panels.has_body,
              RAGChat.botMessage, RAGChat.last_message, RAGChat.push,
              RAGChat.set_messages, get_opt in *.
  all: try (destruct (response_data r) eqn:Ebody; try discriminate Hd).
  all: cbn.
  all: repeat match goal with
       | |- context [if ?b then _ else _] => destruct b eqn:?; cbn
       end.
  all: rewrite ?last_message_push; reflexivity.
Qed.

(** A form that is not ready sends nothing. *)
Lemma unready_submission_sends_nothing (f : Panels.form) now
    (w : world (Pages.state (Panels.page_of f))) :
  Panels.ready f (state w) = false ->
  pending (step (Invoke now (Pages.handle (Panels.page_of f) (Panels.submit f))) w)
  = pending w
  /\ requests (log (step (Invoke now (Pages.handle (Panels.page_of f)
                                        (Panels.submit f))) w))
     = requests (log w).
Proof.
  intros H.
  destruct f; cbn in H; unfold Panels.filled in H;
    cbn [Panels.page_of Panels.submit step] in *;
    autounfold with handlers; cbn;
    rewrite ?is_empty_trim.
  all: repeat match type of H with
       | context [blank ?t] => destruct (blank t) eqn:?; cbn in H |- *
       | context [isLoading ?o] => destruct (isLoading o) eqn:?; cbn in H |- *
       | context [ends_with_pdf ?u] => destruct (ends_with_pdf u) eqn:?; cbn in H |- *
       | context [match ?v with _ => _ end] =>
           destruct v eqn:?; cbn in H |- *; rewrite ?is_empty_trim
       end.
  all: try discriminate H.
  all: rewrite ?requests_app, ?app_nil_r; cbn; rewrite ?app_nil_r;
       split; reflexivity.
Qed.

(** Typing puts nothing in flight. *)
Lemma type_in_pending (f : Panels.form) now v
    (w : world (Pages.state (Panels.page_of f))) :
  pending (step (Invoke now (Pages.handle (Panels.page_of f) (Panels.type_in f v))) w)
  = pending w.
Proof. destruct f; reflexivity. Qed.

End Submissions.

(** ** Blank submissions *)

(** C9, as the code has it. When the text a form sends is empty or white
    space only, its submit handler sends nothing, on every form but one:
    "Execute Query" of the Text2Cypher page looks at the generated query,
    not at the question.  With a generated query it sends the request,
    blank question included; without one it sends nothing, like every form
    that is not ready. *)
Theorem blank_submission_sends_nothing (f : Panels.form) (now : Z)
    (w : world (Pages.state (Panels.page_of f))) (t : jsstring) :
  Panels.input f (state w) = JStr t ->
  blank t = true ->
  let w' := Pages.play [@Pages.Act (Panels.page_of f) now (Panels.submit f)] w in
  (f <> Panels.Text2CypherExecute ->
     requests (log w') = requests (log w) /\ pending w' = pending w)
  /\ (Panels.ready f (state w) = false ->
      requests (log w') = requests (log w) /\ pending w' = pending w)
  /\ (f = Panels.Text2CypherExecute ->
      Panels.ready f (state w) = true ->
      exists req k,
        pending w' = pending w ++ [(req, k)]
        /\ requests (log w') = requests (log w) ++ [req]
        /\ url req = "/api/text2cypher/query"
        /\ get "question" (data req) = Some (JStr t)).
Proof.
  intros Hin Hb. cbv zeta.
  change (Pages.play [@Pages.Act (Panels.page_of f) now (Panels.submit f)] w)
    with (step (Invoke now (Pages.handle (Panels.page_of f) (Panels.submit f))) w).
  assert (Hno : Panels.ready f (state w) = false ->
                requests (log (step (Invoke now (Pages.handle (Panels.page_of f)
                                                   (Panels.submit f))) w))
                = requests (log w)
                /\ pending (step (Invoke now (Pages.handle (Panels.page_of f)
                                                (Panels.submit f))) w)
                   = pending w).
  { intros Hr.
    destruct (unready_submission_sends_nothing f now w Hr) as [Hp Hl]. auto. }
  split; [|split].
  - intros Hf. apply Hno.
    destruct f; try congruence; cbn in Hin |- *; unfold Panels.filled;
      try (injection Hin as ->); try rewrite Hin; rewrite Hb; reflexivity.
  - exact Hno.
  - intros -> Hr. cbn in Hin. injection Hin as Hq.
    cbn in Hr. unfold Panels.filled in Hr.
    cbn [Panels.page_of Panels.submit step Pages.handle Pages.state] in *.
    change (Pages.state Pages.Text2Cypher) with Text2Cypher.state in *.
    destruct (Text2Cypher.cypherQuery (state w)) as [| | | |c| | |] eqn:Ec;
      try discriminate Hr.
    apply negb_true_iff in Hr.
    cbn [Text2Cypher.handle]. unfold Text2Cypher.handleExecuteQuery.
    rewrite Ec. cbn [trim_of]. rewrite is_empty_trim, Hr. cbn.
    eexists. eexists. split; [reflexivity|].
    split; [rewrite requests_app; reflexivity|].
    split; [reflexivity|]. cbn. now rewrite Hq.
Qed.

(** An instance: three spaces typed into the Graph RAG form. *)
Lemma blank_submission_sends_nothing_witness :
  let s := {| GraphRAG.question := lit "   ";
              GraphRAG.searchType := lit "global";
              GraphRAG.result := JNull;
              GraphRAG.globalMutation := idle;
              GraphRAG.localMutation := idle;
              GraphRAG.communitiesMutation := idle |} in
  let w' := @Pages.play Pages.GraphRAG
              [@Pages.Act Pages.GraphRAG 0 GraphRAG.Submit] (init s) in
  requests (log w') = [] /\ pending w' = [].
Proof.
  exact (proj1
           (blank_submission_sends_nothing Panels.GraphRAGForm 0
              (init {| GraphRAG.question := lit "   ";
                       GraphRAG.searchType := lit "global";
                       GraphRAG.result := JNull;
                       GraphRAG.globalMutation := idle;
                       GraphRAG.localMutation := idle;
                       GraphRAG.communitiesMutation := idle |})
              (lit "   ") eq_refl eq_refl)
           ltac:(discriminate)).
Defined.

(** C9 fails as stated on the Text2Cypher page.  A query has been
    generated and the question field holds white space only: "Execute
    Query" sends POST /api/text2cypher/query, with the blank question in
    its body. *)
Lemma execute_checks_the_generated_query :
  let s := {| Text2Cypher.question := lit "   ";
              Text2Cypher.terminology := [];
              Text2Cypher.examples := [];
              Text2Cypher.cypherQuery := JStr (lit "MATCH (m:Movie) RETURN m.title");
              Text2Cypher.queryResults := JNull;
              Text2Cypher.isGenerating := false;
              Text2Cypher.isExecuting := false;
              Text2Cypher.loadMoviesMutation := idle;
              Text2Cypher.resetDatabaseMutation := idle |} in
  let w' := @Pages.play Pages.Text2Cypher
              [@Pages.Act Pages.Text2Cypher 0 Text2Cypher.Execute] (init s) in
  Panels.input Panels.Text2CypherExecute s = JStr (lit "   ")
  /\ blank (lit "   ") = true
  /\ map (fun r => (method r, url r, data r)) (requests (log w'))
     = [ (POST, "/api/text2cypher/query",
          JObj [("question", JStr (lit "   ")); ("terminology", JStr []);
                ("examples", JStr [])]) ]
  /\ requests (log w') <> requests (log (init s))
  /\ List.length (pending w') = 1.
Proof.
  cbv zeta. repeat split; try reflexivity. vm_compute. discriminate.
Qed.

(** ** Failed requests *)

Section Failures.
Import Panels.

Lemma unchanged_refl p s : unchanged p s s.
Proof. reflexivity. Qed.

Lemma unchanged_trans p s1 s2 s3 :
  unchanged p s1 s2 -> unchanged p s2 s3 -> unchanged p s1 s3.
Proof. unfold unchanged. congruence. Qed.

Lemma extended_refl p s : extended p s s.
Proof. exists []. now rewrite app_nil_r. Qed.

Lemma extended_trans p s1 s2 s3 :
  extended p s1 s2 -> extended p s2 s3 -> extended p s1 s3.
Proof.
  intros [m1 H1] [m2 H2]. exists (m1 ++ m2). now rewrite H2, H1, app_assoc.
Qed.

Lemma kept_refl p s : kept p s s.
Proof. destruct p; first [apply unchanged_refl | apply extended_refl]. Qed.

Lemma kept_trans p s1 s2 s3 : kept p s1 s2 -> kept p s2 s3 -> kept p s1 s3.
Proof. destruct p; first [apply unchanged_trans | apply extended_trans]. Qed.

(** When every request in flight resumes, on rejection, with updates that
    respect [R], a rejection respects [R]. *)
Lemma rejection_respects {S} (R : S -> S -> Prop) now i error (w : world S) :
  (forall s, R s s) ->
  (forall s1 s2 s3, R s1 s2 -> R s2 s3 -> R s1 s3) ->
  in_flight (fun _ k => forall e, sync_keeps R (k (Rejected e))) w ->
  R (state w) (state (step (Settle now i (Rejected error)) w)).
Proof.
  intros Hrefl Htrans Hw. simpl.
  destruct (nth_error (pending w) i) as [[r k]|] eqn:E; [|apply Hrefl].
  apply nth_error_In in E.
  unfold in_flight in Hw. rewrite Forall_forall in Hw.
  destruct (Hw _ E) as [Hk _]. simpl in Hk.
  exact (run_sync_keeps R now (k (Rejected error))
           {| state := state w; pending := remove_nth i (pending w); log := log w |}
           Hrefl Htrans (Hk error)).
Qed.

Ltac keeps_payload :=
  handler_cases;
  try (unfold unchanged; reflexivity);
  try (apply extended_refl);
  try (exists []; cbn; now rewrite app_nil_r);
  try (eexists; cbn; reflexivity).

Lemma handlers_keep_payload p a s :
  p <> Pages.AgenticRAG ->
  rejection_keeps (kept p) (Pages.handle p a s).
Proof.
  intros Hp. unfold rejection_keeps.
  destruct p; try congruence; destruct a; keeps_payload.
Qed.

(** On the Agentic RAG page every rejection ends with the result cleared. *)
Lemma agentic_handlers_clear a s :
  all_awaits (fun _ k => forall e now w,
                AgenticRAG.result (state (run_sync now (k (Rejected e)) w)) = JNull)
    (Pages.handle Pages.AgenticRAG a s).
Proof.
  destruct a; handler_cases; reflexivity.
Qed.

(** A task that sends nothing leaves the requests in flight as they are. *)
Lemma quiet_pending {S} now (p : proc S) (w : world S) :
  sync_quiet p -> pending (run_sync now p w) = pending w.
Proof.
  revert w. induction p as [|f k IH|k IH|e k IH|k IH|a IHa k IHk|r k IH];
    intros w Hp; simpl in *.
  - reflexivity.
  - now rewrite IH.
  - now rewrite IH.
  - now rewrite IH.
  - now rewrite IH.
  - destruct Hp as [Ha Hk]. now rewrite IHk, IHa.
  - contradiction.
Qed.

(** Up to its request, a handler that sends one keeps the payload: a
    handler that changes what is displayed (the "Process Another" button,
    a query delivering new data) sends nothing. *)
Lemma handlers_keep_or_quiet p a s :
  p <> Pages.AgenticRAG ->
  sync_keeps (kept p) (Pages.handle p a s) \/ sync_quiet (Pages.handle p a s).
Proof.
  intros Hp.
  destruct p; try congruence; destruct a;
    first [ right; handler_cases; fail
          | left; keeps_payload; fail ].
Qed.

Lemma run_sync_logs {S} (P : entry -> Prop) now (p : proc S) (w : world S) :
  sync_logs P p ->
  exists more, log (run_sync now p w) = log w ++ more /\ Forall P more.
Proof.
  revert w. induction p as [|f k IH|k IH|e k IH|k IH|a IHa k IHk|r k IH];
    intros w Hp; simpl in *.
  - exists []. now rewrite app_nil_r.
  - apply (IH {| state := f (state w); pending := pending w; log := log w |} Hp).
  - now apply IH.
  - destruct Hp as [He Hk].
    destruct (IH {| state := state w; pending := pending w;
                    log := log w ++ [Did e] |} Hk) as [more [Hl Hm]].
    exists (Did e :: more). simpl in Hl. rewrite Hl, <- app_assoc. auto.
  - now apply IH.
  - destruct Hp as [Ha Hk].
    destruct (IHa w Ha) as [m1 [H1 F1]].
    destruct (IHk (run_sync now a w) Hk) as [m2 [H2 F2]].
    exists (m1 ++ m2). rewrite H2, H1, app_assoc. split; [reflexivity|].
    apply Forall_app. auto.
  - exists [Sent r]. auto.
Qed.

(** No handler makes a query fetch again when its request is rejected. *)
Lemma handlers_fail_without_refresh p a s :
  rejection_logs (fun e => refreshes e = false) (Pages.handle p a s).
Proof.
  unfold rejection_logs.
  destruct p; destruct a; handler_cases; reflexivity.
Qed.

End Failures.

(** C2, as the code has it. A request in flight is rejected, just after
    the user acted.  The Agentic RAG page ends with its result cleared.
    Every other page displays the payload it displayed before the
    rejection and, when the request is one the action sent, the payload it
    displayed before the action: the chat has appended to the messages
    that were there, the others (the destructive actions included, and
    the pages that display what their queries delivered) show what they
    showed.  The rejection sends nothing to the queries: no refetch, no
    invalidation. *)
Theorem failure_keeps_results_except_agentic (p : Pages.page)
    (hs : list (Pages.happening p)) (s0 : Pages.state p) (a : Pages.action p)
    (t0 t1 : Z) (i : nat) (error : jsval) :
  let w := Pages.play hs (init s0) in
  let w1 := Pages.play [Pages.Act t0 a] w in
  let w2 := Pages.play [Pages.Settled t1 i (Rejected error)] w1 in
  i < List.length (pending w1) ->
  Panels.on_failure p (state w1) (state w2)
  /\ (List.length (pending w) <= i -> Panels.on_failure p (state w) (state w2))
  /\ exists more,
       log w2 = log w1 ++ more
       /\ forallb (fun e => negb (Panels.refreshes e)) more = true.
Proof.
  cbv zeta. intros Hi.
  set (w := Pages.play hs (init s0)) in *.
  set (w1 := Pages.play [Pages.Act t0 a] w) in *.
  change (Pages.play [Pages.Settled t1 i (Rejected error)] w1)
    with (step (Settle t1 i (Rejected error)) w1).
  assert (Hfl : forall Q, (forall a' s', all_awaits Q (Pages.handle p a' s')) ->
                          in_flight Q w1).
  { intros Q HQ. apply (play_in_flight p Q HQ). apply (play_in_flight p Q HQ).
    apply init_in_flight. }
  destruct (nth_error (pending w1) i) as [[r k]|] eqn:E;
    [|apply nth_error_None in E; lia].
  assert (Hlog : exists more,
             log (step (Settle t1 i (Rejected error)) w1) = log w1 ++ more
             /\ forallb (fun e => negb (Panels.refreshes e)) more = true).
  { pose proof (Hfl _ (handlers_fail_without_refresh p)) as Hw.
    unfold in_flight in Hw. rewrite Forall_forall in Hw.
    destruct (Hw _ (nth_error_In _ _ E)) as [Hk _]. simpl in Hk.
    cbn [step]. rewrite E.
    destruct (run_sync_logs (fun e => Panels.refreshes e = false) t1
                (k (Rejected error))
                {| state := state w1; pending := remove_nth i (pending w1);
                   log := log w1 |} (Hk error)) as [more [Hl Hm]].
    exists more. split; [exact Hl|].
    apply forallb_forall. intros e He. rewrite Forall_forall in Hm.
    now rewrite (Hm e He). }
  destruct (Pages.page_eq_dec p Pages.AgenticRAG) as [->|Hp].
  - cbn [Panels.on_failure].
    pose proof (Hfl _ agentic_handlers_clear) as Hw.
    unfold in_flight in Hw. rewrite Forall_forall in Hw.
    destruct (Hw _ (nth_error_In _ _ E)) as [Hk _]. simpl in Hk.
    assert (Hnull : AgenticRAG.result
                      (state (step (Settle t1 i (Rejected error)) w1)) = JNull).
    { cbn [step]. rewrite E. apply Hk. }
    auto.
  - assert (H1 : Panels.kept p (state w1)
                   (state (step (Settle t1 i (Rejected error)) w1))).
    { apply rejection_respects.
      - apply kept_refl.
      - apply kept_trans.
      - apply Hfl. intros a' s'. now apply handlers_keep_payload. }
    assert (H0 : List.length (pending w) <= i ->
                 Panels.kept p (state w)
                   (state (step (Settle t1 i (Rejected error)) w1))).
    { intros Hle. apply (kept_trans p _ (state w1)); [|exact H1].
      change w1 with (run_sync t0 (Pages.handle p a (state w)) w).
      destruct (handlers_keep_or_quiet p a (state w) Hp) as [Hk | Hq].
      - apply run_sync_keeps; [apply kept_refl | apply kept_trans | exact Hk].
      - exfalso.
        pose proof (quiet_pending t0 (Pages.handle p a (state w)) w Hq) as Hsame.
        change (run_sync t0 (Pages.handle p a (state w)) w) with w1 in Hsame.
        rewrite Hsame in Hi. lia. }
    destruct p; try (split; [exact H1 | split; [exact H0 | exact Hlog]]).
    congruence.
Qed.

(** An instance: a Graph RAG answer is displayed, a new submission fails
    with a network error, the answer is still displayed. *)
Lemma failure_keeps_results_witness :
  let s0 := {| GraphRAG.question := lit "How are the main characters related?";
               GraphRAG.searchType := lit "local";
               GraphRAG.result := JObj [("answer", JStr (lit "They are siblings."))];
               GraphRAG.globalMutation := idle;
               GraphRAG.localMutation := idle;
               GraphRAG.communitiesMutation := idle |} in
  let w := @Pages.play Pages.GraphRAG
             [@Pages.Act Pages.GraphRAG 0 GraphRAG.Submit] (init s0) in
  GraphRAG.result
    (state (@Pages.play Pages.GraphRAG
              [Pages.Settled 1 0 (Rejected (JObj [("message", JStr (lit "Network Error"))]))] w))
  = JObj [("answer", JStr (lit "They are siblings."))].
Proof.
  cbv zeta.
  pose proof (failure_keeps_results_except_agentic Pages.GraphRAG []
    {| GraphRAG.question := lit "How are the main characters related?";
       GraphRAG.searchType := lit "local";
       GraphRAG.result := JObj [("answer", JStr (lit "They are siblings."))];
       GraphRAG.globalMutation := idle;
       GraphRAG.localMutation := idle;
       GraphRAG.communitiesMutation := idle |}
    GraphRAG.Submit 0%Z 1%Z 0 (JObj [("message", JStr (lit "Network Error"))])
    (le_n 1)) as H.
  cbv zeta in H. destruct H as [_ [H _]].
  exact (f_equal (fun l => hd JNull l) (H (le_n 0))).
Defined.

(** C2 fails as stated on the Agentic RAG page. A result is displayed; a
    new question is submitted and its request is rejected: the result
    displayed before is gone.  The handler clears it when the question is
    submitted, and [onError] sets it to [null] again. *)
Lemma agentic_failure_clears_result :
  let shown := JObj [("answer", JStr (lit "The Wachowskis"))] in
  let s0 := {| AgenticRAG.question := lit "Who directed The Matrix?";
               AgenticRAG.isLoading := false;
               AgenticRAG.result := shown;
               AgenticRAG.availableTools := JArr [];
               AgenticRAG.agenticRAGMutation := idle |} in
  let error := JObj [("message", JStr (lit "Network Error"))] in
  let w1 := @Pages.play Pages.AgenticRAG
              [@Pages.Act Pages.AgenticRAG 0 AgenticRAG.Submit] (init s0) in
  let w2 := @Pages.play Pages.AgenticRAG [Pages.Settled 1 0 (Rejected error)] w1 in
  List.length (pending w1) = 1
  /\ AgenticRAG.result (state w2) = JNull
  /\ Panels.result Pages.AgenticRAG (state w2) <> Panels.result Pages.AgenticRAG s0.
Proof.
  cbv zeta. split; [reflexivity|]. split; [reflexivity|]. vm_compute. discriminate.
Qed.

(** The same on the dashboard: the statistics delivered by the query are
    displayed, a confirmed reset fails, the statistics are still there. *)
Remark dashboard_reset_failure_keeps_stats (data : jsval) (error : jsval) :
  let w := @Pages.play Pages.Dashboard
             [@Pages.Act Pages.Dashboard 0 (Dashboard.StatsFetched data);
              @Pages.Act Pages.Dashboard 1 (Dashboard.ResetDatabase true);
              Pages.Settled 2 0 (Rejected error)] (init Dashboard.initial) in
  Dashboard.stats (state w) = data
  /\ log w = [Sent (databaseAPI_reset []);
              Did (ToastError "Failed to reset database: "
                     (Some (detail_or_message error)))].
Proof. split; reflexivity. Qed.

(** ** Retries *)

Section Retries.

Lemma attempt_length fn ctx retry failureCount outs :
  List.length (fst (attempt fn ctx retry failureCount outs))
  <= 1 + (retry - failureCount).
Proof.
  revert failureCount. induction outs as [|o outs IH]; intros fc; simpl.
  - lia.
  - destruct o; simpl; [lia|].
    destruct (Nat.ltb fc retry) eqn:E.
    + apply Nat.ltb_lt in E. specialize (IH (S fc)).
      destruct (attempt fn ctx retry (S fc) outs) as [rs res]. simpl in *. lia.
    + simpl. lia.
Qed.

Lemma attempt_at_least_one fn ctx retry failureCount outs :
  1 <= List.length (fst (attempt fn ctx retry failureCount outs)).
Proof.
  destruct outs as [|[|] outs]; simpl; try lia.
  destruct (Nat.ltb failureCount retry); simpl; [|lia].
  destruct (attempt fn ctx retry (S failureCount) outs). simpl. lia.
Qed.

(** Every attempt runs the query function again, on the same context. *)
Lemma attempt_same_request fn ctx retry failureCount outs :
  Forall (eq (fn [ctx])) (fst (attempt fn ctx retry failureCount outs)).
Proof.
  revert failureCount. induction outs as [|o outs IH]; intros fc; simpl.
  - repeat constructor.
  - destruct o; simpl; [repeat constructor|].
    destruct (Nat.ltb fc retry).
    + specialize (IH (S fc)).
      destruct (attempt fn ctx retry (S fc) outs) as [rs res]. simpl in *.
      now constructor.
    + repeat constructor.
Qed.

(** A fetch whose attempts all fail runs until the retries are used up,
    and ends rejected. *)
Lemma attempt_all_fail fn ctx retry failureCount outs :
  Forall (eq false) outs ->
  retry - failureCount < List.length outs ->
  attempt fn ctx retry failureCount outs
  = (repeat (fn [ctx]) (1 + (retry - failureCount)), Some false).
Proof.
  revert failureCount. induction outs as [|o outs IH]; intros fc Hf Hl; simpl in *.
  - lia.
  - inversion Hf as [|? ? <- Hf']; subst.
    destruct (Nat.ltb fc retry) eqn:E.
    + apply Nat.ltb_lt in E. rewrite (IH (S fc) Hf') by lia.
      replace (retry - fc) with (S (retry - S fc)) by lia. reflexivity.
    + apply Nat.ltb_ge in E. replace (retry - fc) with 0 by lia. reflexivity.
Qed.

Lemma handlers_never_reissue p a s : no_reissue (Pages.handle p a s).
Proof.
  unfold no_reissue, sends_only.
  destruct p; destruct a; handler_cases; try discriminate.
Qed.

End Retries.

(** C3, as the code has it. No handler, mutation or domain function sends
    a request again after it was rejected. A query is fetched again after
    a failure as often as its [retry] option says: never for the schema of
    the Text2Cypher page ([retry: false]), up to three more times for the
    tools of the Agentic RAG page ([retry: 3]), where a fetch whose
    attempts all fail makes four requests; a query that sets no option
    follows the default of the query client. *)
Theorem retries_only_where_configured :
  (forall p a s, no_reissue (Pages.handle p a s))
  /\ (forall default q ctx outs,
        1 <= List.length (fst (fetch default q ctx outs)) <= 1 + retries default q)
  /\ (forall default ctx outs,
        List.length (fst (fetch default Text2Cypher.schemaQuery ctx outs)) = 1)
  /\ (forall default ctx outs,
        List.length (fst (fetch default AgenticRAG.toolsQuery ctx outs)) <= 4)
  /\ (forall default ctx outs,
        Forall (eq false) outs -> 4 <= List.length outs ->
        fetch default AgenticRAG.toolsQuery ctx outs
        = (repeat (agenticRAGAPI_getTools []) 4, Some false)).
Proof.
  split; [|split; [|split; [|split]]].
  - apply handlers_never_reissue.
  - intros default q ctx outs. unfold fetch.
    pose proof (attempt_at_least_one (queryFn q) ctx (retries default q) 0 outs).
    pose proof (attempt_length (queryFn q) ctx (retries default q) 0 outs).
    lia.
  - intros default ctx outs. unfold fetch.
    pose proof (attempt_length (queryFn Text2Cypher.schemaQuery) ctx
                  (retries default Text2Cypher.schemaQuery) 0 outs) as Hle.
    pose proof (attempt_at_least_one (queryFn Text2Cypher.schemaQuery) ctx
                  (retries default Text2Cypher.schemaQuery) 0 outs) as Hge.
    cbn in *. lia.
  - intros default ctx outs. unfold fetch.
    pose proof (attempt_length (queryFn AgenticRAG.toolsQuery) ctx
                  (retries default AgenticRAG.toolsQuery) 0 outs) as Hle.
    cbn in *. lia.
  - intros default ctx outs Hf Hl. unfold fetch.
    rewrite attempt_all_fail; [reflexivity | assumption | cbn; lia].
Qed.

(** C3 fails as stated on the Agentic RAG page: the tools query is
    configured with [retry: 3], so one fetch whose attempts fail sends the
    same GET /api/agentic-rag/tools four times before it gives up. *)
Lemma tools_query_is_retried :
  fetch 0 AgenticRAG.toolsQuery JUndefined [false; false; false; false]
  = ([agenticRAGAPI_getTools []; agenticRAGAPI_getTools [];
      agenticRAGAPI_getTools []; agenticRAGAPI_getTools []], Some false)
  /\ ~ List.length
         (fst (fetch 0 AgenticRAG.toolsQuery JUndefined [false; false; false; false]))
       <= 1.
Proof. split; [reflexivity | cbn; lia]. Qed.

(** ** Submissions that overlap *)

Section Overlap.

Lemma run_sync_pending {S} now (p : proc S) (w : world S) :
  exists more, pending (run_sync now p w) = pending w ++ more.
Proof.
  revert w. induction p as [|f k IH|k IH|e k IH|k IH|a IHa k IHk|r k IH];
    intros w; simpl.
  - exists []. now rewrite app_nil_r.
  - apply (IH {| state := f (state w); pending := pending w; log := log w |}).
  - apply IH.
  - apply (IH {| state := state w; pending := pending w; log := log w ++ [Did e] |}).
  - apply IH.
  - destruct (IHa w) as [m1 H1].
    destruct (IHk (run_sync now a w)) as [m2 H2].
    exists (m1 ++ m2). now rewrite H2, H1, app_assoc.
  - now exists [(r, k)].
Qed.

(** Resuming a continuation that shows its response. *)
Lemma settle_shows (f : Panels.form) now i r req k
    (w : world (Pages.state (Panels.page_of f))) :
  nth_error (pending w) i = Some (req, k) ->
  Panels.shows f k ->
  Panels.displayable f r = true ->
  Panels.display f (state (step (Settle now i (Resolved r)) w)) = Panels.shown f r.
Proof.
  intros E Hk Hd. simpl. rewrite E. now apply Hk.
Qed.

Lemma settle_pending {S} now i o req k (w : world S) :
  nth_error (pending w) i = Some (req, k) ->
  exists more,
    pending (step (Settle now i o) w) = remove_nth i (pending w) ++ more.
Proof.
  intros E. simpl. rewrite E.
  apply (run_sync_pending now (k o)
           {| state := state w; pending := remove_nth i (pending w); log := log w |}).
Qed.

(** What the user types next is judged on its own: submitting first
    changes neither the text fields nor the generated query.  The chat is
    the exception, it remembers that a query is in flight. *)
Lemma ready_after_typing (f : Panels.form) (s : Pages.state (Panels.page_of f))
    (qB : jsstring) (t1 t2 : Z) :
  f <> Panels.RAGChatForm ->
  Panels.ready f
    (state (step (Invoke t2 (Pages.handle (Panels.page_of f) (Panels.type_in f qB)))
              (step (Invoke t1 (Pages.handle (Panels.page_of f) (Panels.submit f)))
                 (init s))))
  = Panels.ready f
      (state (step (Invoke t2 (Pages.handle (Panels.page_of f) (Panels.type_in f qB)))
                (init s))).
Proof.
  intros Hf.
  destruct f; try congruence;
    cbn [Panels.page_of Panels.submit Panels.type_in step] in *;
    autounfold with handlers; cbn;
    repeat match goal with
    | |- context [if ?b then _ else _] => destruct b eqn:?; cbn
    | |- context [match ?x with _ => _ end] => destruct x eqn:?; cbn
    end;
    reflexivity.
Qed.

(** The chat refuses whatever is typed while its query is in flight. *)
Lemma chat_not_ready_while_loading (f : Panels.form)
    (s : Pages.state (Panels.page_of f)) (qB : jsstring) (t1 t2 : Z) :
  f = Panels.RAGChatForm ->
  Panels.ready f s = true ->
  Panels.ready f
    (state (step (Invoke t2 (Pages.handle (Panels.page_of f) (Panels.type_in f qB)))
              (step (Invoke t1 (Pages.handle (Panels.page_of f) (Panels.submit f)))
                 (init s))))
  = false.
Proof.
  intros -> H. cbn in H. apply andb_prop in H. destruct H as [Hb Hl].
  apply negb_true_iff in Hb. apply negb_true_iff in Hl.
  cbn [Panels.page_of Panels.submit Panels.type_in step Pages.handle Pages.state] in *.
  change (Pages.state Pages.RAGChat) with RAGChat.state in *.
  cbn [RAGChat.handle]. unfold RAGChat.handleSubmit.
  cbn [state init]. rewrite is_empty_trim, Hb, Hl. cbn.
  apply andb_false_r.
Qed.

End Overlap.

(** C7. Two submissions are made one after the other, each with the form
    ready for it, and the responses arrive in the opposite order.  On every
    form the panel ends showing the response that settled last.  On every
    form but the chat both requests are in flight together: the panel
    shows the second response when it arrives, and the first response once
    that has arrived after it.  The chat refuses the second submission
    while its query is in flight, so the response that settles last is the
    only one. *)
Theorem last_settled_wins (f : Panels.form)
    (s : Pages.state (Panels.page_of f)) (qB : jsstring) (rA rB : response)
    (t1 t2 t3 t4 t5 : Z) :
  let submitted :=
    Pages.play [@Pages.Act (Panels.page_of f) t1 (Panels.submit f);
                @Pages.Act (Panels.page_of f) t2 (Panels.type_in f qB);
                @Pages.Act (Panels.page_of f) t3 (Panels.submit f)] (init s) in
  let afterB := Pages.play [Pages.Settled t4 1 (Resolved rB)] submitted in
  let afterA := Pages.play [Pages.Settled t5 0 (Resolved rA)] afterB in
  Panels.ready f s = true ->
  Panels.ready f
    (state (Pages.play [@Pages.Act (Panels.page_of f) t2 (Panels.type_in f qB)]
              (init s))) = true ->
  Panels.displayable f rA = true ->
  Panels.displayable f rB = true ->
  Panels.display f (state afterA) = Panels.shown f rA
  /\ (f <> Panels.RAGChatForm ->
      List.length (pending submitted) = 2
      /\ Panels.display f (state afterB) = Panels.shown f rB)
  /\ (f = Panels.RAGChatForm ->
      List.length (pending submitted) = 1 /\ afterB = submitted).
Proof.
  cbv zeta. intros H1 H2 HA HB.
  unfold Pages.play in *. cbn [map Pages.event_of run] in *.
  set (w1 := step (Invoke t1 (Pages.handle (Panels.page_of f) (Panels.submit f)))
               (init s)) in *.
  set (w2 := step (Invoke t2 (Pages.handle (Panels.page_of f) (Panels.type_in f qB)))
               w1) in *.
  set (w3 := step (Invoke t3 (Pages.handle (Panels.page_of f) (Panels.submit f)))
               w2) in *.
  destruct (ready_submission_sends f t1 (init s) H1) as (reqA & kA & Hp1 & _ & HkA).
  fold w1 in Hp1. cbn [pending init app] in Hp1.
  pose proof (type_in_pending f t2 qB w1) as Hp2. fold w2 in Hp2.
  rewrite Hp1 in Hp2.
  destruct (Panels.form_eq_dec f Panels.RAGChatForm) as [Hf | Hf].
  - (* the chat: the second submission is refused *)
    pose proof (chat_not_ready_while_loading f s qB t1 t2 Hf H1) as R2.
    fold w1 in R2. fold w2 in R2.
    destruct (unready_submission_sends_nothing f t3 w2 R2) as [Hp3 _].
    fold w3 in Hp3. rewrite Hp2 in Hp3.
    assert (HB' : step (Settle t4 1 (Resolved rB)) w3 = w3).
    { cbn [step]. now rewrite Hp3. }
    rewrite HB'.
    split; [|split].
    + apply (settle_shows f t5 0 rA reqA kA w3); [now rewrite Hp3 | assumption..].
    + intros Hn. contradiction.
    + intros _. rewrite Hp3. auto.
  - (* every other form: both requests are in flight *)
    assert (R2 : Panels.ready f (state w2) = true).
    { unfold w2, w1. rewrite ready_after_typing by assumption. exact H2. }
    destruct (ready_submission_sends f t3 w2 R2) as (reqB & kB & Hp3 & _ & HkB).
    fold w3 in Hp3. rewrite Hp2 in Hp3. cbn [app] in Hp3.
    split; [|split].
    + destruct (settle_pending t4 1 (Resolved rB) reqB kB w3) as [more Hmore];
        [now rewrite Hp3|].
      rewrite Hp3 in Hmore.
      change (remove_nth 1 [(reqA, kA); (reqB, kB)]) with [(reqA, kA)] in Hmore.
      apply (settle_shows f t5 0 rA reqA kA
               (step (Settle t4 1 (Resolved rB)) w3));
        [now rewrite Hmore | assumption..].
    + intros _. split; [now rewrite Hp3|].
      apply (settle_shows f t4 1 rB reqB kB w3); [now rewrite Hp3 | assumption..].
    + intros Hn. contradiction.
Qed.

(** An instance on the Graph RAG form: two questions, answered in the
    opposite order. *)
Lemma last_settled_wins_witness :
  let s := {| GraphRAG.question := lit "Who are the main characters?";
              GraphRAG.searchType := lit "global";
              GraphRAG.result := JNull;
              GraphRAG.globalMutation := idle;
              GraphRAG.localMutation := idle;
              GraphRAG.communitiesMutation := idle |} in
  let rA := [("data", JObj [("answer", JStr (lit "Neo and Trinity"))])] in
  let rB := [("data", JObj [("answer", JStr (lit "They are allies"))])] in
  let submitted :=
    @Pages.play Pages.GraphRAG
      [@Pages.Act Pages.GraphRAG 0 GraphRAG.Submit;
       @Pages.Act Pages.GraphRAG 1 (GraphRAG.ChangeQuestion (lit "How are they related?"));
       @Pages.Act Pages.GraphRAG 2 GraphRAG.Submit] (init s) in
  let afterB := @Pages.play Pages.GraphRAG [Pages.Settled 3 1 (Resolved rB)] submitted in
  let afterA := @Pages.play Pages.GraphRAG [Pages.Settled 4 0 (Resolved rA)] afterB in
  GraphRAG.result (state afterA) = JObj [("answer", JStr (lit "Neo and Trinity"))]
  /\ List.length (pending submitted) = 2
  /\ GraphRAG.result (state afterB) = JObj [("answer", JStr (lit "They are allies"))].
Proof.
  cbv zeta.
  pose proof (last_settled_wins Panels.GraphRAGForm
           {| GraphRAG.question := lit "Who are the main characters?";
              GraphRAG.searchType := lit "global";
              GraphRAG.result := JNull;
              GraphRAG.globalMutation := idle;
              GraphRAG.localMutation := idle;
              GraphRAG.communitiesMutation := idle |}
           (lit "How are they related?")
           [("data", JObj [("answer", JStr (lit "Neo and Trinity"))])]
           [("data", JObj [("answer", JStr (lit "They are allies"))])]
           0 1 2 3 4 eq_refl eq_refl eq_refl eq_refl) as H.
  cbv zeta in H. destruct H as [HA [HB _]].
  split; [exact HA|]. apply HB. discriminate.
Defined.

(** The same on the chat: the second question is refused, and the panel
    ends with the answer to the first. *)
Remark chat_second_submission_is_refused (mounted : Z) (body rest : list (string * jsval)) :
  let s := RAGChat.setInput (lit "Who directed The Matrix?") (RAGChat.initial mounted) in
  let submitted :=
    @Pages.play Pages.RAGChat
      [@Pages.Act Pages.RAGChat 0 RAGChat.Submit;
       @Pages.Act Pages.RAGChat 1 (RAGChat.ChangeInput (lit "And the sequel?"));
       @Pages.Act Pages.RAGChat 2 RAGChat.Submit] (init s) in
  map (fun r => data r) (requests (log submitted))
  = [JObj [("question", JStr (lit "Who directed The Matrix?"));
           ("search_type", JStr (lit "hybrid"))]]
  /\ RAGChat.input (state submitted) = lit "And the sequel?"
  /\ Panels.display Panels.RAGChatForm
       (state (@Pages.play Pages.RAGChat
                 [Pages.Settled 3 0 (Resolved (("data", JObj body) :: rest))] submitted))
     = lookup "answer" body.
Proof.
  cbv zeta. split; [reflexivity|]. split; [reflexivity|].
  unfold Pages.play. cbn. unfold RAGChat.last_message. cbn. reflexivity.
Qed.

(** ** Remarks *)

(** The chat refuses a submission while its query is loading, so two of
    its requests are never in flight together after two submissions. *)
Remark chat_submits_one_at_a_time (s : RAGChat.state) (qB : jsstring) (t1 t2 t3 : Z) :
  List.length
    (pending (@Pages.play Pages.RAGChat
                [@Pages.Act Pages.RAGChat t1 RAGChat.Submit;
                 @Pages.Act Pages.RAGChat t2 (RAGChat.ChangeInput qB);
                 @Pages.Act Pages.RAGChat t3 RAGChat.Submit] (init s)))
  <= 1.
Proof.
  destruct s as [ms inp st [cur ld]].
  unfold Pages.play. cbv -[trim is_empty].
  destruct (is_empty (trim inp)), ld, (is_empty (trim qB)); cbv; lia.
Qed.

(** The domain modules themselves take an empty question. *)
Remark domain_modules_accept_empty :
  data (ragAPI_query [JStr []])
  = JObj [("question", JStr []); ("search_type", JStr (lit "hybrid"))].
Proof. reflexivity. Qed.

(** The client would honour a per-request timeout, had a caller passed one. *)
Remark per_request_timeout_would_win path body h t :
  timeout (api_post path body {| cfg_headers := h; cfg_timeout := Some t |}) = t.
Proof. reflexivity. Qed.

(** The Graph RAG and contract forms pass their variables object the same
    way as the entity form: the object becomes the value of the field. *)
Remark graph_submit_nests_question (s : GraphRAG.state) (now : Z) :
  map data (requests (log (step (Invoke now GraphRAG.handleSubmit) (init s))))
  = if blank (GraphRAG.question s) then []
    else [ JObj [("question", JObj [("question", JStr (GraphRAG.question s))])] ].
Proof.
  cbn. unfold GraphRAG.handleSubmit. rewrite is_empty_trim.
  destruct (blank (GraphRAG.question s)); [reflexivity|].
  destruct (str_eqb (GraphRAG.searchType s) (lit "global")); reflexivity.
Qed.

(** The contract form does the same with its text: the variables object
    becomes the value of [contract_text]; a blank text sends nothing. *)
Remark contract_submit_nests_text (s : ContractExtraction.state) (now : Z) :
  map data (requests (log (step (Invoke now ContractExtraction.handleSubmit) (init s))))
  = if blank (ContractExtraction.contractText s) then []
    else [ JObj [("contract_text",
                  JObj [("contractText", JStr (ContractExtraction.contractText s))])] ].
Proof.
  cbn. unfold ContractExtraction.handleSubmit. rewrite is_empty_trim.
  destruct (blank (ContractExtraction.contractText s)); reflexivity.
Qed.

(* ===================================================================== *)
(** * Further properties *)
(* ===================================================================== *)

(** ** The client and the domain modules *)

(** No two functions of the domain modules share a path: a function is
    determined by the path of the request it emits. *)
Theorem operations_have_distinct_paths (o1 o2 : operation) (args1 args2 : list jsval) :
  o1 = o2 \/ url (call o1 args1) <> url (call o2 args2).
Proof.
  destruct o1, o2; first [left; reflexivity | right; discriminate].
Qed.

(** A request has a body exactly when its function has something to send.
    The functions that read and the five that post without a parameter
    send none.  The upload sends form data, with its argument under the
    name "file".  Every other function sends an object, whatever it is
    called with, also when it is called with no argument at all: no
    function hands a bare string, array or number to the client. *)
Theorem bodies_of_requests (o : operation) (args : list jsval) :
  match data (call o args) with
  | JUndefined =>
      method (call o args) = GET
      \/ In o [T2cLoadMoviesDataset; GraphCalculateCommunities;
               KgCreateConstraints; KgClear; DbReset]
  | JFormData fields => o = PdfUploadPDF /\ fields = [("file", arg 0 args)]
  | JObj fields =>
      method (call o args) = POST /\ o <> PdfUploadPDF /\ fields <> []
  | _ => False
  end
  /\ (method (call o args) = GET -> data (call o args) = JUndefined)
  /\ (In o [T2cLoadMoviesDataset; GraphCalculateCommunities;
            KgCreateConstraints; KgClear; DbReset] ->
      method (call o args) = POST /\ data (call o args) = JUndefined).
Proof.
  destruct o; cbn; (split; [|split]).
  all: try (intros Hm; first [reflexivity | discriminate Hm]).
  all: try (intros Hin; repeat (destruct Hin as [Hin|Hin]; try discriminate Hin);
            first [contradiction | split; reflexivity]).
  all: first [ left; reflexivity
             | right; tauto
             | split; [reflexivity | split; discriminate]
             | split; reflexivity ].
Qed.

(** ** What the pages send *)

Section PageRequests.

Ltac from_domain_module :=
  first
    [ exists PdfUploadPDF; eexists; reflexivity
    | exists PdfDownloadPDF; eexists; reflexivity
    | exists RagQuery; eexists; reflexivity
    | exists RagStepbackQuery; eexists; reflexivity
    | exists T2cQuery; eexists; reflexivity
    | exists T2cLoadMoviesDataset; eexists; reflexivity
    | exists AgenticQuery; eexists; reflexivity
    | exists EntityExtract; eexists; reflexivity
    | exists ContractExtract; eexists; reflexivity
    | exists GraphGlobalQuery; eexists; reflexivity
    | exists GraphLocalQuery; eexists; reflexivity
    | exists GraphCalculateCommunities; eexists; reflexivity
    | exists KgExtract; eexists; reflexivity
    | exists KgImport; eexists; reflexivity
    | exists KgGetSampleContract; eexists; reflexivity
    | exists KgGetGraphData; eexists; reflexivity
    | exists KgQuery; eexists; reflexivity
    | exists KgCreateConstraints; eexists; reflexivity
    | exists KgGetStatistics; eexists; reflexivity
    | exists KgClear; eexists; reflexivity
    | exists DbReset; eexists; reflexivity ].

Lemma handlers_call_domain_modules p a s :
  sends_only (fun r => exists o args, r = call o args) (Pages.handle p a s).
Proof.
  unfold sends_only.
  destruct p; destruct a; handler_cases; from_domain_module.
Qed.

End PageRequests.

(** Whatever the user does on a page and however the requests settle,
    every request the page sends is one a function of the domain modules
    emits: no page talks to the client directly. *)
Theorem pages_send_through_domain_modules (p : Pages.page)
    (hs : list (Pages.happening p)) (s : Pages.state p) :
  Forall (fun r => exists o args, r = call o args)
         (requests (log (Pages.play hs (init s)))).
Proof.
  apply (play_requests p (fun r _ => exists o args, r = call o args)).
  - intros a s'. apply handlers_call_domain_modules.
  - auto.
  - apply init_in_flight.
  - constructor.
Qed.

(** ** Destructive requests, counted *)

Section DestructiveCount.
Import Drive.

Lemma destructive_sent_app l1 l2 :
  destructive_sent (l1 ++ l2) = destructive_sent l1 + destructive_sent l2.
Proof.
  unfold destructive_sent. now rewrite requests_app, filter_app, length_app.
Qed.

Lemma sends_only_then {S} (P : request -> Prop) (p : proc S) :
  sends_only P p -> then_sends_only P p.
Proof.
  unfold sends_only, then_sends_only.
  induction p as [|f k IH|k IH|e k IH|k IH|a IHa k IHk|r k IH]; simpl; auto.
  - intros [Ha Hk]. auto.
  - intros [_ Hk]. split; auto.
Qed.

Lemma run_sync_resumes {S} (P : request -> Prop) now (p : proc S) w :
  then_sends_only P p -> resumes_sending P w ->
  resumes_sending P (run_sync now p w).
Proof.
  unfold then_sends_only, resumes_sending. revert w.
  induction p as [|f k IH|k IH|e k IH|k IH|a IHa k IHk|r k IH];
    intros w Hp Hw; simpl in *.
  - assumption.
  - now apply IH.
  - now apply IH.
  - now apply IH.
  - now apply IH.
  - destruct Hp as [Ha Hk]. auto.
  - apply Forall_app. split; [assumption|].
    constructor; [|constructor]. simpl. apply Hp.
Qed.

Lemma run_sync_quiet {S} now (p : proc S) w :
  sends_only (fun r => is_destructive r = false) p ->
  destructive_sent (log (run_sync now p w)) = destructive_sent (log w).
Proof.
  unfold sends_only. revert w.
  induction p as [|f k IH|k IH|e k IH|k IH|a IHa k IHk|r k IH];
    intros w Hp; simpl in *.
  - reflexivity.
  - now rewrite IH.
  - now rewrite IH.
  - rewrite IH by assumption. simpl. rewrite destructive_sent_app. simpl.
    unfold destructive_sent at 2. simpl. lia.
  - now rewrite IH.
  - destruct Hp as [Ha Hk]. now rewrite IHk, IHa.
  - rewrite destructive_sent_app. unfold destructive_sent at 2. simpl.
    destruct Hp as [-> _]. simpl. lia.
Qed.

Lemma handlers_destroy_first p a s :
  then_sends_only (fun r => is_destructive r = false) (Pages.handle p a s).
Proof.
  unfold then_sends_only, sends_only.
  destruct p; destruct a; handler_cases; reflexivity.
Qed.

Lemma act_destructive_sent p now (a : Pages.action p) (w : world (Pages.state p)) :
  destructive_sent (log (step (Invoke now (Pages.handle p a)) w))
  = destructive_sent (log w)
    + (if is_confirmed_destruction (Pages.Act now a) then 1 else 0).
Proof.
  destruct p; destruct a; cbn [step is_confirmed_destruction];
    autounfold with handlers; cbn -[destructive_sent];
    repeat match goal with
    | |- context [if ?b then _ else _] => destruct b eqn:?; cbn -[destructive_sent]
    | |- context [match ?x with _ => _ end] => destruct x eqn:?; cbn -[destructive_sent]
    end;
    rewrite ?destructive_sent_app; unfold destructive_sent; cbn; lia.
Qed.

End DestructiveCount.

(** On every page and in every sequence of user actions and settlements,
    the requests sent to the two destructive endpoints are as many as the
    destructive actions the user confirmed: none is sent on a declined
    confirmation, by a callback, or by a page without such an action. *)
Theorem destruction_only_when_confirmed (p : Pages.page)
    (hs : list (Pages.happening p)) (s : Pages.state p) :
  Drive.destructive_sent (log (Pages.play hs (init s)))
  = List.length (filter Drive.is_confirmed_destruction hs).
Proof.
  assert (H : forall w,
             resumes_sending (fun r => Drive.is_destructive r = false) w ->
             Drive.destructive_sent (log (Pages.play hs w))
             = Drive.destructive_sent (log w)
               + List.length (filter Drive.is_confirmed_destruction hs)).
  { induction hs as [|h hs IH]; intros w Hw.
    - change (Pages.play [] w) with w. simpl. lia.
    - change (Pages.play (h :: hs) w)
        with (Pages.play hs (step (Pages.event_of h) w)).
      destruct h as [now a | now i o].
      + rewrite IH.
        * cbn [Pages.event_of]. rewrite act_destructive_sent.
          cbn [filter].
          destruct (Drive.is_confirmed_destruction (Pages.Act now a));
            simpl; lia.
        * cbn [Pages.event_of step]. apply run_sync_resumes; [|assumption].
          apply handlers_destroy_first.
      + assert (Hstep :
          resumes_sending (fun r => Drive.is_destructive r = false)
            (step (Settle now i o) w)
          /\ Drive.destructive_sent (log (step (Settle now i o) w))
             = Drive.destructive_sent (log w)).
        { simpl. destruct (nth_error (pending w) i) as [[r k]|] eqn:E; [|auto].
          apply nth_error_In in E.
          unfold resumes_sending in Hw. pose proof Hw as Hw'.
          rewrite Forall_forall in Hw'. specialize (Hw' _ E o). simpl in Hw'.
          split.
          - apply run_sync_resumes; [now apply sends_only_then|].
            unfold resumes_sending. simpl. now apply remove_nth_Forall.
          - now rewrite run_sync_quiet. }
        destruct Hstep as [Hr Hc].
        rewrite IH by exact Hr. cbn [Pages.event_of]. rewrite Hc.
        reflexivity. }
  rewrite H; [reflexivity | constructor].
Qed.

(** ** Invariants of a page's state *)

Section Invariants.
Context {S : Type}.
Variable P : (S -> S) -> Prop.
Variable I : S -> Prop.
Hypothesis P_keeps : forall f, P f -> forall s, I s -> I (f s).

Lemma run_sync_invariant now (p : proc S) (w : world S) :
  every_update P p -> resumes_with P w -> I (state w) ->
  resumes_with P (run_sync now p w) /\ I (state (run_sync now p w)).
Proof.
  revert w. induction p as [|f k IH|k IH|e k IH|k IH|a IHa k IHk|r k IH];
    intros w Hp Hw Hs; simpl in *.
  - auto.
  - destruct Hp as [Hf Hk]. apply IH; auto. simpl. now apply (P_keeps f).
  - apply IH; auto.
  - apply IH; auto.
  - apply IH; auto.
  - destruct Hp as [Ha Hk]. destruct (IHa w Ha Hw Hs) as [Hw' Hs']. auto.
  - split; [|assumption]. unfold resumes_with in *. simpl.
    apply Forall_app. split; [assumption|]. constructor; [|constructor].
    exact Hp.
Qed.

Lemma step_invariant (e : event S) (w : world S) :
  (forall now h, e = Invoke now h -> forall s, every_update P (h s)) ->
  resumes_with P w -> I (state w) ->
  resumes_with P (step e w) /\ I (state (step e w)).
Proof.
  intros He Hw Hs. destruct e as [now h | now i o]; simpl.
  - apply run_sync_invariant; auto. now apply (He now h).
  - destruct (nth_error (pending w) i) as [[r k]|] eqn:E; [|auto].
    apply nth_error_In in E. pose proof Hw as Hw'.
    unfold resumes_with in Hw'. rewrite Forall_forall in Hw'.
    apply run_sync_invariant; simpl; auto.
    + exact (Hw' _ E o).
    + unfold resumes_with in *. simpl. now apply remove_nth_Forall.
Qed.

End Invariants.

Section PageInvariants.
Variable p : Pages.page.
Variable I : Pages.state p -> Prop.
Hypothesis handlers : forall a s, maintains I (Pages.handle p a s).

(** An invariant every update of every handler keeps holds throughout
    every play that starts where it holds. *)
Lemma play_invariant hs (s : Pages.state p) :
  I s -> I (state (Pages.play hs (init s))).
Proof.
  intros Hs.
  assert (H : forall w,
             resumes_with (fun f => forall s, I s -> I (f s)) w -> I (state w) ->
             I (state (Pages.play hs w))).
  { induction hs as [|h hs IH]; intros w Hw Hi; [assumption|].
    change (Pages.play (h :: hs) w)
      with (Pages.play hs (step (Pages.event_of h) w)).
    destruct (step_invariant (fun f => forall s, I s -> I (f s)) I
                (fun f Hf => Hf) (Pages.event_of h) w) as [Hw' Hi']; auto.
    intros now f E s0. destruct h; simpl in E; [|discriminate].
    injection E as _ <-. apply handlers. }
  apply H; [constructor | assumption].
Qed.

End PageInvariants.

(** ** The chat *)

Section Chat.

Lemma chat_handlers_append ms a s :
  maintains (fun st => exists more, RAGChat.messages st = ms ++ more)
    (Pages.handle Pages.RAGChat a s).
Proof.
  unfold maintains.
  destruct a; handler_cases;
    match goal with
    | H : exists _, _ |- _ => destruct H as [more H]
    end;
    try (exists more; assumption);
    unfold RAGChat.push, RAGChat.set_messages; cbn;
    match goal with
    | H : _ = _ ++ ?more |- exists _, _ ++ [?m] = _ =>
        exists (more ++ [m]); rewrite H; apply eq_sym, app_assoc
    end.
Qed.

End Chat.

(** The chat history is append-only: whatever the user does and however
    the requests settle, the messages displayed at any earlier moment are
    still there, in the same order, before whatever was added since. *)
Theorem chat_history_is_append_only (hs : list (Pages.happening Pages.RAGChat))
    (s : RAGChat.state) :
  exists more,
    RAGChat.messages (state (Pages.play hs (init s))) = RAGChat.messages s ++ more.
Proof.
  apply (play_invariant Pages.RAGChat
           (fun st => exists more, RAGChat.messages st = RAGChat.messages s ++ more)).
  - intros a s'. apply chat_handlers_append.
  - exists []. now rewrite app_nil_r.
Qed.

(** An accepted submission of the chat sends one request, chosen by the
    search type: "stepback" goes to /api/rag/stepback with the question
    alone, any other type to /api/rag/query with the type as
    [search_type]; a blank input or a query in flight sends nothing. *)
Theorem chat_routes_by_search_type (s : RAGChat.state) (now : Z) :
  map (fun r => (method r, url r, data r))
      (requests (log (@Pages.play Pages.RAGChat
                        [@Pages.Act Pages.RAGChat now RAGChat.Submit] (init s))))
  = if blank (RAGChat.input s) || isLoading (RAGChat.queryMutation s) then []
    else if str_eqb (RAGChat.searchType s) (lit "stepback")
    then [ (POST, "/api/rag/stepback",
            JObj [("question", JStr (RAGChat.input s))]) ]
    else [ (POST, "/api/rag/query",
            JObj [("question", JStr (RAGChat.input s));
                  ("search_type", JStr (RAGChat.searchType s))]) ].
Proof.
  unfold Pages.play. cbn [map Pages.event_of run step Pages.handle RAGChat.handle].
  change (state (init s)) with s.
  unfold RAGChat.handleSubmit. rewrite is_empty_trim.
  destruct (blank (RAGChat.input s) || isLoading (RAGChat.queryMutation s));
    [reflexivity|].
  autounfold with handlers. cbn.
  destruct (str_eqb (RAGChat.searchType s) (lit "stepback")) eqn:E.
  - change [115; 116; 101; 112; 98; 97; 99; 107]%N with (lit "stepback").
    rewrite E. reflexivity.
  - change [115; 116; 101; 112; 98; 97; 99; 107]%N with (lit "stepback").
    rewrite E. cbn. destruct (RAGChat.searchType s); reflexivity.
Qed.

Section ChatInFlight.

(** Resumed in a state whose observer still follows mutation [id], the
    continuation awaits nothing more and leaves the observer idle. *)
Let completes (k : outcome -> proc RAGChat.state) (id : nat) : Prop :=
  forall o now s l,
    current (RAGChat.queryMutation s) = id ->
    let w := run_sync now (k o) {| state := s; pending := []; log := l |} in
    pending w = [] /\ isLoading (RAGChat.queryMutation (state w)) = false.

Let settled_or_single (w : world RAGChat.state) : Prop :=
  match pending w with
  | [] => isLoading (RAGChat.queryMutation (state w)) = false
  | [(_, k)] =>
      isLoading (RAGChat.queryMutation (state w)) = true
      /\ completes k (current (RAGChat.queryMutation (state w)))
  | _ => False
  end.

Lemma chat_step_single (h : Pages.happening Pages.RAGChat)
    (w : world RAGChat.state) :
  settled_or_single w -> settled_or_single (step (Pages.event_of h) w).
Proof.
  unfold settled_or_single. intros Hw.
  change (Pages.state Pages.RAGChat) with RAGChat.state in *.
  destruct h as [now a | now i o]; cbn [Pages.event_of step].
  - destruct a as [v | v |]; cbn [Pages.handle RAGChat.handle run_sync].
    + cbn. destruct (pending w) as [|[r k] [|? ?]]; auto.
    + cbn. destruct (pending w) as [|[r k] [|? ?]]; auto.
    + unfold RAGChat.handleSubmit.
      destruct (pending w) as [|[r k] [|? ?]] eqn:Ep; try contradiction.
      * rewrite Hw, orb_false_r.
        destruct (is_empty (trim (RAGChat.input (state w)))).
        -- cbn. now rewrite Ep.
        -- autounfold with handlers. cbn. rewrite Ep. cbn. split; [reflexivity|].
           unfold completes. intros o t s l Hid.
           destruct o as [r|e]; cbn.
           ++ destruct (RAGChat.botMessage 0 r _); cbn;
                try destruct (RAGChat.botMessage t r _); cbn;
                rewrite Hid, Nat.eqb_refl; cbn; auto.
           ++ rewrite Hid, Nat.eqb_refl. cbn. auto.
      * destruct Hw as [Hl Hk]. rewrite Hl, orb_true_r. cbn. rewrite Ep. auto.
  - destruct (pending w) as [|[r k] [|? ?]] eqn:Ep; try contradiction.
    + destruct i; cbn; now rewrite Ep.
    + destruct Hw as [Hl Hk]. destruct i as [|i].
      * cbn [nth_error remove_nth].
        destruct (Hk o now (state w) (log w) eq_refl) as [Hp Hq].
        cbv zeta in Hp, Hq. now rewrite Hp.
      * destruct i; cbn; rewrite Ep; auto.
Qed.

Lemma chat_play_single (hs : list (Pages.happening Pages.RAGChat))
    (w : world RAGChat.state) :
  settled_or_single w -> settled_or_single (@Pages.play Pages.RAGChat hs w).
Proof.
  revert w. induction hs as [|h hs IH]; intros w Hw; [assumption|].
  change (@Pages.play Pages.RAGChat (h :: hs) w)
    with (@Pages.play Pages.RAGChat hs (step (Pages.event_of h) w)).
  now apply IH, chat_step_single.
Qed.

Lemma chat_single_from_idle (hs : list (Pages.happening Pages.RAGChat))
    (s : RAGChat.state) :
  isLoading (RAGChat.queryMutation s) = false ->
  let w := @Pages.play Pages.RAGChat hs (init s) in
  List.length (pending w) <= 1
  /\ (isLoading (RAGChat.queryMutation (state w)) = true <-> pending w <> []).
Proof.
  intros Hs. cbv zeta.
  pose proof (chat_play_single hs (init s) Hs) as H.
  unfold settled_or_single in H.
  set (w := @Pages.play Pages.RAGChat hs (init s)) in *.
  change (world RAGChat.state) in (type of w).
  change (Pages.state Pages.RAGChat) with RAGChat.state.
  destruct (pending w) as [|[r k] [|? ?]]; simpl in H; try contradiction; simpl.
  - split; [lia|]. rewrite H. split; [discriminate | congruence].
  - destruct H as [-> _]. split; [lia|]. split; [discriminate | reflexivity].
Qed.

End ChatInFlight.

(** From the moment the chat is mounted, whatever the user does and however
    the requests settle, at most one request of the chat is in flight, and
    the page is in its loading state exactly while one is. *)
Theorem chat_one_in_flight (mounted : Z)
    (hs : list (Pages.happening Pages.RAGChat)) :
  let w := @Pages.play Pages.RAGChat hs (init (RAGChat.initial mounted)) in
  List.length (pending w) <= 1
  /\ (isLoading (RAGChat.queryMutation (state w)) = true <-> pending w <> []).
Proof.
  apply chat_single_from_idle. reflexivity.
Qed.

(** A request of the chat that is rejected, or fulfilled without a body
    whose fields can be read, ends the same way: one apology message is
    appended after the user's message, an error toast is shown, the input
    stays cleared and the page leaves its loading state. *)
Theorem chat_unreadable_response (s : RAGChat.state) (t0 t1 : Z) (o : outcome) :
  blank (RAGChat.input s) = false ->
  isLoading (RAGChat.queryMutation s) = false ->
  match o with
  | Rejected _ => True
  | Resolved r => Panels.has_body r = false
  end ->
  let w := @Pages.play Pages.RAGChat
             [@Pages.Act Pages.RAGChat t0 RAGChat.Submit;
              Pages.Settled t1 0 o] (init s) in
  RAGChat.messages (state w)
  = RAGChat.messages s
    ++ [RAGChat.userMessage t0 (RAGChat.input s); RAGChat.errorMessage t1]
  /\ log w = [Sent (RAGChat.mutationFn
                      [JObj [("question", JStr (RAGChat.input s));
                             ("type", JStr (RAGChat.searchType s))]]);
              Did (ToastError "Failed to get response" None)]
  /\ RAGChat.input (state w) = []
  /\ isLoading (RAGChat.queryMutation (state w)) = false
  /\ pending w = [].
Proof.
  intros Hb Hl Ho. cbv zeta.
  unfold Pages.play. cbn [map Pages.event_of run step Pages.handle RAGChat.handle].
  change (state (init s)) with s.
  unfold RAGChat.handleSubmit. rewrite is_empty_trim, Hb, Hl.
  autounfold with handlers. cbn.
  destruct o as [r|e]; cbn.
  - unfold Panels.has_body in Ho. unfold RAGChat.botMessage.
    destruct (response_data r); try discriminate Ho; cbn;
      rewrite Nat.eqb_refl; cbn; rewrite <- app_assoc; auto.
  - rewrite Nat.eqb_refl. cbn. rewrite <- app_assoc. auto.
Qed.

(** An instance: a 200 response whose body is [null]. *)
Lemma chat_unreadable_response_witness :
  RAGChat.messages
    (state (@Pages.play Pages.RAGChat
              [@Pages.Act Pages.RAGChat 5 RAGChat.Submit;
               Pages.Settled 9 0 (Resolved [("data", JNull); ("status", JNum 200)])]
              (init (RAGChat.setInput (lit "Who directed The Matrix?")
                       (RAGChat.initial 0)))))
  = [RAGChat.greeting 0;
     RAGChat.userMessage 5 (lit "Who directed The Matrix?");
     RAGChat.errorMessage 9].
Proof.
  exact (proj1 (chat_unreadable_response
                  (RAGChat.setInput (lit "Who directed The Matrix?") (RAGChat.initial 0))
                  5 9 (Resolved [("data", JNull); ("status", JNum 200)])
                  eq_refl eq_refl eq_refl)).
Defined.

(** ** The entity types *)

Section Selection.
Import EntityExtraction.

Lemma toggle_NoDup t l : NoDup l -> NoDup (toggle t l).
Proof.
  intros H. unfold toggle. destruct (includes t l) eqn:E.
  - now apply NoDup_filter.
  - apply includes_false in E.
    apply NoDup_app; [assumption | repeat constructor; intros [] |].
    intros x Hx [<-|[]]. contradiction.
Qed.

Lemma entity_handlers_keep_distinct a s :
  maintains (fun st => NoDup (entityTypes st))
    (Pages.handle Pages.EntityExtraction a s).
Proof.
  unfold maintains. destruct a; handler_cases; try assumption.
  now apply toggle_NoDup.
Qed.

End Selection.

(** The selection of entity types never holds a type twice: starting from
    a selection without repetition (the initial one is), it has none after
    any sequence of toggles, submissions and settlements. *)
Theorem selection_stays_distinct (hs : list (Pages.happening Pages.EntityExtraction))
    (s : EntityExtraction.state) :
  NoDup (EntityExtraction.entityTypes s) ->
  NoDup (EntityExtraction.entityTypes
           (state (@Pages.play Pages.EntityExtraction hs (init s)))).
Proof.
  intros H.
  apply (play_invariant Pages.EntityExtraction
           (fun st => NoDup (EntityExtraction.entityTypes st))).
  - apply entity_handlers_keep_distinct.
  - exact H.
Qed.

Lemma initial_selection_distinct :
  NoDup (EntityExtraction.entityTypes EntityExtraction.initial).
Proof.
  cbn. repeat (constructor; [cbn; intuition discriminate|]). constructor.
Defined.

(** An instance: PERSON unchecked and checked again, then PRODUCT checked. *)
Lemma selection_stays_distinct_witness :
  NoDup (EntityExtraction.entityTypes
           (state (@Pages.play Pages.EntityExtraction
                     [@Pages.Act Pages.EntityExtraction 0
                        (EntityExtraction.ToggleEntityType (lit "PERSON"));
                      @Pages.Act Pages.EntityExtraction 1
                        (EntityExtraction.ToggleEntityType (lit "PERSON"));
                      @Pages.Act Pages.EntityExtraction 2
                        (EntityExtraction.ToggleEntityType (lit "PRODUCT"))]
                     (init EntityExtraction.initial)))).
Proof.
  exact (selection_stays_distinct _ EntityExtraction.initial initial_selection_distinct).
Defined.

(** ** The knowledge graph page *)

Section KnowledgeGraph.

(** Decide the guards of a handler, then let the outcomes play. *)
Ltac decide_guards :=
  autounfold with handlers;
  repeat match goal with
  | |- context [trim_of (KnowledgeGraphConstruction.contractText ?s)] =>
      destruct (KnowledgeGraphConstruction.contractText s); cbn [trim_of]
  | |- context [is_empty (trim ?t)] => destruct (is_empty (trim t)) eqn:?
  end.

Ltac read_bodies :=
  repeat match goal with
  | |- context [get _ (response_data ?r)] => destruct (response_data r); cbn
  end.

Lemma loading_reset_after (a : KnowledgeGraphConstruction.action)
    (s : KnowledgeGraphConstruction.state) (o1 o2 o3 : outcome) (now : Z) :
  In a [KnowledgeGraphConstruction.Extract; KnowledgeGraphConstruction.Import;
        KnowledgeGraphConstruction.CreateConstraints;
        KnowledgeGraphConstruction.ClearAllData true;
        KnowledgeGraphConstruction.ClearAllData false;
        KnowledgeGraphConstruction.Query] ->
  let w := Drive.drain now [o1; o2; o3]
             (step (Invoke now (KnowledgeGraphConstruction.handle a)) (init s)) in
  pending w = []
  /\ KnowledgeGraphConstruction.loading (state w)
     = match requests (log w) with
       | [] => KnowledgeGraphConstruction.loading s
       | _ :: _ => false
       end.
Proof.
  intros Ha. cbv zeta. simpl in Ha.
  destruct Ha as [<-|[<-|[<-|[<-|[<-|[<-|[]]]]]]];
    cbn [Drive.drain step KnowledgeGraphConstruction.handle init state];
    decide_guards; destruct o1, o2, o3; cbn; read_bodies; auto.
Qed.

End KnowledgeGraph.

(** Each of the five actions that turn the loading flag on turns it off
    again: once the requests the action caused have settled, however they
    settled, nothing is in flight and the flag is off; an action that sent
    nothing (a blank text, a declined confirmation) leaves the flag alone. *)
Theorem kg_loading_is_reset (s : KnowledgeGraphConstruction.state)
    (o1 o2 o3 : outcome) (now : Z) :
  Forall (fun a =>
    let w := Drive.drain now [o1; o2; o3]
               (step (Invoke now (KnowledgeGraphConstruction.handle a)) (init s)) in
    pending w = []
    /\ KnowledgeGraphConstruction.loading (state w)
       = match requests (log w) with
         | [] => KnowledgeGraphConstruction.loading s
         | _ :: _ => false
         end)
    [KnowledgeGraphConstruction.Extract; KnowledgeGraphConstruction.Import;
     KnowledgeGraphConstruction.CreateConstraints;
     KnowledgeGraphConstruction.ClearAllData true;
     KnowledgeGraphConstruction.ClearAllData false;
     KnowledgeGraphConstruction.Query].
Proof.
  apply Forall_forall. intros a Ha. now apply loading_reset_after.
Qed.

(** With a contract text and a question that are not blank, each of
    those actions sends its request; when the request is rejected the
    error panel shows the [detail] of the server's answer when there is a
    truthy one, and the message of the action otherwise, so it is never
    left empty; the loading flag is off, and nothing more is sent or
    reported. *)
Theorem kg_failure_is_shown (s : KnowledgeGraphConstruction.state)
    (t : jsstring) (error : jsval) (now : Z) :
  KnowledgeGraphConstruction.contractText s = JStr t ->
  blank t = false ->
  blank (KnowledgeGraphConstruction.query s) = false ->
  Forall (fun '(a, req, message) =>
    let w0 := step (Invoke now (KnowledgeGraphConstruction.handle a)) (init s) in
    let w := step (Settle now 0 (Rejected error)) w0 in
    requests (log w0) = [req]
    /\ List.length (pending w0) = 1
    /\ KnowledgeGraphConstruction.error (state w)
       = (if truthy (error_detail error) then error_detail error
          else JStr (lit message))
    /\ truthy (KnowledgeGraphConstruction.error (state w)) = true
    /\ KnowledgeGraphConstruction.loading (state w) = false
    /\ log w = log w0
    /\ pending w = [])
    [(KnowledgeGraphConstruction.Extract,
      knowledgeGraphAPI_extract [JStr t],
      "Error extracting contract information");
     (KnowledgeGraphConstruction.Import,
      knowledgeGraphAPI_import [JStr t],
      "Error importing contract to graph");
     (KnowledgeGraphConstruction.CreateConstraints,
      knowledgeGraphAPI_createConstraints [],
      "Error creating constraints");
     (KnowledgeGraphConstruction.ClearAllData true,
      knowledgeGraphAPI_clear [],
      "Error clearing data");
     (KnowledgeGraphConstruction.Query,
      knowledgeGraphAPI_query [JStr (KnowledgeGraphConstruction.query s)],
      "Error querying contracts")].
Proof.
  intros Ht Hb Hq. apply Forall_forall. intros [[a req] message] Ha. simpl in Ha.
  destruct Ha as [E|[E|[E|[E|[E|[]]]]]]; injection E as <- <- <-; cbv beta zeta.
  all: cbn [step KnowledgeGraphConstruction.handle init state].
  all: autounfold with handlers.
  all: rewrite ?Ht; cbn [trim_of]; rewrite ?is_empty_trim, ?Hb, ?Hq.
  all: cbn.
  all: unfold KnowledgeGraphConstruction.fail_with, js_or; cbn.
  all: repeat split; try reflexivity.
  all: destruct (truthy (error_detail error)) eqn:E; [exact E | reflexivity].
Qed.

(** An instance: the extraction of a contract fails without an answer of
    the server. *)
Lemma kg_failure_is_shown_witness :
  let s := KnowledgeGraphConstruction.setQuery (lit "Who are the parties?")
             (KnowledgeGraphConstruction.setContractText
                (JStr (lit "Agreement between A and B"))
                KnowledgeGraphConstruction.initial) in
  let error := JObj [("message", JStr (lit "Network Error"))] in
  let w0 := step (Invoke 0 (KnowledgeGraphConstruction.handle
                              KnowledgeGraphConstruction.Extract)) (init s) in
  requests (log w0)
  = [knowledgeGraphAPI_extract [JStr (lit "Agreement between A and B")]]
  /\ KnowledgeGraphConstruction.error
       (state (step (Settle 0 0 (Rejected error)) w0))
     = JStr (lit "Error extracting contract information").
Proof.
  cbv zeta.
  pose proof (Forall_inv
    (kg_failure_is_shown
       (KnowledgeGraphConstruction.setQuery (lit "Who are the parties?")
          (KnowledgeGraphConstruction.setContractText
             (JStr (lit "Agreement between A and B"))
             KnowledgeGraphConstruction.initial))
       (lit "Agreement between A and B")
       (JObj [("message", JStr (lit "Network Error"))]) 0
       eq_refl eq_refl eq_refl)) as H.
  cbv beta zeta in H. destruct H as [Hsent [_ [Herr _]]].
  split; [exact Hsent | exact Herr].
Defined.

(** After a successful import, a failure of the statistics reload or of
    the graph reload is silent: the extraction result is displayed, the
    error panel is empty, no toast is shown, and the statistics and graph
    data keep their former values. *)
Theorem kg_import_reload_failures_are_silent
    (s : KnowledgeGraphConstruction.state) (t : jsstring)
    (body rest : list (string * jsval)) (e2 e3 : jsval) (now : Z) :
  KnowledgeGraphConstruction.contractText s = JStr t ->
  blank t = false ->
  let w := Drive.drain now
             [Resolved (("data", JObj body) :: rest); Rejected e2; Rejected e3]
             (step (Invoke now KnowledgeGraphConstruction.importToGraph) (init s)) in
  KnowledgeGraphConstruction.extractedData (state w) = lookup "extraction_result" body
  /\ KnowledgeGraphConstruction.error (state w) = JNull
  /\ KnowledgeGraphConstruction.loading (state w) = false
  /\ KnowledgeGraphConstruction.statistics (state w)
     = KnowledgeGraphConstruction.statistics s
  /\ KnowledgeGraphConstruction.graphData (state w)
     = KnowledgeGraphConstruction.graphData s
  /\ log w = [Sent (knowledgeGraphAPI_import [JStr t]);
              Sent (knowledgeGraphAPI_getStatistics []);
              Did (ConsoleError "Error loading statistics:" e2);
              Sent (knowledgeGraphAPI_getGraphData []);
              Did (ConsoleError "Error loading graph data:" e3)]
  /\ pending w = [].
Proof.
  intros Hc Hb. cbv zeta.
  cbn [Drive.drain step init state]. unfold KnowledgeGraphConstruction.importToGraph.
  rewrite Hc. cbn [trim_of]. rewrite is_empty_trim, Hb.
  cbn. repeat split; reflexivity.
Qed.

(** An instance: a one-line contract. *)
Lemma kg_import_reload_failures_witness :
  let s := KnowledgeGraphConstruction.setContractText
             (JStr (lit "SERVICE AGREEMENT")) KnowledgeGraphConstruction.initial in
  let w := Drive.drain 0
             [Resolved [("data", JObj [("extraction_result",
                                        JObj [("contract_type", JStr (lit "Service"))])])];
              Rejected (JObj [("message", JStr (lit "Network Error"))]);
              Rejected (JObj [("message", JStr (lit "Network Error"))])]
             (step (Invoke 0 KnowledgeGraphConstruction.importToGraph) (init s)) in
  KnowledgeGraphConstruction.error (state w) = JNull.
Proof.
  exact (proj1 (proj2 (kg_import_reload_failures_are_silent
    (KnowledgeGraphConstruction.setContractText
       (JStr (lit "SERVICE AGREEMENT")) KnowledgeGraphConstruction.initial)
    (lit "SERVICE AGREEMENT")
    [("extraction_result", JObj [("contract_type", JStr (lit "Service"))])] []
    (JObj [("message", JStr (lit "Network Error"))])
    (JObj [("message", JStr (lit "Network Error"))]) 0 eq_refl eq_refl))).
Defined.

(** A confirmed clear that succeeds empties the extraction result and the
    graph data, reloads the statistics and empties the error panel; the
    answer of the last query stays displayed. *)
Theorem kg_clear_keeps_query_result (s : KnowledgeGraphConstruction.state)
    (r1 r2 : response) (now : Z) :
  let w := Drive.drain now [Resolved r1; Resolved r2]
             (step (Invoke now (KnowledgeGraphConstruction.clearData true)) (init s)) in
  KnowledgeGraphConstruction.extractedData (state w) = JNull
  /\ KnowledgeGraphConstruction.graphData (state w) = JNull
  /\ KnowledgeGraphConstruction.statistics (state w) = response_data r2
  /\ KnowledgeGraphConstruction.error (state w) = JNull
  /\ KnowledgeGraphConstruction.loading (state w) = false
  /\ KnowledgeGraphConstruction.queryResult (state w)
     = KnowledgeGraphConstruction.queryResult s
  /\ requests (log w) = [knowledgeGraphAPI_clear []; knowledgeGraphAPI_getStatistics []]
  /\ pending w = [].
Proof. cbv zeta. repeat split; reflexivity. Qed.

(** When the sample-contract response has no [sample_contract] field, the
    contract text becomes [undefined], and from then on the extract and
    import buttons do nothing at all: no request, no message, no change. *)
Theorem kg_missing_sample_disables_extraction
    (s : KnowledgeGraphConstruction.state)
    (body rest : list (string * jsval)) (now : Z) :
  lookup "sample_contract" body = JUndefined ->
  let w := @Pages.play Pages.KnowledgeGraphConstruction
             [@Pages.Act Pages.KnowledgeGraphConstruction now
                KnowledgeGraphConstruction.LoadSample;
              Pages.Settled now 0 (Resolved (("data", JObj body) :: rest))]
             (init s) in
  KnowledgeGraphConstruction.contractText (state w) = JUndefined
  /\ @Pages.play Pages.KnowledgeGraphConstruction
       [@Pages.Act Pages.KnowledgeGraphConstruction now
          KnowledgeGraphConstruction.Extract] w = w
  /\ @Pages.play Pages.KnowledgeGraphConstruction
       [@Pages.Act Pages.KnowledgeGraphConstruction now
          KnowledgeGraphConstruction.Import] w = w.
Proof.
  intros H. cbv zeta. unfold Pages.play. cbn. rewrite H.
  repeat split; reflexivity.
Qed.

(** An instance: an empty body. *)
Lemma kg_missing_sample_witness :
  KnowledgeGraphConstruction.contractText
    (state (@Pages.play Pages.KnowledgeGraphConstruction
              [@Pages.Act Pages.KnowledgeGraphConstruction 0
                 KnowledgeGraphConstruction.LoadSample;
               Pages.Settled 0 0 (Resolved [("data", JObj [])])]
              (init KnowledgeGraphConstruction.initial)))
  = JUndefined.
Proof.
  exact (proj1 (kg_missing_sample_disables_extraction
                  KnowledgeGraphConstruction.initial [] [] 0 eq_refl)).
Defined.

(** ** The Text2Cypher page *)

(** "Execute Query" never sends the generated Cypher: whenever a generated
    query is displayed, it sends again the request "Generate" sends, built
    from the question, terminology and examples fields as they are now,
    whether or not the question is blank; and when its request is
    fulfilled it replaces the results and leaves the displayed query. *)
Theorem execute_resends_generation (s : Text2Cypher.state) (c : jsstring)
    (body rest : list (string * jsval)) (now : Z) :
  Text2Cypher.cypherQuery s = JStr c ->
  blank c = false ->
  let w0 := @Pages.play Pages.Text2Cypher
              [@Pages.Act Pages.Text2Cypher now Text2Cypher.Execute] (init s) in
  let w := @Pages.play Pages.Text2Cypher
             [Pages.Settled now 0 (Resolved (("data", JObj body) :: rest))] w0 in
  requests (log w0)
  = [text2cypherAPI_query [JStr (Text2Cypher.question s);
                           JStr (Text2Cypher.terminology s);
                           JStr (Text2Cypher.examples s)]]
  /\ (blank (Text2Cypher.question s) = false ->
      requests (log (@Pages.play Pages.Text2Cypher
                       [@Pages.Act Pages.Text2Cypher now Text2Cypher.Generate]
                       (init s)))
      = requests (log w0))
  /\ Text2Cypher.queryResults (state w) = lookup "results" body
  /\ Text2Cypher.cypherQuery (state w) = JStr c.
Proof.
  intros Hc Hb. cbv zeta. unfold Pages.play.
  cbn [map Pages.event_of run step Pages.handle Text2Cypher.handle].
  change (state (init s)) with s.
  unfold Text2Cypher.handleExecuteQuery, Text2Cypher.handleGenerateCypher.
  rewrite Hc. cbn [trim_of]. rewrite !is_empty_trim, Hb.
  split; [reflexivity|]. split.
  - intros ->. reflexivity.
  - cbn. rewrite Hc. split; reflexivity.
Qed.

(** An instance: a generated query, and the question field emptied since. *)
Lemma execute_resends_generation_witness :
  let s := Text2Cypher.setCypherQuery (JStr (lit "MATCH (m:Movie) RETURN m.title"))
             Text2Cypher.initial in
  requests (log (@Pages.play Pages.Text2Cypher
                   [@Pages.Act Pages.Text2Cypher 0 Text2Cypher.Execute] (init s)))
  = [text2cypherAPI_query [JStr []; JStr []; JStr []]].
Proof.
  exact (proj1 (execute_resends_generation
                  (Text2Cypher.setCypherQuery
                     (JStr (lit "MATCH (m:Movie) RETURN m.title")) Text2Cypher.initial)
                  (lit "MATCH (m:Movie) RETURN m.title") [] [] 0 eq_refl eq_refl)).
Defined.

(** Once a confirmed database reset has succeeded, the generated query and
    its results are gone, and "Execute Query" sends nothing until a query
    is generated again: it only asks to generate one first. *)
Theorem reset_disarms_execute (s : Text2Cypher.state) (r : response) (now : Z) :
  let w := @Pages.play Pages.Text2Cypher
             [@Pages.Act Pages.Text2Cypher now (Text2Cypher.ResetDatabase true);
              Pages.Settled now 0 (Resolved r)] (init s) in
  let w' := @Pages.play Pages.Text2Cypher
              [@Pages.Act Pages.Text2Cypher now Text2Cypher.Execute] w in
  Text2Cypher.cypherQuery (state w) = JStr []
  /\ Text2Cypher.queryResults (state w) = JNull
  /\ requests (log w') = [databaseAPI_reset []]
  /\ log w' = log w ++ [Did (ToastError "Please generate a Cypher query first" None)]
  /\ state w' = state w
  /\ pending w' = [].
Proof.
  cbv zeta. unfold Pages.play. cbn. rewrite Nat.eqb_refl. cbn.
  repeat split; reflexivity.
Qed.

(** A generation whose response has a body without [cypher_query] is
    reported as a success, leaves the generated query [undefined], and
    from then on "Execute Query" does nothing at all. *)
Theorem generation_without_query_disables_execute (s : Text2Cypher.state)
    (body rest : list (string * jsval)) (now : Z) :
  blank (Text2Cypher.question s) = false ->
  lookup "cypher_query" body = JUndefined ->
  let w := @Pages.play Pages.Text2Cypher
             [@Pages.Act Pages.Text2Cypher now Text2Cypher.Generate;
              Pages.Settled now 0 (Resolved (("data", JObj body) :: rest))]
             (init s) in
  Text2Cypher.cypherQuery (state w) = JUndefined
  /\ In (Did (ToastSuccess "Cypher query generated successfully!")) (log w)
  /\ @Pages.play Pages.Text2Cypher
       [@Pages.Act Pages.Text2Cypher now Text2Cypher.Execute] w = w.
Proof.
  intros Hb Hq. cbv zeta. unfold Pages.play.
  cbn [map Pages.event_of run step Pages.handle Text2Cypher.handle].
  change (state (init s)) with s.
  unfold Text2Cypher.handleGenerateCypher. rewrite !is_empty_trim, !Hb.
  cbn. rewrite !Hq. cbn. repeat split; tauto.
Qed.

(** An instance: a body with results only. *)
Lemma generation_without_query_witness :
  Text2Cypher.cypherQuery
    (state (@Pages.play Pages.Text2Cypher
              [@Pages.Act Pages.Text2Cypher 0 Text2Cypher.Generate;
               Pages.Settled 0 0 (Resolved [("data", JObj [("results", JArr [])])])]
              (init (Text2Cypher.setQuestion (lit "Who acted in Heat?")
                       Text2Cypher.initial))))
  = JUndefined.
Proof.
  exact (proj1 (generation_without_query_disables_execute
                  (Text2Cypher.setQuestion (lit "Who acted in Heat?") Text2Cypher.initial)
                  [("results", JArr [])] [] 0 eq_refl eq_refl)).
Defined.

(** ** The PDF page *)

Section PdfUrl.

Lemma ends_with_pdf_suffix u p d f :
  ends_with_pdf (u ++ [46; p; d; f]%N)
  = (((p =? 112) || (p =? 80)) && ((d =? 100) || (d =? 68))
     && ((f =? 102) || (f =? 70)))%N.
Proof.
  unfold ends_with_pdf. rewrite rev_app_distr. reflexivity.
Qed.

Lemma ends_with_pdf_last u c :
  c <> 102%N -> c <> 70%N -> ends_with_pdf (u ++ [c]) = false.
Proof.
  intros H1 H2. unfold ends_with_pdf. rewrite rev_app_distr. simpl.
  destruct (rev u) as [|d [|p [|dot l]]]; try reflexivity.
  destruct (N.eqb_spec c 102) as [->|_]; [congruence|].
  destruct (N.eqb_spec c 70) as [->|_]; [congruence|].
  now rewrite andb_false_r.
Qed.

End PdfUrl.

(** The URL form sends a request exactly when the URL it holds is not
    blank and ends in ".pdf", in either letter case; the request carries
    the URL as the form holds it, letter case included.  A URL whose last
    character is not "f" or "F" (one with a query string after ".pdf",
    say) is turned down. *)
Theorem pdf_url_needs_pdf_suffix (s : PDFProcessor.state) (now : Z) :
  let sent u :=
    requests (log (@Pages.play Pages.PDFProcessor
                     [@Pages.Act Pages.PDFProcessor now PDFProcessor.UrlSubmit]
                     (init (PDFProcessor.setUrl u s)))) in
  (forall u, sent u = if blank u || negb (ends_with_pdf u) then []
                      else [pdfAPI_downloadPDF [JStr u]])
  /\ (forall u, sent (u ++ lit ".pdf") = [pdfAPI_downloadPDF [JStr (u ++ lit ".pdf")]]
                /\ sent (u ++ lit ".PDF") = [pdfAPI_downloadPDF [JStr (u ++ lit ".PDF")]])
  /\ (forall u c, c <> 102%N -> c <> 70%N -> sent (u ++ [c]) = []).
Proof.
  cbv zeta.
  assert (H : forall u,
    requests (log (@Pages.play Pages.PDFProcessor
                     [@Pages.Act Pages.PDFProcessor now PDFProcessor.UrlSubmit]
                     (init (PDFProcessor.setUrl u s))))
    = if blank u || negb (ends_with_pdf u) then []
      else [pdfAPI_downloadPDF [JStr u]]).
  { intros u. unfold Pages.play.
    cbn [map Pages.event_of run step Pages.handle PDFProcessor.handle].
    change (state (init (PDFProcessor.setUrl u s))) with (PDFProcessor.setUrl u s).
    unfold PDFProcessor.handleUrlSubmit.
    change (PDFProcessor.url (PDFProcessor.setUrl u s)) with u.
    rewrite is_empty_trim.
    destruct (blank u); [reflexivity|].
    destruct (ends_with_pdf u); reflexivity. }
  assert (Hnb : forall u p d f, blank (u ++ [46; p; d; f]%N) = false).
  { intros u p d f. rewrite blank_app. simpl. apply andb_false_r. }
  split; [exact H|]. split.
  - intros u. rewrite !H.
    change (lit ".pdf") with [46; 112; 100; 102]%N.
    change (lit ".PDF") with [46; 80; 68; 70]%N.
    rewrite !Hnb, !ends_with_pdf_suffix. split; reflexivity.
  - intros u c H1 H2. rewrite H, (ends_with_pdf_last u c H1 H2).
    now rewrite orb_true_r.
Qed.

(** A drop or a file selection looks at the first file only: it is
    uploaded, as multipart form data under the name "file", when its type
    is exactly "application/pdf", and turned down with a toast otherwise;
    the other files of the drop are ignored, and the drop zone is no
    longer active afterwards. *)
Theorem pdf_drop_takes_first_file (s : PDFProcessor.state)
    (files : option (list jsval)) (now : Z) :
  let w := @Pages.play Pages.PDFProcessor
             [@Pages.Act Pages.PDFProcessor now (PDFProcessor.Drop files)] (init s) in
  PDFProcessor.dragActive (state w) = false
  /\ map (fun r => (url r, data r, req_headers r)) (requests (log w))
     = match files with
       | Some (file :: _) =>
           if is_str (get_opt "type" file) (lit "application/pdf")
           then [("/api/pdf/upload", JFormData [("file", file)],
                  [("Content-Type", "multipart/form-data")])]
           else []
       | _ => []
       end
  /\ (requests (log w) = [] ->
      PDFProcessor.processingResults (state w) = PDFProcessor.processingResults s
      /\ pending w = []).
Proof.
  cbv zeta. unfold Pages.play.
  cbn [map Pages.event_of run step Pages.handle PDFProcessor.handle].
  unfold PDFProcessor.handleDrop, PDFProcessor.upload_first.
  destruct files as [[|file rest]|]; cbn; auto.
  destruct (is_str (get_opt "type" file) _); cbn; auto.
  repeat split; try reflexivity. discriminate.
Qed.

(** ** The Agentic RAG page *)

(** A submission of the Agentic RAG page clears the result and turns the
    loading flag on while its request is in flight; when the request
    settles the flag is off again either way, and the result is the body
    of the response, or the whole response object when the body is falsy
    (empty, [null], [0], [false]), or [null] after a rejection. *)
Theorem agentic_submission_settles (s : AgenticRAG.state) (o : outcome) (t0 t1 : Z) :
  blank (AgenticRAG.question s) = false ->
  let w0 := @Pages.play Pages.AgenticRAG
              [@Pages.Act Pages.AgenticRAG t0 AgenticRAG.Submit] (init s) in
  let w := @Pages.play Pages.AgenticRAG [Pages.Settled t1 0 o] w0 in
  (AgenticRAG.result (state w0) = JNull
   /\ AgenticRAG.isLoading (state w0) = true
   /\ requests (log w0) = [agenticRAGAPI_query [JStr (AgenticRAG.question s)]])
  /\ AgenticRAG.isLoading (state w) = false
  /\ AgenticRAG.result (state w)
     = match o with
       | Resolved r => if truthy (response_data r) then response_data r else JObj r
       | Rejected _ => JNull
       end
  /\ pending w = [].
Proof.
  intros Hb. cbv zeta. unfold Pages.play.
  cbn [map Pages.event_of run step Pages.handle AgenticRAG.handle].
  change (state (init s)) with s.
  unfold AgenticRAG.handleSubmit. rewrite is_empty_trim, Hb.
  autounfold with handlers. cbn.
  split; [auto|].
  destruct o as [r|e]; cbn; rewrite Nat.eqb_refl; cbn; auto.
Qed.

(** An instance: a response with an empty body. *)
Lemma agentic_submission_settles_witness :
  AgenticRAG.result
    (state (@Pages.play Pages.AgenticRAG
              [@Pages.Act Pages.AgenticRAG 0 AgenticRAG.Submit;
               Pages.Settled 1 0 (Resolved [("data", JStr []); ("status", JNum 204)])]
              (init (AgenticRAG.setQuestion (lit "Who directed The Matrix?")
                       AgenticRAG.initial))))
  = JObj [("data", JStr []); ("status", JNum 204)].
Proof.
  exact (proj1 (proj2 (proj2 (agentic_submission_settles
    (AgenticRAG.setQuestion (lit "Who directed The Matrix?") AgenticRAG.initial)
    (Resolved [("data", JStr []); ("status", JNum 204)]) 0 1 eq_refl)))).
Defined.

(** The list of tools is taken from the body of the tools response: for a
    response object (which has no [tools] of its own) the effect stores
    [response.data.tools] whenever it is truthy, without checking that it
    is an array, and stores nothing otherwise, not even when the body
    itself is the array of tools; while the query has no data it stores
    nothing, so the list shown before stays. *)
Theorem tools_are_read_from_the_body (fields : list (string * jsval)) :
  lookup "tools" fields = JUndefined ->
  AgenticRAG.toolsEffect (JObj fields)
  = (if truthy (get_opt "tools" (lookup "data" fields))
     then Some (get_opt "tools" (lookup "data" fields))
     else None)
  /\ (is_array (lookup "data" fields) = true ->
      AgenticRAG.toolsEffect (JObj fields) = None)
  /\ AgenticRAG.toolsEffect JUndefined = None.
Proof.
  intros H. unfold AgenticRAG.toolsEffect. cbn. rewrite H. cbn.
  repeat split.
  destruct (lookup "data" fields); try discriminate. reflexivity.
Qed.

(** An instance: a body whose [tools] is a string. *)
Lemma tools_are_read_from_the_body_witness :
  AgenticRAG.toolsEffect
    (JObj [("data", JObj [("tools", JStr (lit "none"))]); ("status", JNum 200)])
  = Some (JStr (lit "none")).
Proof.
  exact (proj1 (tools_are_read_from_the_body
                  [("data", JObj [("tools", JStr (lit "none"))]); ("status", JNum 200)]
                  eq_refl)).
Defined.

(** ** The navigation shell *)

Section Navigation.

Lemma navigation_cases (pathname : jsstring) :
  In pathname (map Layout.href Layout.navigation)
  \/ Forall (fun i => str_eqb pathname (Layout.href i) = false) Layout.navigation.
Proof.
  destruct (in_dec (list_eq_dec N.eq_dec) pathname
              (map Layout.href Layout.navigation)) as [H|H]; [now left|right].
  apply Forall_forall. intros i Hi. apply str_eqb_neq. intros ->.
  apply H. now apply in_map.
Qed.

Lemma filter_none {A} (f : A -> bool) l :
  Forall (fun x => f x = false) l -> filter f l = [].
Proof.
  induction 1 as [|x l Hx Hl IH]; simpl; [reflexivity|]. now rewrite Hx.
Qed.

Lemma find_none {A} (f : A -> bool) l :
  Forall (fun x => f x = false) l -> find f l = None.
Proof.
  induction 1 as [|x l Hx Hl IH]; simpl; [reflexivity|]. now rewrite Hx.
Qed.

End Navigation.

(** The sidebar and the top bar agree: for a path that is the address of
    an entry, exactly that entry is highlighted and its name is the title;
    for any other path (a sub-path, a trailing slash) nothing is
    highlighted and the title is the default one. *)
Theorem navigation_highlights_the_titled_entry (pathname : jsstring) :
  (exists i, In i Layout.navigation
             /\ Layout.href i = pathname
             /\ Layout.highlighted pathname = [i]
             /\ Layout.title pathname = JStr (Layout.name i))
  \/ (~ In pathname (map Layout.href Layout.navigation)
      /\ Layout.highlighted pathname = []
      /\ Layout.title pathname = JStr (lit "Advanced RAG System")).
Proof.
  destruct (navigation_cases pathname) as [H|H].
  - left. simpl in H.
    repeat (destruct H as [<-|H];
            [eexists; split; [|split; [|split; [reflexivity|]]];
             [cbn; tauto | reflexivity | reflexivity]|]).
    contradiction.
  - right. split; [|split].
    + intros Hin. apply in_map_iff in Hin as [i [<- Hi]].
      rewrite Forall_forall in H. specialize (H i Hi).
      now rewrite str_eqb_refl in H.
    + now apply filter_none.
    + unfold Layout.title. rewrite find_none; [reflexivity|].
      apply Forall_forall. intros i Hi. rewrite Forall_forall in H.
      specialize (H i Hi). apply str_eqb_neq in H. apply str_eqb_neq. congruence.
Qed.

(** ** Charts and quick statistics *)

Section Replace.

Lemma strip_prefix_app pat x : strip_prefix pat (pat ++ x) = Some x.
Proof.
  induction pat as [|p pat IH]; simpl; [reflexivity|].
  now rewrite N.eqb_refl.
Qed.

Lemma strip_prefix_Some pat s rest :
  strip_prefix pat s = Some rest -> s = pat ++ rest.
Proof.
  revert s. induction pat as [|p pat IH]; intros s; simpl.
  - congruence.
  - destruct s as [|c s]; [discriminate|].
    destruct (N.eqb_spec p c) as [->|_]; [|discriminate].
    intros H. now rewrite (IH _ H).
Qed.

(** The first occurrence goes, whatever follows it. *)
Lemma replace_first_prefix pat rep x :
  replace_first pat rep (pat ++ x) = rep ++ x.
Proof.
  destruct pat as [|p pat]; [destruct x; reflexivity|].
  cbn [app replace_first]. change (p :: pat ++ x) with ((p :: pat) ++ x).
  now rewrite strip_prefix_app.
Qed.

(** A string in which the pattern does not occur is left as it is. *)
Lemma replace_first_absent pat rep s :
  (forall a b, s <> a ++ pat ++ b) -> replace_first pat rep s = s.
Proof.
  induction s as [|c s IH]; intros H.
  - simpl. destruct (strip_prefix pat []) as [j|] eqn:E; [|reflexivity].
    apply strip_prefix_Some in E. exfalso. apply (H [] j). exact E.
  - simpl. destruct (strip_prefix pat (c :: s)) as [j|] eqn:E.
    + apply strip_prefix_Some in E. exfalso. apply (H [] j). exact E.
    + rewrite IH; [reflexivity|]. intros a b ->. apply (H (c :: a) b). reflexivity.
Qed.

(** The occurrence that goes is the first one: the one with the shortest
    text before it. *)
Lemma replace_first_leftmost pat rep a b :
  (forall a' b', a ++ pat ++ b = a' ++ pat ++ b' -> List.length a <= List.length a') ->
  replace_first pat rep (a ++ pat ++ b) = a ++ rep ++ b.
Proof.
  induction a as [|c a IH]; intros Hmin.
  - change ([] ++ pat ++ b) with (pat ++ b). change ([] ++ rep ++ b) with (rep ++ b).
    apply replace_first_prefix.
  - cbn [app replace_first].
    destruct (strip_prefix pat (c :: a ++ pat ++ b)) as [j|] eqn:E.
    + apply strip_prefix_Some in E.
      specialize (Hmin [] j E). simpl in Hmin. lia.
    + f_equal. apply IH. intros a' b' H.
      specialize (Hmin (c :: a') b'). simpl in Hmin.
      rewrite H in Hmin. specialize (Hmin eq_refl). lia.
Qed.

End Replace.

Section OwnProperties.

Let by_index (x y : N * (string * jsval)) : Prop := (fst x <= fst y)%N.

Let indexed_right (x : N * (string * jsval)) : Prop :=
  array_index (fst (snd x)) = Some (fst x).

Lemma insert_index_perm x l : Permutation (insert_index x l) (x :: l).
Proof.
  induction l as [|y l IH]; simpl; [reflexivity|].
  destruct (fst x <=? fst y)%N; [reflexivity|].
  rewrite IH. apply perm_swap.
Qed.

Lemma sort_index_perm l : Permutation (sort_index l) l.
Proof.
  induction l as [|x l IH]; simpl; [reflexivity|].
  rewrite insert_index_perm. now constructor.
Qed.

Lemma insert_index_sorted x l :
  StronglySorted by_index l -> StronglySorted by_index (insert_index x l).
Proof.
  induction 1 as [|y l Hl IH Hy]; simpl.
  - repeat constructor.
  - destruct (N.leb_spec (fst x) (fst y)) as [Hle | Hlt].
    + constructor; [now constructor|].
      constructor; [exact Hle|].
      eapply Forall_impl; [|exact Hy]. unfold by_index. intros z Hz. lia.
    + constructor; [exact IH|].
      apply (Permutation_Forall (Permutation_sym (insert_index_perm x l))).
      constructor; [unfold by_index; lia | exact Hy].
Qed.

Lemma sort_index_sorted l : StronglySorted by_index (sort_index l).
Proof.
  induction l as [|x l IH]; simpl; [constructor|].
  now apply insert_index_sorted.
Qed.

Lemma index_keyed_right fs : Forall indexed_right (index_keyed fs).
Proof.
  induction fs as [|kv fs IH]; simpl; [constructor|].
  destruct (array_index (fst kv)) as [n|] eqn:E; [|exact IH].
  constructor; [exact E | exact IH].
Qed.

Lemma index_keyed_fields fs :
  map snd (index_keyed fs) = filter (fun kv => negb (named kv)) fs.
Proof.
  induction fs as [|kv fs IH]; simpl; [reflexivity|].
  unfold named at 1. destruct (array_index (fst kv)); simpl; now rewrite IH.
Qed.

Lemma filter_split {A} (f : A -> bool) l :
  Permutation (filter (fun x => negb (f x)) l ++ filter f l) l.
Proof.
  induction l as [|x l IH]; simpl; [reflexivity|].
  destruct (f x); simpl.
  - rewrite <- Permutation_middle. now constructor.
  - now constructor.
Qed.

(** Enumeration loses and adds nothing. *)
Lemma own_properties_perm fs : Permutation (own_properties fs) fs.
Proof.
  unfold own_properties.
  rewrite (Permutation_map snd (sort_index_perm (index_keyed fs))).
  rewrite index_keyed_fields. apply filter_split.
Qed.

(** An object without array indices is enumerated in creation order. *)
Lemma own_properties_named fs :
  forallb named fs = true -> own_properties fs = fs.
Proof.
  intros H. unfold own_properties.
  assert (Hi : index_keyed fs = []).
  { induction fs as [|kv fs IH]; [reflexivity|].
    simpl in H. apply andb_prop in H. destruct H as [Hkv Hfs].
    simpl. unfold named in Hkv. destruct (array_index (fst kv)); [discriminate|].
    now apply IH. }
  rewrite Hi. simpl.
  induction fs as [|kv fs IH]; [reflexivity|].
  simpl in H. apply andb_prop in H. destruct H as [Hkv Hfs].
  simpl. rewrite Hkv. f_equal.
  apply IH; [exact Hfs|].
  simpl in Hi. unfold named in Hkv.
  destruct (array_index (fst kv)); [discriminate | exact Hi].
Qed.

Lemma sorted_app {A} (R : A -> A -> Prop) l1 l2 :
  StronglySorted R l1 -> StronglySorted R l2 ->
  (forall a b, In a l1 -> In b l2 -> R a b) ->
  StronglySorted R (l1 ++ l2).
Proof.
  induction 1 as [|x l1 Hl IH Hx]; intros H2 Hc; simpl; [exact H2|].
  constructor.
  - apply IH; [exact H2|]. intros a b Ha Hb. apply Hc; [now right | exact Hb].
  - apply Forall_app. split; [exact Hx|].
    apply Forall_forall. intros b Hb. apply Hc; [now left | exact Hb].
Qed.

(** The array indices come first, in ascending order; the other keys
    follow, in the order they have in the object. *)
Lemma own_properties_order fs :
  StronglySorted enumerated_before (own_properties fs)
  /\ filter named (own_properties fs) = filter named fs.
Proof.
  unfold own_properties.
  pose proof (sort_index_sorted (index_keyed fs)) as Hs.
  assert (Hr : Forall indexed_right (sort_index (index_keyed fs))).
  { apply (Permutation_Forall (Permutation_sym (sort_index_perm _))).
    apply index_keyed_right. }
  set (l := sort_index (index_keyed fs)) in *. clearbody l.
  assert (Hn : Forall (fun kv => named kv = true) (filter named fs)).
  { apply Forall_forall. intros kv Hkv. now apply filter_In in Hkv. }
  split.
  - apply sorted_app.
    + induction Hs as [|x l Hl IH Hx]; simpl; [constructor|].
      inversion Hr as [|? ? Hrx Hrl]; subst.
      constructor; [now apply IH|].
      apply Forall_forall. intros kv Hkv. apply in_map_iff in Hkv.
      destruct Hkv as [y [<- Hy]].
      rewrite Forall_forall in Hx, Hrl.
      unfold enumerated_before. rewrite Hrx, (Hrl _ Hy). apply (Hx _ Hy).
    + induction (filter named fs) as [|kv m IH]; [constructor|].
      inversion Hn as [|? ? Hkv Hm]; subst.
      constructor; [now apply IH|].
      apply Forall_forall. intros kv' Hkv'. rewrite Forall_forall in Hm.
      specialize (Hm _ Hkv'). unfold named in Hkv, Hm. unfold enumerated_before.
      destruct (array_index (fst kv)); [discriminate|].
      destruct (array_index (fst kv')); [discriminate | exact I].
    + intros a b Ha Hb. apply in_map_iff in Ha. destruct Ha as [x [<- Hx]].
      rewrite Forall_forall in Hr, Hn. specialize (Hn _ Hb).
      unfold enumerated_before. rewrite (Hr _ Hx).
      unfold named in Hn. destruct (array_index (fst b)); [discriminate | exact I].
  - rewrite filter_app.
    assert (Hnone : filter named (map snd l) = []).
    { clear Hs. induction Hr as [|x l Hx Hl IH]; simpl; [reflexivity|].
      unfold named at 1. unfold indexed_right in Hx. rewrite Hx. exact IH. }
    rewrite Hnone. simpl.
    induction fs as [|kv fs IH]; simpl; [reflexivity|].
    destruct (named kv) eqn:E; simpl; [rewrite E; f_equal|]; apply IH;
      apply Forall_forall; intros kv' Hkv'; now apply filter_In in Hkv'.
Qed.

End OwnProperties.

(** The bar chart has one bar per node label, with the label's count, in
    the order the counts object is enumerated: labels that are array
    indices first in ascending order, then the others in the order they
    have in the response.  A label loses its first pair of underscores and
    nothing else: "__Entity__" is shown as "Entity__", "a__b__c" as
    "ab__c", and a label without a pair is shown as it is.  The pie chart
    names its slices by the relationship types themselves.  Without counts
    (no data yet, a failed fetch) both charts are empty. *)
Theorem chart_points_follow_counts (stats : jsval) (nodes rels : list (string * jsval)) :
  Charts.node_counts stats = JObj nodes ->
  Charts.relationship_counts stats = JObj rels ->
  Forall2 (fun pt kv =>
             Charts.value pt = snd kv
             /\ (forall a b,
                   lit (fst kv) = a ++ lit "__" ++ b ->
                   (forall a' b', lit (fst kv) = a' ++ lit "__" ++ b' ->
                                  List.length a <= List.length a') ->
                   Charts.name pt = a ++ b)
             /\ ((forall a b, lit (fst kv) <> a ++ lit "__" ++ b) ->
                 Charts.name pt = lit (fst kv)))
    (Charts.nodeData stats) (own_properties nodes)
  /\ map (fun pt => (Charts.name pt, Charts.value pt)) (Charts.relationshipData stats)
     = map (fun kv => (lit (fst kv), snd kv)) (own_properties rels)
  /\ (forall fs,
        Permutation (own_properties fs) fs
        /\ StronglySorted enumerated_before (own_properties fs)
        /\ filter named (own_properties fs) = filter named fs
        /\ (forallb named fs = true -> own_properties fs = fs))
  /\ Charts.nodeData JUndefined = []
  /\ Charts.relationshipData JUndefined = [].
Proof.
  intros Hn Hr. unfold Charts.nodeData, Charts.relationshipData, Charts.points.
  rewrite Hn, Hr. cbn [truthy entries].
  split; [|split; [|split; [|split; reflexivity]]].
  - induction (own_properties nodes) as [|kv l IH]; simpl; constructor; [|exact IH].
    cbn [Charts.name Charts.value]. split; [reflexivity|]. split.
    + intros a b E Hmin. rewrite E.
      apply (replace_first_leftmost (lit "__") [] a b).
      intros a' b' E'. apply (Hmin a' b'). now rewrite E.
    + apply (replace_first_absent (lit "__") []).
  - rewrite map_map. reflexivity.
  - intros fs. split; [apply own_properties_perm|].
    split; [apply own_properties_order|].
    split; [apply own_properties_order | apply own_properties_named].
Qed.

(** An instance: the counts of a small graph. *)
Lemma chart_points_follow_counts_witness :
  map (fun pt => (Charts.name pt, Charts.value pt))
    (Charts.relationshipData
       (JObj [("data", JObj [("node_counts",
                              JObj [("Document", JNum 3); ("__Entity__", JNum 12)]);
                             ("relationship_counts",
                              JObj [("MENTIONS", JNum 20); ("PART_OF", JNum 7)])])]))
  = [(lit "MENTIONS", JNum 20); (lit "PART_OF", JNum 7)].
Proof.
  exact (proj1 (proj2 (chart_points_follow_counts
    (JObj [("data", JObj [("node_counts",
                           JObj [("Document", JNum 3); ("__Entity__", JNum 12)]);
                          ("relationship_counts",
                           JObj [("MENTIONS", JNum 20); ("PART_OF", JNum 7)])])])
    [("Document", JNum 3); ("__Entity__", JNum 12)]
    [("MENTIONS", JNum 20); ("PART_OF", JNum 7)]
    eq_refl eq_refl))).
Defined.

(** Labels as the bar chart shows them: a numeric label moves to the
    front, and only the first pair of underscores goes. *)
Remark chart_labels_of_a_small_graph :
  map (fun pt => (Charts.name pt, Charts.value pt))
    (Charts.nodeData
       (JObj [("data", JObj [("node_counts",
                              JObj [("Document", JNum 3); ("__Entity__", JNum 12);
                                    ("a__b__c", JNum 1); ("10", JNum 5);
                                    ("2", JNum 4); ("02", JNum 6)])])]))
  = [(lit "2", JNum 4); (lit "10", JNum 5); (lit "Document", JNum 3);
     (lit "Entity__", JNum 12); (lit "ab__c", JNum 1); (lit "02", JNum 6)].
Proof. vm_compute. reflexivity. Qed.

(** Every slice of the pie gets a colour of the palette, and the colours
    come round again every six slices. *)
Theorem pie_colours_cycle (index : nat) :
  (exists c, Charts.fill index = Some c /\ In c Charts.COLORS)
  /\ Charts.fill (index + 6) = Charts.fill index.
Proof.
  unfold Charts.fill. change (List.length Charts.COLORS) with 6.
  split.
  - pose proof (Nat.mod_upper_bound index 6 ltac:(discriminate)) as Hlt.
    destruct (nth_error Charts.COLORS (index mod 6)) as [c|] eqn:E.
    + exists c. split; [reflexivity|]. now apply nth_error_In in E.
    + apply nth_error_None in E.
      change (List.length Charts.COLORS) with 6 in E. lia.
  - replace (index + 6) with (index + 1 * 6) by lia.
    now rewrite Nat.Div0.mod_add.
Qed.

(** The quick statistics never hold a blank: a count that is missing, or
    not loaded yet, or zero, has the value 0.  The status card and the health badge
    agree: with the status "healthy" the card says Online in green and the
    badge is a success badge; with any other status, or none, the card
    says Offline in red and the badge is an error badge.  The badge has a
    text in every case. *)
Theorem quick_stats_have_no_blanks (stats health : jsval) :
  Forall (fun c => truthy (QuickStats.value c) = true \/ QuickStats.value c = JNum 0)
    (QuickStats.quickStats stats health)
  /\ (get_opt "status" (get_opt "data" health) = JStr (lit "healthy") ->
      map (fun c => (QuickStats.value c, QuickStats.color c))
        (skipn 3 (QuickStats.quickStats stats health))
      = [(JStr (lit "Online"), lit "text-green-600")]
      /\ fst (QuickStats.badge health) = lit "badge-success")
  /\ (get_opt "status" (get_opt "data" health) <> JStr (lit "healthy") ->
      map (fun c => (QuickStats.value c, QuickStats.color c))
        (skipn 3 (QuickStats.quickStats stats health))
      = [(JStr (lit "Offline"), lit "text-red-600")]
      /\ fst (QuickStats.badge health) = lit "badge-error")
  /\ truthy (snd (QuickStats.badge health)) = true.
Proof.
  assert (Hh : QuickStats.healthy health = true <->
               get_opt "status" (get_opt "data" health) = JStr (lit "healthy")).
  { unfold QuickStats.healthy, is_str.
    destruct (get_opt "status" (get_opt "data" health)); split;
      try discriminate; intros H.
    - apply str_eqb_eq in H. now subst.
    - injection H as H. rewrite H. apply str_eqb_refl. }
  split; [|split; [|split]].
  - unfold QuickStats.quickStats.
    assert (Hz : forall v, truthy (js_or v (JNum 0)) = true
                           \/ js_or v (JNum 0) = JNum 0).
    { intros v. unfold js_or.
      destruct (truthy v) eqn:E; [left; exact E | right; reflexivity]. }
    repeat apply Forall_cons; try apply Forall_nil;
      cbn [QuickStats.value]; try apply Hz.
    destruct (QuickStats.healthy health); left; reflexivity.
  - intros H. apply Hh in H. unfold QuickStats.badge, QuickStats.quickStats.
    cbn [skipn map fst QuickStats.value QuickStats.color]. rewrite H. split; reflexivity.
  - intros H. destruct (QuickStats.healthy health) eqn:E;
      [exfalso; apply H, Hh; reflexivity|].
    unfold QuickStats.badge, QuickStats.quickStats.
    cbn [skipn map fst QuickStats.value QuickStats.color]. rewrite E. split; reflexivity.
  - unfold QuickStats.badge, js_or. cbn [snd].
    destruct (truthy (get_opt "status" (get_opt "data" health))) eqn:E;
      [exact E | reflexivity].
Qed.
